(** * Highlight overlays for SVG elements

A shallow embedding of the box markers ([BoxTrace], [BoxHighlighting]) and
of the two [LiveSVGElementHighlightings] controllers, over a small model
of the DOM (a store of element nodes with parent pointers, child lists and
attribute maps), followed by the properties of the marker geometry, of the
attach / detach life cycle and of the refresh pass. *)

From Stdlib Require Import ZArith QArith.
From stdpp Require Import base gmap strings list fin_maps option numbers pretty.

(** ** JavaScript numbers

The sources compute with IEEE-754 doubles.  The arithmetic itself is kept
abstract: every definition below is written against this interface, and
the general theorems hold for any interpretation of it.  A literal is
given by its decimal mantissa and scale ([num_lit 75 2] is [0.75]). *)

Class JSNumber (num : Type) := {
  num_lit : Z → nat → num;
  num_add : num → num → num;
  num_sub : num → num → num;
  num_mul : num → num → num;
  num_div : num → num → num;
  num_pow : num → num → num;
  num_neg : num → num;
  (** the string a template literal [`${n}`] substitutes for [n] *)
  num_to_string : num → string
}.

(** ** Exceptions *)

Inductive JSError :=
  | HierarchyRequestError
  | TypeError (msg : string)
  | Thrown (reason : string).

Inductive result (A : Type) :=
  | Ok (a : A)
  | Throw (e : JSError).
Arguments Ok {A} a.
Arguments Throw {A} e.

#[global] Instance result_ret : MRet result := λ A a, Ok a.
#[global] Instance result_bind : MBind result := λ A B f r,
  match r with
  | Ok a => f a
  | Throw e => Throw e
  end.

Definition is_Ok {A} (r : result A) : Prop := ∃ a, r = Ok a.

(** ** The DOM store *)

Abbreviation node := nat (only parsing).

Module DOM.

Record Element := mkElement {
  tagName : string;
  parentNode : option node;
  childNodes : list node;
  attributes : gmap string string;
  style : gmap string string
}.

Record Document := mkDocument {
  nodes : gmap nat Element;
  nextNode : node
}.

Definition with_parentNode (p : option node) (e : Element) : Element :=
  mkElement (tagName e) p (childNodes e) (attributes e) (style e).

Definition with_childNodes (f : list node → list node) (e : Element) : Element :=
  mkElement (tagName e) (parentNode e) (f (childNodes e)) (attributes e) (style e).

Definition with_attribute (k v : string) (e : Element) : Element :=
  mkElement (tagName e) (parentNode e) (childNodes e) (<[k:=v]> (attributes e)) (style e).

Definition with_style (k v : string) (e : Element) : Element :=
  mkElement (tagName e) (parentNode e) (childNodes e) (attributes e) (<[k:=v]> (style e)).

Definition parentOf (d : Document) (n : node) : option node :=
  nodes d !! n ≫= parentNode.

Definition childrenOf (d : Document) (n : node) : list node :=
  from_option childNodes [] (nodes d !! n).

Definition getAttribute (d : Document) (n : node) (k : string) : option string :=
  nodes d !! n ≫= λ e, attributes e !! k.

Definition getStyle (d : Document) (n : node) (k : string) : option string :=
  nodes d !! n ≫= λ e, style e !! k.

(** [document.createElementNS(svgNS, tag)]: a new node, in no tree. *)
Definition createElementNS (tag : string) (d : Document) : node * Document :=
  (nextNode d,
   mkDocument (<[nextNode d := mkElement tag None [] ∅ ∅]> (nodes d))
              (S (nextNode d))).

Definition setAttribute (n : node) (k v : string) (d : Document) : Document :=
  mkDocument (alter (with_attribute k v) n (nodes d)) (nextNode d).

(** [n.style[k] = v].  The store holds the inline style itself; the
    [style] content attribute, in which the platform keeps its text, is
    not one of the attributes of the store. *)
Definition setStyle (n : node) (k v : string) (d : Document) : Document :=
  mkDocument (alter (with_style k v) n (nodes d)) (nextNode d).

(** [n.remove()]: takes [n] out of its parent's child list; nothing happens
    when [n] has no parent. *)
Definition remove (n : node) (d : Document) : Document :=
  match parentOf d n with
  | None => d
  | Some p =>
      mkDocument
        (alter (with_parentNode None) n
           (alter (with_childNodes (filter (λ c, c ≠ n))) p (nodes d)))
        (nextNode d)
  end.

(** Is [a] the node [n] or one of its ancestors?  The walk follows at most
    [fuel] parent pointers; [appendChild] passes the number of nodes of the
    store, which no chain of distinct nodes exceeds. *)
Fixpoint inclusive_ancestor (fuel : nat) (d : Document) (a n : node) : bool :=
  if decide (a = n) then true
  else match fuel with
       | O => false
       | S fuel' =>
           match parentOf d n with
           | Some p => inclusive_ancestor fuel' d a p
           | None => false
           end
       end.

(** [container.appendChild(child)] for an element [container] and an
    element [child]: a node that would become its own ancestor is refused;
    otherwise [child] leaves its present parent, if it has one, and becomes
    the last child of [container]. *)
Definition appendChild (container child : node) (d : Document) : result Document :=
  match nodes d !! container, nodes d !! child with
  | Some _, Some _ =>
      if inclusive_ancestor (size (nodes d)) d child container
      then Throw HierarchyRequestError
      else
        let d1 := remove child d in
        Ok (mkDocument
              (alter (with_childNodes (λ l, l ++ [child])) container
                 (alter (with_parentNode (Some container)) child (nodes d1)))
              (nextNode d1))
  | _, _ => Throw (TypeError "parameter is not of type 'Node'")
  end.

(** [parent.append(n1, n2, ...)]. *)
Fixpoint append (parent : node) (ns : list node) (d : Document) : result Document :=
  match ns with
  | [] => Ok d
  | n :: ns' => d' ← appendChild parent n d; append parent ns' d'
  end.

(** Well-formed stores: identifiers are allocated in order, parent pointers
    and child lists agree, and no child is listed twice. *)
Record doc_wf (d : Document) : Prop := {
  wf_bound : ∀ n, is_Some (nodes d !! n) → n < nextNode d;
  wf_parent : ∀ n p, parentOf d n = Some p → n ∈ childrenOf d p;
  wf_child : ∀ n p, n ∈ childrenOf d p → parentOf d n = Some p;
  wf_nodup : ∀ p, NoDup (childrenOf d p)
}.

Definition emptyDocument : Document := mkDocument ∅ 0.

End DOM.
Import DOM.

(** ** Array helpers

[slice] and [forEach] of JavaScript arrays, over a threaded state.
[forEachM] is a [forEach] whose callback may throw; [forEachi] passes the
index as well. *)

Definition slice {A} (start : nat) (l : list A) : list A := drop start l.

Definition forEach {A St} (f : A → St → St) (l : list A) (s : St) : St :=
  foldl (λ s a, f a s) s l.

Fixpoint forEachM {A St} (f : A → St → result St) (l : list A) (s : St) : result St :=
  match l with
  | [] => Ok s
  | a :: l' => s' ← f a s; forEachM f l' s'
  end.

Fixpoint forEachi_from {A St} (i : nat) (f : A → nat → St → St) (l : list A) (s : St) : St :=
  match l with
  | [] => s
  | a :: l' => forEachi_from (S i) f l' (f a i s)
  end.

Definition forEachi {A St} (f : A → nat → St → St) (l : list A) (s : St) : St :=
  forEachi_from 0 f l s.

(** ** Boxes and path data *)

(** The interface returned by methods such as [getBBox]. *)
Record BoxLike (num : Type) := mkBox {
  x : num;
  y : num;
  width : num;
  height : num
}.
Arguments mkBox {num} _ _ _ _.
Arguments x {num} _.
Arguments y {num} _.
Arguments width {num} _.
Arguments height {num} _.

Record Point (num : Type) := mkPoint { px : num; py : num }.
Arguments mkPoint {num} _ _.
Arguments px {num} _.
Arguments py {num} _.

(** The [Box] class of the [@rnacanvas/boxes] dependency, as far as the
    markers use it: [Box.matching] copies the four fields, and the extreme
    coordinates are derived from them. *)
Module Box.
Section Box.
  Context {num : Type} `{JSNumber num}.

Definition matching (boxLike : BoxLike num) : BoxLike num :=
  mkBox (x boxLike) (y boxLike) (width boxLike) (height boxLike).

Definition minX (box : BoxLike num) : num := x box.
Definition minY (box : BoxLike num) : num := y box.
Definition maxX (box : BoxLike num) : num := num_add (x box) (width box).
Definition maxY (box : BoxLike num) : num := num_add (y box) (height box).
End Box.
End Box.

(** The commands of the path data the markers write, with the polygon they
    draw: the pen positions after each drawing command. *)
Inductive PathCommand (num : Type) :=
  | MoveTo (x y : num)
  | HorizontalBy (dx : num)
  | VerticalBy (dy : num)
  | ClosePath.
Arguments MoveTo {num} _ _.
Arguments HorizontalBy {num} _.
Arguments VerticalBy {num} _.
Arguments ClosePath {num}.

Section PathData.
  Context {num : Type} `{JSNumber num}.

Definition command_to_string (c : PathCommand num) : string :=
  match c with
  | MoveTo x y => "M " +:+ num_to_string x +:+ " " +:+ num_to_string y
  | HorizontalBy dx => "h " +:+ num_to_string dx
  | VerticalBy dy => "v " +:+ num_to_string dy
  | ClosePath => "z"
  end.

Fixpoint path_to_string (cs : list (PathCommand num)) : string :=
  match cs with
  | [] => ""
  | [c] => command_to_string c
  | c :: cs' => command_to_string c +:+ " " +:+ path_to_string cs'
  end.

Fixpoint vertices_from (pen : Point num) (cs : list (PathCommand num)) : list (Point num) :=
  match cs with
  | [] => []
  | MoveTo x y :: cs' => mkPoint x y :: vertices_from (mkPoint x y) cs'
  | HorizontalBy dx :: cs' =>
      let pen' := mkPoint (num_add (px pen) dx) (py pen) in
      pen' :: vertices_from pen' cs'
  | VerticalBy dy :: cs' =>
      let pen' := mkPoint (px pen) (num_add (py pen) dy) in
      pen' :: vertices_from pen' cs'
  | ClosePath :: cs' => vertices_from pen cs'
  end.

Definition vertices (cs : list (PathCommand num)) : list (Point num) :=
  vertices_from (mkPoint (num_lit 0 0) (num_lit 0 0)) cs.

(** The outline of a box: from the minimum corner, right, down and back
    left, then closed. *)
Definition perimeterPath (box : BoxLike num) : list (PathCommand num) :=
  [ MoveTo (x box) (y box);
    HorizontalBy (width box);
    VerticalBy (height box);
    HorizontalBy (num_neg (width box));
    ClosePath ].
End PathData.

(** ** The surroundings of a controller

What a controller registers with its surroundings is recorded in the
[World]: the listeners of the live set's [change] event and the
observations of mutation observers.  A registered callback is the closure
[() => this.refresh()] of the controller whose root group is
[controller]. *)

Inductive Callback := CallRefresh (controller : node).

Module MutationObserver.

Record Init := mkInit {
  attributes : bool;
  childList : bool;
  characterData : bool;
  subtree : bool
}.

Record Observation := mkObservation {
  callback : Callback;
  target : node;
  options : Init
}.
End MutationObserver.

Record World := mkWorld {
  document : Document;
  console : list JSError;
  changeListeners : list Callback;
  observations : list MutationObserver.Observation
}.

Definition with_document (d : Document) (w : World) : World :=
  mkWorld d (console w) (changeListeners w) (observations w).

(** [console.error(error)] *)
Definition console_error (error : JSError) (w : World) : World :=
  mkWorld (document w) (console w ++ [error]) (changeListeners w) (observations w).

(** [targetSVGElements.addEventListener('change', listener)] *)
Definition addEventListener (listener : Callback) (w : World) : World :=
  mkWorld (document w) (console w) (changeListeners w ++ [listener]) (observations w).

(** [new MutationObserver(callback).observe(target, options)] *)
Definition observe (callback : Callback) (target : node)
    (options : MutationObserver.Init) (w : World) : World :=
  mkWorld (document w) (console w) (changeListeners w)
    (observations w ++ [MutationObserver.mkObservation callback target options]).

(** A target element answers a bounding-box query with a box or by throwing. *)
Record SVGGraphicsElement (num : Type) := mkTarget {
  getBBox : result (BoxLike num)
}.
Arguments mkTarget {num} _.
Arguments getBBox {num} _.

(** What the surroundings answer during one refresh: the members the live
    set enumerates, in its iteration order, and the reading of the parent
    document's coordinate system. *)
Record Env (num : Type) := mkEnv {
  members : list (SVGGraphicsElement num);
  horizontalScaling : num
}.
Arguments mkEnv {num} _ _.
Arguments members {num} _.
Arguments horizontalScaling {num} _.

(** ** BoxTrace: the dashed outline marker *)

Module BoxTrace.

(** The two revisions of the class differ in these constants only
    (and in the names of the two strokes: light / dark, blue / aqua). *)
Record Appearance := mkAppearance {
  lightStroke : string;
  darkStroke : string;
  strokeDasharray : string;
  strokeLinecap : option string;
  darkDashoffset : string;
  strokeWidth : string
}.

Definition lightDark : Appearance :=
  mkAppearance "powderblue" "blue" "0 1" (Some "round") "0.5" "0.4".

Definition blueAqua : Appearance :=
  mkAppearance "blue" "aqua" "0.75 0.75" None "0.75" "0.75".

Record t := mk {
  domNode : node;
  lightDashing : node;
  darkDashing : node
}.

Definition new (a : Appearance) (d : Document) : result (t * Document) :=
  let '(domNode, d) := createElementNS "g" d in
  let '(lightDashing, d) := createElementNS "path" d in
  let '(darkDashing, d) := createElementNS "path" d in
  d ← append domNode [lightDashing; darkDashing] d;
  let d := setStyle domNode "pointer-events" "none" d in
  let d := setAttribute lightDashing "stroke" (lightStroke a) d in
  let d := setAttribute darkDashing "stroke" (darkStroke a) d in
  let d := setAttribute lightDashing "stroke-dasharray" (strokeDasharray a) d in
  let d := setAttribute darkDashing "stroke-dasharray" (strokeDasharray a) d in
  let d := match strokeLinecap a with
           | Some cap =>
               setAttribute darkDashing "stroke-linecap" cap
                 (setAttribute lightDashing "stroke-linecap" cap d)
           | None => d
           end in
  let d := setAttribute darkDashing "stroke-dashoffset" (darkDashoffset a) d in
  let d := setAttribute lightDashing "stroke-width" (strokeWidth a) d in
  let d := setAttribute darkDashing "stroke-width" (strokeWidth a) d in
  let d := setAttribute lightDashing "fill" "none" d in
  let d := setAttribute darkDashing "fill" "none" d in
  mret (mk domNode lightDashing darkDashing, d).

Definition appendTo (this : t) (container : node) (d : Document) : result Document :=
  appendChild container (domNode this) d.

Definition remove (this : t) (d : Document) : Document :=
  DOM.remove (domNode this) d.

Section Methods.
  Context {num : Type} `{JSNumber num}.

Definition trace (this : t) (box : BoxLike num) (d : Document) : Document :=
  let d_ := "M " +:+ num_to_string (x box) +:+ " " +:+ num_to_string (y box)
            +:+ " h " +:+ num_to_string (width box)
            +:+ " v " +:+ num_to_string (height box)
            +:+ " h " +:+ num_to_string (num_neg (width box)) +:+ " z" in
  let d := setAttribute (lightDashing this) "d" d_ d in
  setAttribute (darkDashing this) "d" d_ d.

Definition setThickness (this : t) (thickness : num) (d : Document) : Document :=
  let d := setAttribute (lightDashing this) "stroke-width" (num_to_string thickness) d in
  setAttribute (darkDashing this) "stroke-width" (num_to_string thickness) d.

Definition setOpacity (this : t) (opacity : num) (d : Document) : Document :=
  setAttribute (domNode this) "opacity" (num_to_string opacity) d.
End Methods.

Definition nodesOf (this : t) : list node :=
  [domNode this; lightDashing this; darkDashing this].
End BoxTrace.

(** ** BoxHighlighting: the outline with four corner boxes *)

Module BoxHighlighting.

Record t (num : Type) := mk {
  domNode : node;
  boxTrace : node;
  topLeftCornerBox : node;
  topRightCornerBox : node;
  bottomRightCornerBox : node;
  bottomLeftCornerBox : node;
  lineThickness : num;
  highlightedBox : option (BoxLike num)
}.
Arguments mk {num} _ _ _ _ _ _ _ _.
Arguments domNode {num} _.
Arguments boxTrace {num} _.
Arguments topLeftCornerBox {num} _.
Arguments topRightCornerBox {num} _.
Arguments bottomRightCornerBox {num} _.
Arguments bottomLeftCornerBox {num} _.
Arguments lineThickness {num} _.
Arguments highlightedBox {num} _.

Section Methods.
  Context {num : Type} `{JSNumber num}.

Definition cornerBoxes (this : t num) : list node :=
  [ topLeftCornerBox this;
    topRightCornerBox this;
    bottomRightCornerBox this;
    bottomLeftCornerBox this ].

Definition with_lineThickness (lineThickness : num) (this : t num) : t num :=
  mk (domNode this) (boxTrace this) (topLeftCornerBox this) (topRightCornerBox this)
     (bottomRightCornerBox this) (bottomLeftCornerBox this)
     lineThickness (highlightedBox this).

Definition with_highlightedBox (box : option (BoxLike num)) (this : t num) : t num :=
  mk (domNode this) (boxTrace this) (topLeftCornerBox this) (topRightCornerBox this)
     (bottomRightCornerBox this) (bottomLeftCornerBox this)
     (lineThickness this) box.

Definition new (d : Document) : result (t num * Document) :=
  let '(domNode, d) := createElementNS "g" d in
  let '(boxTrace, d) := createElementNS "path" d in
  let '(topLeftCornerBox, d) := createElementNS "path" d in
  let '(topRightCornerBox, d) := createElementNS "path" d in
  let '(bottomRightCornerBox, d) := createElementNS "path" d in
  let '(bottomLeftCornerBox, d) := createElementNS "path" d in
  let this := mk domNode boxTrace topLeftCornerBox topRightCornerBox
                 bottomRightCornerBox bottomLeftCornerBox (num_lit 5 1) None in
  d ← append domNode (boxTrace :: cornerBoxes this) d;
  let d := setStyle domNode "pointer-events" "none" d in
  let d := setAttribute boxTrace "stroke" "blue" d in
  let d := setAttribute boxTrace "stroke-width" (num_to_string (lineThickness this)) d in
  let d := setAttribute boxTrace "fill" "none" d in
  let d := forEach (λ cornerBox d,
             let d := setAttribute cornerBox "stroke" "blue" d in
             let d := setAttribute cornerBox "stroke-width"
                        (num_to_string (lineThickness this)) d in
             setAttribute cornerBox "fill" "white" d)
           (cornerBoxes this) d in
  mret (this, d).

Definition appendTo (this : t num) (container : node) (d : Document) : result Document :=
  appendChild container (domNode this) d.

Definition remove (this : t num) (d : Document) : Document :=
  DOM.remove (domNode this) d.

(** The distance [2 * lineThickness ** 0.5] that sizes a corner box. *)
Definition cornerBoxD (this : t num) (centerPoint : Point num) : string :=
  "M " +:+ num_to_string (num_sub (px centerPoint)
             (num_mul (num_lit 2 0) (num_pow (lineThickness this) (num_lit 5 1))))
  +:+ " " +:+ num_to_string (num_sub (py centerPoint)
             (num_mul (num_lit 2 0) (num_pow (lineThickness this) (num_lit 5 1))))
  +:+ " h " +:+ num_to_string
             (num_mul (num_lit 2 0) (num_pow (lineThickness this) (num_lit 5 1)))
  +:+ " v " +:+ num_to_string
             (num_mul (num_lit 2 0) (num_pow (lineThickness this) (num_lit 5 1)))
  +:+ " h " +:+ num_to_string
             (num_mul (num_neg (num_lit 2 0)) (num_pow (lineThickness this) (num_lit 5 1)))
  +:+ " z".

Definition highlight (boxLike : BoxLike num) (this : t num) (d : Document)
    : t num * Document :=
  let box := Box.matching boxLike in
  let d := setAttribute (boxTrace this) "d"
             ("M " +:+ num_to_string (x box) +:+ " " +:+ num_to_string (y box)
              +:+ " h " +:+ num_to_string (width box)
              +:+ " v " +:+ num_to_string (height box)
              +:+ " h " +:+ num_to_string (num_neg (width box)) +:+ " z") d in
  let d := setAttribute (topLeftCornerBox this) "d"
             (cornerBoxD this (mkPoint (Box.minX box) (Box.minY box))) d in
  let d := setAttribute (topRightCornerBox this) "d"
             (cornerBoxD this (mkPoint (Box.maxX box) (Box.minY box))) d in
  let d := setAttribute (bottomRightCornerBox this) "d"
             (cornerBoxD this (mkPoint (Box.maxX box) (Box.maxY box))) d in
  let d := setAttribute (bottomLeftCornerBox this) "d"
             (cornerBoxD this (mkPoint (Box.minX box) (Box.maxY box))) d in
  (with_highlightedBox (Some box) this, d).

(** The [lineThickness] setter. *)
Definition set_lineThickness (lineThickness : num) (this : t num) (d : Document)
    : t num * Document :=
  let this := with_lineThickness lineThickness this in
  let d := forEach (λ ele d,
             setAttribute ele "stroke-width" (num_to_string lineThickness) d)
           (boxTrace this :: cornerBoxes this) d in
  match highlightedBox this with
  | Some box => highlight box this d
  | None => (this, d)
  end.

Definition setOpacity (this : t num) (opacity : num) (d : Document) : Document :=
  setAttribute (domNode this) "opacity" (num_to_string opacity) d.

(** The path commands that [cornerBoxD] prints. *)
Definition cornerBoxPath (this : t num) (centerPoint : Point num)
    : list (PathCommand num) :=
  let side := num_mul (num_lit 2 0) (num_pow (lineThickness this) (num_lit 5 1)) in
  [ MoveTo (num_sub (px centerPoint) side) (num_sub (py centerPoint) side);
    HorizontalBy side;
    VerticalBy side;
    HorizontalBy (num_mul (num_neg (num_lit 2 0))
                    (num_pow (lineThickness this) (num_lit 5 1)));
    ClosePath ].

Definition nodesOf (this : t num) : list node :=
  domNode this :: boxTrace this :: cornerBoxes this.
End Methods.
End BoxHighlighting.

(** ** The controllers

The class [LiveSVGElementHighlightings] exists in two revisions.  The one
built on [BoxTrace] is [LiveSVGElementTracings] below; the one built on
[BoxHighlighting], which also rescales the line thickness, keeps the
name.  The field [targetSVGElements] is a reference to the live set: its
members are read from the [Env] of each refresh. *)

Inductive Notification :=
  | Change
  | Mutation (target : node).

(** The callbacks a notification reaches. *)
Definition listenersOf (n : Notification) (w : World) : list Callback :=
  match n with
  | Change => changeListeners w
  | Mutation target =>
      MutationObserver.callback <$>
        filter (λ o, MutationObserver.target o = target) (observations w)
  end.

Inductive Action (num : Type) :=
  | AppendTo (container : node)
  | Remove
  | Notify (n : Notification) (env : Env num).
Arguments AppendTo {num} _.
Arguments Remove {num}.
Arguments Notify {num} _ _.

Definition observeEverything : MutationObserver.Init :=
  MutationObserver.mkInit true true true true.

Module LiveSVGElementTracings.

Record t := mk {
  domNode : node;
  boxTraces : list BoxTrace.t
}.

Definition new (parentSVGDoc : node) (w : World) : t * World :=
  let '(domNode, d) := createElementNS "g" (document w) in
  let w := with_document d w in
  let w := addEventListener (CallRefresh domNode) w in
  let w := observe (CallRefresh domNode) parentSVGDoc observeEverything w in
  (mk domNode [], w).

Definition appendTo (this : t) (container : node) (w : World) : result World :=
  d ← appendChild container (domNode this) (document w);
  mret (with_document d w).

Definition remove (this : t) (w : World) : World :=
  with_document (DOM.remove (domNode this) (document w)) w.

Section Refresh.
  Context {num : Type} `{JSNumber num}.
  Variable appearance : BoxTrace.Appearance.

(** [refresh]: the three loops of the source, in its order.  The state
    threaded through them is the array [this.boxTraces] and the world.  A
    [try] block of the second loop that throws does so when it reads
    [boxTraces[i]] or queries the box, before it has changed anything: the
    state after the [catch] clause is the one before the [try], with the
    error on the console. *)
Definition refresh (env : Env num) (this : t) (w : World) : result (t * World) :=
  let targetSVGElements := members env in
  (* create any additional box traces that are needed *)
  '(boxTraces, w) ←
    forEachM (λ _ '(boxTraces, w),
        '(boxTrace, d) ← BoxTrace.new appearance (document w);
        d ← BoxTrace.appendTo boxTrace (domNode this) d;
        mret (boxTraces ++ [boxTrace], with_document d w))
      (slice (length (boxTraces this)) targetSVGElements)
      (boxTraces this, w);
  (* trace the target SVG elements *)
  let '(boxTraces, w) :=
    forEachi (λ ele i '(boxTraces, w),
        match
          match boxTraces !! i with
          | None => Throw (TypeError "Cannot read properties of undefined")
          | Some boxTrace =>
              box ← getBBox ele;
              let d := BoxTrace.trace boxTrace box (document w) in
              let d := BoxTrace.setOpacity boxTrace (num_lit 1 0) d in
              mret (boxTraces, with_document d w)
          end
        with
        | Ok s => s
        | Throw error => (boxTraces, console_error error w)
        end)
      targetSVGElements (boxTraces, w) in
  (* make any extra box traces invisible *)
  let w :=
    forEach (λ trace w,
        with_document (BoxTrace.setOpacity trace (num_lit 0 0) (document w)) w)
      (slice (length targetSVGElements) boxTraces) w in
  mret (mk (domNode this) boxTraces, w).

Definition call (env : Env num) (cb : Callback) (s : t * World) : result (t * World) :=
  match cb with
  | CallRefresh controller =>
      if decide (controller = domNode s.1) then refresh env s.1 s.2 else Ok s
  end.

Definition notify (n : Notification) (env : Env num) (this : t) (w : World)
    : result (t * World) :=
  forEachM (call env) (listenersOf n w) (this, w).

Definition perform (a : Action num) (s : t * World) : result (t * World) :=
  match a with
  | AppendTo container => w ← appendTo s.1 container s.2; mret (s.1, w)
  | Remove => mret (s.1, remove s.1 s.2)
  | Notify n env => notify n env s.1 s.2
  end.

Definition run (actions : list (Action num)) (s : t * World) : result (t * World) :=
  forEachM perform actions s.
End Refresh.
End LiveSVGElementTracings.

(** The [CoordinateSystem] class of the [@rnacanvas/draw.svg] dependency:
    an object over the parent document whose [horizontalScaling] getter is
    answered by the surroundings at the moment it is read. *)
Module CoordinateSystem.

Record t := mk { svgDoc : node }.

Definition horizontalScaling {num} (this : t) (env : Env num) : num :=
  horizontalScaling env.
End CoordinateSystem.

Module LiveSVGElementHighlightings.

Record t (num : Type) := mk {
  domNode : node;
  boxHighlightings : list (BoxHighlighting.t num);
  parentSVGDocCoordinateSystem : CoordinateSystem.t
}.
Arguments mk {num} _ _ _.
Arguments domNode {num} _.
Arguments boxHighlightings {num} _.
Arguments parentSVGDocCoordinateSystem {num} _.

Section Refresh.
  Context {num : Type} `{JSNumber num}.

Definition new (parentSVGDoc : node) (w : World) : t num * World :=
  let '(domNode, d) := createElementNS "g" (document w) in
  let w := with_document d w in
  let parentSVGDocCoordinateSystem := CoordinateSystem.mk parentSVGDoc in
  let w := addEventListener (CallRefresh domNode) w in
  let w := observe (CallRefresh domNode) parentSVGDoc observeEverything w in
  (mk domNode [] parentSVGDocCoordinateSystem, w).

Definition appendTo (this : t num) (container : node) (w : World) : result World :=
  d ← appendChild container (domNode this) (document w);
  mret (with_document d w).

Definition remove (this : t num) (w : World) : World :=
  with_document (DOM.remove (domNode this) (document w)) w.

(** [refresh]: the three loops of the source, in its order, over the array
    [this.boxHighlightings] and the world.  The line thickness is computed
    from the scaling read in this call.  A [try] block of the second loop
    that throws does so when it reads [boxHighlightings[i]] or queries the
    box, before it has changed anything. *)
Definition refresh (env : Env num) (this : t num) (w : World)
    : result (t num * World) :=
  let targetSVGElements := members env in
  (* create any additional box highlightings that are needed *)
  '(boxHighlightings, w) ←
    forEachM (λ _ '(boxHighlightings, w),
        '(boxHighlighting, d) ← BoxHighlighting.new (document w);
        d ← BoxHighlighting.appendTo boxHighlighting (domNode this) d;
        mret (boxHighlightings ++ [boxHighlighting], with_document d w))
      (slice (length (boxHighlightings this)) targetSVGElements)
      (boxHighlightings this, w);
  (* adjust line thickness according to the scaling of the parent SVG document *)
  let scaling :=
    CoordinateSystem.horizontalScaling (parentSVGDocCoordinateSystem this) env in
  let lineThickness := num_div (num_lit 75 2) scaling in
  (* highlight the target SVG elements and update line thicknesses and opacities *)
  let '(boxHighlightings, w) :=
    forEachi (λ ele i '(boxHighlightings, w),
        match
          match boxHighlightings !! i with
          | None => Throw (TypeError "Cannot read properties of undefined")
          | Some boxHighlighting =>
              box ← getBBox ele;
              let '(boxHighlighting, d) :=
                BoxHighlighting.highlight box boxHighlighting (document w) in
              let '(boxHighlighting, d) :=
                BoxHighlighting.set_lineThickness lineThickness boxHighlighting d in
              let d := BoxHighlighting.setOpacity boxHighlighting (num_lit 1 0) d in
              mret (<[i:=boxHighlighting]> boxHighlightings, with_document d w)
          end
        with
        | Ok s => s
        | Throw error => (boxHighlightings, console_error error w)
        end)
      targetSVGElements (boxHighlightings, w) in
  (* make any extra box traces invisible *)
  let w :=
    forEach (λ boxHighlighting w,
        with_document
          (BoxHighlighting.setOpacity boxHighlighting (num_lit 0 0) (document w)) w)
      (slice (length targetSVGElements) boxHighlightings) w in
  mret (mk (domNode this) boxHighlightings (parentSVGDocCoordinateSystem this), w).

Definition call (env : Env num) (cb : Callback) (s : t num * World)
    : result (t num * World) :=
  match cb with
  | CallRefresh controller =>
      if decide (controller = domNode s.1) then refresh env s.1 s.2 else Ok s
  end.

Definition notify (n : Notification) (env : Env num) (this : t num) (w : World)
    : result (t num * World) :=
  forEachM (call env) (listenersOf n w) (this, w).

Definition perform (a : Action num) (s : t num * World) : result (t num * World) :=
  match a with
  | AppendTo container => w ← appendTo s.1 container s.2; mret (s.1, w)
  | Remove => mret (s.1, remove s.1 s.2)
  | Notify n env => notify n env s.1 s.2
  end.

Definition run (actions : list (Action num)) (s : t num * World)
    : result (t num * World) :=
  forEachM perform actions s.
End Refresh.
End LiveSVGElementHighlightings.

(** ** Exact arithmetic for the examples

Rationals in lowest terms, printed in decimal.  On the small integers
and dyadic fractions of the examples below, where every result that is
kept is exact (the line thicknesses 4, 1 and 0.25 are squares), this
agrees with double arithmetic and with the number-to-string conversion of
template literals.  The general theorems do not depend on it. *)

Module ExactQ.

Fixpoint fraction_digits (fuel : nat) (r den : Z) : string :=
  match fuel with
  | O => ""
  | S fuel' =>
      if (r =? 0)%Z then ""
      else pretty ((r * 10) `div` den)%Z
           +:+ fraction_digits fuel' ((r * 10) `mod` den)%Z den
  end.

Definition to_string (q : Q) : string :=
  let q := Qred q in
  let den := Z.pos (Qden q) in
  let a := Z.abs (Qnum q) in
  (if (Qnum q <? 0)%Z then "-" else "")
  +:+ pretty (a `div` den)%Z
  +:+ (if (a `mod` den =? 0)%Z then ""
       else "." +:+ fraction_digits 20 (a `mod` den)%Z den).

Definition lit (m : Z) (e : nat) : Q := Qred (m # Pos.of_nat (10 ^ e)).

Definition sqrt (q : Q) : Q :=
  let q := Qred q in
  Qred (Z.sqrt (Qnum q) # Pos.sqrt (Qden q)).

Definition pow (a b : Q) : Q :=
  if Qeq_bool b (1 # 2) then sqrt a
  else Qred (Qpower a (Qnum (Qred b) `div` Z.pos (Qden (Qred b)))).

#[global] Instance number : JSNumber Q := {|
  num_lit := lit;
  num_add a b := Qred (a + b);
  num_sub a b := Qred (a - b);
  num_mul a b := Qred (a * b);
  num_div a b := Qred (a / b);
  num_pow := pow;
  num_neg a := Qred (- a);
  num_to_string := to_string
|}.
End ExactQ.

(** ** Attribute writes

After their construction the markers change the document through
[setAttribute] only.  A sequence of such calls is a list of writes, and
the value an attribute ends with is that of the last write to it. *)

Record Write := mkWrite {
  wnode : node;
  wkey : string;
  wvalue : string
}.

Definition apply_writes (ws : list Write) (d : Document) : Document :=
  forEach (λ w d, setAttribute (wnode w) (wkey w) (wvalue w) d) ws d.

Fixpoint last_write (n : node) (k : string) (ws : list Write) : option string :=
  match ws with
  | [] => None
  | w :: ws' =>
      match last_write n k ws' with
      | Some v => Some v
      | None => if decide (wnode w = n ∧ wkey w = k) then Some (wvalue w) else None
      end
  end.

(** ** The common shape of the two refresh passes

Both controllers run the same three loops over their pool; they differ in
the marker class and in what is done to the marker of a target whose box
was obtained. *)

Module Pool.
Section Pool.
  Context {num M : Type}.
  Variable create : Document → result (M * Document).
  Variable rootOf : M → node.
  Variable update : BoxLike num → M → Document → M * Document.
  Variable hide : M → Document → Document.
  Variable root : node.

Definition grow (targets : list (SVGGraphicsElement num)) (pool : list M) (w : World)
    : result (list M * World) :=
  forEachM (λ _ '(pool, w),
      '(m, d) ← create (document w);
      d ← appendChild root (rootOf m) d;
      mret (pool ++ [m], with_document d w))
    (slice (length pool) targets) (pool, w).

Definition showOne (ele : SVGGraphicsElement num) (i : nat) (s : list M * World)
    : list M * World :=
  let '(pool, w) := s in
  match
    match pool !! i with
    | None => Throw (TypeError "Cannot read properties of undefined")
    | Some m =>
        box ← getBBox ele;
        let '(m, d) := update box m (document w) in
        mret (<[i:=m]> pool, with_document d w)
    end
  with
  | Ok s => s
  | Throw error => (pool, console_error error w)
  end.

Definition show (targets : list (SVGGraphicsElement num)) (pool : list M) (w : World)
    : list M * World :=
  forEachi showOne targets (pool, w).

Definition hideExtra (targets : list (SVGGraphicsElement num)) (pool : list M)
    (w : World) : World :=
  forEach (λ m w, with_document (hide m (document w)) w)
    (slice (length targets) pool) w.

Definition refresh (targets : list (SVGGraphicsElement num)) (pool : list M) (w : World)
    : result (list M * World) :=
  '(pool, w) ← grow targets pool w;
  let '(pool, w) := show targets pool w in
  mret (pool, hideExtra targets pool w).

(** The markers of the pool are the children of the controller's root
    group, in pool order, and no node belongs to two markers. *)
Variable nodesOf : M → list node.

Record inv (pool : list M) (d : Document) : Prop := {
  inv_wf : doc_wf d;
  inv_root : is_Some (nodes d !! root);
  inv_children : childrenOf d root = rootOf <$> pool;
  inv_nodup : NoDup (root :: mjoin (nodesOf <$> pool));
  inv_nodes : ∀ m n, m ∈ pool → n ∈ nodesOf m → is_Some (nodes d !! n)
}.
End Pool.
End Pool.

(** ** Comparing documents *)

(** What of an element places it in the tree. *)
Definition skeleton (e : Element) : option node * list node :=
  (parentNode e, childNodes e).

(** [d'] has the nodes of [d], with the same parents and children. *)
Definition same_structure (d d' : Document) : Prop :=
  nextNode d' = nextNode d ∧
  ∀ n, skeleton <$> nodes d' !! n = skeleton <$> nodes d !! n.

(** [d'] has the nodes of [d], with the same attributes and styles. *)
Definition same_attributes (d d' : Document) : Prop :=
  ∀ n, (λ e, (tagName e, attributes e, style e)) <$> nodes d' !! n
       = (λ e, (tagName e, attributes e, style e)) <$> nodes d !! n.

(** ** What a refresh pass amounts to

The pool and the writes the second and third loop of a refresh leave
behind, when every target has a marker. *)

Module PoolModel.
Section PoolModel.
  Context {num M : Type}.
  Variable rootOf : M → node.
  Variable update_state : BoxLike num → M → M.
  Variable update_writes : BoxLike num → M → list Write.
  Variable hidden : string.

Fixpoint shown (targets : list (SVGGraphicsElement num)) (pool : list M) : list M :=
  match targets, pool with
  | t :: ts, m :: ms =>
      match getBBox t with
      | Ok box => update_state box m
      | Throw _ => m
      end :: shown ts ms
  | _, _ => pool
  end.

Fixpoint show_writes (targets : list (SVGGraphicsElement num)) (pool : list M)
    : list Write :=
  match targets, pool with
  | t :: ts, m :: ms =>
      match getBBox t with
      | Ok box => update_writes box m
      | Throw _ => []
      end ++ show_writes ts ms
  | _, _ => []
  end.

Definition failures (targets : list (SVGGraphicsElement num)) : list JSError :=
  omap (λ t, match getBBox t with Throw e => Some e | Ok _ => None end) targets.

Definition hide_writes (targets : list (SVGGraphicsElement num)) (pool : list M)
    : list Write :=
  (λ m, mkWrite (rootOf m) "opacity" hidden) <$> drop (length targets) pool.
End PoolModel.
End PoolModel.

(** [d'] extends [d] by nodes allocated after those of [d]: apart from the
    child list of [root], nothing of [d] has changed. *)
Definition grown_from (root : node) (d d' : Document) : Prop :=
  nextNode d ≤ nextNode d' ∧
  (∀ n, n < nextNode d → n ≠ root → nodes d' !! n = nodes d !! n) ∧
  parentOf d' root = parentOf d root ∧
  (∀ k, getAttribute d' root k = getAttribute d root k).

(** A marker that has not been positioned or shown yet: its nodes carry
    neither path data nor an opacity. *)
Definition untouched (ns : list node) (d : Document) : Prop :=
  ∀ n, n ∈ ns → getAttribute d n "d" = None ∧ getAttribute d n "opacity" = None.

(** ** The markers as the refresh pass sees them *)

(** The nodes a marker's constructor creates, in order. *)
Fixpoint createElements (tags : list string) (d : Document) : list node * Document :=
  match tags with
  | [] => ([], d)
  | tag :: tags' =>
      let '(n, d) := createElementNS tag d in
      let '(ns, d) := createElements tags' d in
      (n :: ns, d)
  end.

Module TracePool.
Section TracePool.
  Context {num : Type} `{JSNumber num}.

Definition update (box : BoxLike num) (m : BoxTrace.t) (d : Document)
    : BoxTrace.t * Document :=
  (m, BoxTrace.setOpacity m (num_lit 1 0) (BoxTrace.trace m box d)).

Definition hide (m : BoxTrace.t) (d : Document) : Document :=
  BoxTrace.setOpacity m (num_lit 0 0) d.

Definition update_writes (box : BoxLike num) (m : BoxTrace.t) : list Write :=
  [ mkWrite (BoxTrace.lightDashing m) "d" (path_to_string (perimeterPath box));
    mkWrite (BoxTrace.darkDashing m) "d" (path_to_string (perimeterPath box));
    mkWrite (BoxTrace.domNode m) "opacity" (num_to_string (num_lit 1 0)) ].
End TracePool.
End TracePool.

Module HighlightPool.
Section HighlightPool.
  Context {num : Type} `{JSNumber num}.

Definition update (lineThickness : num) (box : BoxLike num)
    (m : BoxHighlighting.t num) (d : Document) : BoxHighlighting.t num * Document :=
  let '(m, d) := BoxHighlighting.highlight box m d in
  let '(m, d) := BoxHighlighting.set_lineThickness lineThickness m d in
  (m, BoxHighlighting.setOpacity m (num_lit 1 0) d).

Definition hide (m : BoxHighlighting.t num) (d : Document) : Document :=
  BoxHighlighting.setOpacity m (num_lit 0 0) d.

Definition update_state (lineThickness : num) (box : BoxLike num)
    (m : BoxHighlighting.t num) : BoxHighlighting.t num :=
  BoxHighlighting.with_highlightedBox (Some (Box.matching box))
    (BoxHighlighting.with_lineThickness lineThickness m).

(** The path data [highlight] writes. *)
Definition highlight_writes (box : BoxLike num) (m : BoxHighlighting.t num)
    : list Write :=
  [ mkWrite (BoxHighlighting.boxTrace m) "d" (path_to_string (perimeterPath box));
    mkWrite (BoxHighlighting.topLeftCornerBox m) "d"
      (BoxHighlighting.cornerBoxD m (mkPoint (Box.minX box) (Box.minY box)));
    mkWrite (BoxHighlighting.topRightCornerBox m) "d"
      (BoxHighlighting.cornerBoxD m (mkPoint (Box.maxX box) (Box.minY box)));
    mkWrite (BoxHighlighting.bottomRightCornerBox m) "d"
      (BoxHighlighting.cornerBoxD m (mkPoint (Box.maxX box) (Box.maxY box)));
    mkWrite (BoxHighlighting.bottomLeftCornerBox m) "d"
      (BoxHighlighting.cornerBoxD m (mkPoint (Box.minX box) (Box.maxY box))) ].

(** The stroke widths the [lineThickness] setter writes. *)
Definition thickness_writes (lineThickness : num) (m : BoxHighlighting.t num)
    : list Write :=
  (λ ele, mkWrite ele "stroke-width" (num_to_string lineThickness))
    <$> (BoxHighlighting.boxTrace m :: BoxHighlighting.cornerBoxes m).

Definition update_writes (lineThickness : num) (box : BoxLike num)
    (m : BoxHighlighting.t num) : list Write :=
  highlight_writes box m
  ++ thickness_writes lineThickness m
  ++ highlight_writes box (BoxHighlighting.with_lineThickness lineThickness m)
  ++ [ mkWrite (BoxHighlighting.domNode m) "opacity" (num_to_string (num_lit 1 0)) ].
End HighlightPool.
End HighlightPool.

(** ** Invariants of the controllers *)

Definition tracings_inv (this : LiveSVGElementTracings.t) (w : World) : Prop :=
  Pool.inv BoxTrace.domNode (LiveSVGElementTracings.domNode this) BoxTrace.nodesOf
    (LiveSVGElementTracings.boxTraces this) (document w).

Definition highlightings_inv {num} (this : LiveSVGElementHighlightings.t num)
    (w : World) : Prop :=
  Pool.inv BoxHighlighting.domNode (LiveSVGElementHighlightings.domNode this)
    BoxHighlighting.nodesOf
    (LiveSVGElementHighlightings.boxHighlightings this) (document w).

(** In a tree no node is the child of two nodes. *)
Definition single_parent (d : Document) : Prop :=
  ∀ n p1 p2, n ∈ childrenOf d p1 → n ∈ childrenOf d p2 → p1 = p2.

(** Between two states of a controller the root group is the same and the
    markers of the first are the first markers of the second, in the same
    order: no marker was dropped, replaced or moved.  (A [BoxHighlighting]
    is identified by its nodes; its line thickness and highlighted box may
    have been set in between.) *)
Definition tracings_kept (s s' : LiveSVGElementTracings.t * World) : Prop :=
  LiveSVGElementTracings.domNode s'.1 = LiveSVGElementTracings.domNode s.1 ∧
  LiveSVGElementTracings.boxTraces s.1 `prefix_of` LiveSVGElementTracings.boxTraces s'.1.

Definition highlightings_kept {num}
    (s s' : LiveSVGElementHighlightings.t num * World) : Prop :=
  LiveSVGElementHighlightings.domNode s'.1 = LiveSVGElementHighlightings.domNode s.1 ∧
  (BoxHighlighting.nodesOf <$> LiveSVGElementHighlightings.boxHighlightings s.1)
    `prefix_of`
  (BoxHighlighting.nodesOf <$> LiveSVGElementHighlightings.boxHighlightings s'.1).

(** ** A small scene for the examples

Node 0 is the parent SVG document of the targets, node 1 an overlaid
document to put the highlightings in. *)

Definition exampleWorld : World :=
  mkWorld (createElementNS "svg" (createElementNS "svg" emptyDocument).2).2 [] [] [].

Definition largeBox : BoxLike Q :=
  mkBox (num_lit (-22) 0) (num_lit 84 0) (num_lit 501 0) (num_lit 221 0).

Definition smallBox : BoxLike Q :=
  mkBox (num_lit 0 0) (num_lit 0 0) (num_lit 10 0) (num_lit 10 0).

Definition detached : SVGGraphicsElement Q :=
  mkTarget (Throw (Thrown "element is not rendered")).

Definition twoTargets : Env Q :=
  mkEnv [mkTarget (Ok largeBox); mkTarget (Ok smallBox)] (num_lit 3 0).

Definition oneTarget : Env Q :=
  mkEnv [mkTarget (Ok smallBox)] (num_lit 75 2).

Definition oneDetached : Env Q :=
  mkEnv [mkTarget (Ok largeBox); detached] (num_lit 3 0).

Definition exampleTracings : LiveSVGElementTracings.t * World :=
  LiveSVGElementTracings.new 0 exampleWorld.

Definition exampleHighlightings : LiveSVGElementHighlightings.t Q * World :=
  LiveSVGElementHighlightings.new 0 exampleWorld.

(** A [BoxHighlighting] with line thickness 4 around [smallBox]. *)
Definition highlightedSmallBox : result (BoxHighlighting.t Q * Document) :=
  '(m, d) ← BoxHighlighting.new emptyDocument;
  let '(m, d) := BoxHighlighting.set_lineThickness (num_lit 4 0) m d in
  mret (BoxHighlighting.highlight smallBox m d).

(** A [BoxTrace] around [largeBox]. *)
Definition tracedLargeBox : result (BoxTrace.t * Document) :=
  '(m, d) ← BoxTrace.new BoxTrace.lightDark emptyDocument;
  mret (m, BoxTrace.trace m largeBox d).

(** The calls a user of a controller can make, as opposed to the
    notifications of its two channels. *)
Definition isCall {num} (act : Action num) : Prop :=
  match act with
  | Notify _ _ => False
  | _ => True
  end.

(** [attach c] puts the node [n] under [c]: done twice in a row, the node
    ends under the second container only. *)
Definition moves_between_parents (attach : node → Document → result Document)
    (n : node) : Prop :=
  ∀ d c1 c2 d1 d2,
    doc_wf d → attach c1 d = Ok d1 → attach c2 d1 = Ok d2 →
    doc_wf d2 ∧
    parentOf d2 n = Some c2 ∧
    n ∈ childrenOf d2 c2 ∧
    (c1 ≠ c2 → n ∉ childrenOf d2 c1) ∧
    ∀ p, n ∈ childrenOf d2 p → p = c2.

(** The example controllers after a refresh over [twoTargets]. *)
Definition tracedTwo : LiveSVGElementTracings.t * World :=
  match LiveSVGElementTracings.refresh BoxTrace.lightDark twoTargets
          exampleTracings.1 exampleTracings.2 with
  | Ok s => s
  | Throw _ => exampleTracings
  end.

Definition highlightedTwo : LiveSVGElementHighlightings.t Q * World :=
  match LiveSVGElementHighlightings.refresh twoTargets
          exampleHighlightings.1 exampleHighlightings.2 with
  | Ok s => s
  | Throw _ => exampleHighlightings
  end.

(** ** Comparing the effect of attribute writes *)

(** What of an element no attribute write changes. *)
Definition frame (e : Element)
    : string * option node * list node * gmap string string :=
  (tagName e, parentNode e, childNodes e, style e).

(** Two sequences of writes that leave every attribute with the same
    value. *)
Definition same_effect (ws ws' : list Write) : Prop :=
  ∀ n k, last_write n k ws = last_write n k ws'.

(** Every attribute that [ws] writes is written by [ws'] as well. *)
Definition covered_by (ws ws' : list Write) : Prop :=
  ∀ w, w ∈ ws → ∃ w', w' ∈ ws' ∧ wnode w' = wnode w ∧ wkey w' = wkey w.

(** No attribute is written by both. *)
Definition apart (ws ws' : list Write) : Prop :=
  ∀ w w', w ∈ ws → w' ∈ ws' → wnode w = wnode w' → wkey w ≠ wkey w'.

(** ** What the constructors of the markers build

A new marker consists of a group and its paths, allocated one after the
other from [g] on.  Nothing but the constructor has touched them. *)

Module Built.

(** The attributes of the two dashings of a new [BoxTrace]. *)
Definition lightDashing (a : BoxTrace.Appearance) : gmap string string :=
  <["fill" := "none"]>
    (<["stroke-width" := BoxTrace.strokeWidth a]>
       (from_option (λ cap, <["stroke-linecap" := cap]>) id (BoxTrace.strokeLinecap a)
          (<["stroke-dasharray" := BoxTrace.strokeDasharray a]>
             (<["stroke" := BoxTrace.lightStroke a]> ∅)))).

Definition darkDashing (a : BoxTrace.Appearance) : gmap string string :=
  <["fill" := "none"]>
    (<["stroke-width" := BoxTrace.strokeWidth a]>
       (<["stroke-dashoffset" := BoxTrace.darkDashoffset a]>
          (from_option (λ cap, <["stroke-linecap" := cap]>) id (BoxTrace.strokeLinecap a)
             (<["stroke-dasharray" := BoxTrace.strokeDasharray a]>
                (<["stroke" := BoxTrace.darkStroke a]> ∅))))).

Definition group (children : list node) : Element :=
  mkElement "g" None children ∅ (<["pointer-events" := "none"]> ∅).

Definition path (g : node) (attributes : gmap string string) : Element :=
  mkElement "path" (Some g) [] attributes ∅.

(** The document with a new [BoxTrace] in it. *)
Definition boxTrace (a : BoxTrace.Appearance) (d : Document) : Document :=
  let g := nextNode d in
  mkDocument
    (<[g := group [1 + g; 2 + g]]>
       (<[1 + g := path g (lightDashing a)]>
          (<[2 + g := path g (darkDashing a)]> (nodes d))))
    (3 + g).

(** The attributes of the outline and of a corner box of a new
    [BoxHighlighting]. *)
Definition outline (strokeWidth : string) : gmap string string :=
  <["fill" := "none"]> (<["stroke-width" := strokeWidth]> (<["stroke" := "blue"]> ∅)).

Definition cornerBox (strokeWidth : string) : gmap string string :=
  <["fill" := "white"]> (<["stroke-width" := strokeWidth]> (<["stroke" := "blue"]> ∅)).

(** The document with a new [BoxHighlighting] in it. *)
Definition boxHighlighting (strokeWidth : string) (d : Document) : Document :=
  let g := nextNode d in
  mkDocument
    (<[g := group [1 + g; 2 + g; 3 + g; 4 + g; 5 + g]]>
       (<[1 + g := path g (outline strokeWidth)]>
          (<[2 + g := path g (cornerBox strokeWidth)]>
             (<[3 + g := path g (cornerBox strokeWidth)]>
                (<[4 + g := path g (cornerBox strokeWidth)]>
                   (<[5 + g := path g (cornerBox strokeWidth)]> (nodes d)))))))
    (6 + g).
End Built.

(** ** The fields of a box highlighting and what its nodes show

The private fields [#lineThickness] and [highlightedBox] of a
[BoxHighlighting] describe its nodes: the five paths are as thick as the
getter says, and once a box has been highlighted the outline traces that
box and the corner boxes sit at its corners, sized for the current line
thickness. *)
Definition highlighting_consistent {num} `{JSNumber num}
    (m : BoxHighlighting.t num) (d : Document) : Prop :=
  NoDup (BoxHighlighting.nodesOf m) ∧
  (∀ n, n ∈ BoxHighlighting.nodesOf m → is_Some (nodes d !! n)) ∧
  (∀ n, n ∈ BoxHighlighting.boxTrace m :: BoxHighlighting.cornerBoxes m →
     getAttribute d n "stroke-width"
     = Some (num_to_string (BoxHighlighting.lineThickness m))) ∧
  (∀ box, BoxHighlighting.highlightedBox m = Some box →
     getAttribute d (BoxHighlighting.boxTrace m) "d"
     = Some (path_to_string (perimeterPath box)) ∧
     getAttribute d (BoxHighlighting.topLeftCornerBox m) "d"
     = Some (BoxHighlighting.cornerBoxD m (mkPoint (Box.minX box) (Box.minY box))) ∧
     getAttribute d (BoxHighlighting.topRightCornerBox m) "d"
     = Some (BoxHighlighting.cornerBoxD m (mkPoint (Box.maxX box) (Box.minY box))) ∧
     getAttribute d (BoxHighlighting.bottomRightCornerBox m) "d"
     = Some (BoxHighlighting.cornerBoxD m (mkPoint (Box.maxX box) (Box.maxY box))) ∧
     getAttribute d (BoxHighlighting.bottomLeftCornerBox m) "d"
     = Some (BoxHighlighting.cornerBoxD m (mkPoint (Box.minX box) (Box.maxY box)))).

(** ** A marker that shows a box *)

Section Shown.
  Context {num : Type} `{JSNumber num}.

(** The box trace [m] is visible and outlines [box]. *)
Definition traces (m : BoxTrace.t) (box : BoxLike num) (d : Document) : Prop :=
  getAttribute d (BoxTrace.lightDashing m) "d"
  = Some (path_to_string (perimeterPath box)) ∧
  getAttribute d (BoxTrace.darkDashing m) "d"
  = Some (path_to_string (perimeterPath box)) ∧
  getAttribute d (BoxTrace.domNode m) "opacity" = Some (num_to_string (num_lit 1 0)).

(** The box highlighting [m] is visible, outlines [box] and has its corner
    boxes at the corners of [box]. *)
Definition highlights (m : BoxHighlighting.t num) (box : BoxLike num)
    (d : Document) : Prop :=
  BoxHighlighting.highlightedBox m = Some (Box.matching box) ∧
  getAttribute d (BoxHighlighting.boxTrace m) "d"
  = Some (path_to_string (perimeterPath box)) ∧
  getAttribute d (BoxHighlighting.topLeftCornerBox m) "d"
  = Some (BoxHighlighting.cornerBoxD m (mkPoint (Box.minX box) (Box.minY box))) ∧
  getAttribute d (BoxHighlighting.topRightCornerBox m) "d"
  = Some (BoxHighlighting.cornerBoxD m (mkPoint (Box.maxX box) (Box.minY box))) ∧
  getAttribute d (BoxHighlighting.bottomRightCornerBox m) "d"
  = Some (BoxHighlighting.cornerBoxD m (mkPoint (Box.maxX box) (Box.maxY box))) ∧
  getAttribute d (BoxHighlighting.bottomLeftCornerBox m) "d"
  = Some (BoxHighlighting.cornerBoxD m (mkPoint (Box.minX box) (Box.maxY box))) ∧
  getAttribute d (BoxHighlighting.domNode m) "opacity"
  = Some (num_to_string (num_lit 1 0)).
End Shown.

(** ** More of the example scene *)

(** Three targets of which the first and the last cannot be measured. *)
Definition twoDetached : Env Q :=
  mkEnv [detached; mkTarget (Ok smallBox); detached] (num_lit 3 0).

(** ** The kinds of nodes

The store records of a node what the markers and the controllers read and
write: its name, its place in the tree, its attributes and its inline
style.  It does not record which interface the node implements.
[appendChild] of the platform refuses a container that cannot have
children (a text node, a comment, a processing instruction, a document
type) and limits the children of a document node.  With an element as the
container and an element as the child, what is left of its checks is the
one that [DOM.appendChild] makes: the child must not be the container or
one of its ancestors.  Where a property says that [appendTo] returns for
a container that is already in the document, it is stated for element
containers, given the kind of each node. *)
Inductive NodeKind :=
  | ElementNode
  | AttrNode
  | TextNode
  | CDATASectionNode
  | ProcessingInstructionNode
  | CommentNode
  | DocumentNode
  | DocumentTypeNode
  | DocumentFragmentNode.

(** ** The subtree of a controller *)

(** The marker [m] is as its constructor built it: the children of its
    group are its paths, in the order of [nodesOf], and the paths have no
    children. *)
Definition built {M} (rootOf : M → node) (nodesOf : M → list node)
    (m : M) (d : Document) : Prop :=
  nodesOf m = rootOf m :: childrenOf d (rootOf m) ∧
  ∀ p, p ∈ childrenOf d (rootOf m) → childrenOf d p = [].

Definition intact {M} (rootOf : M → node) (nodesOf : M → list node)
    (pool : list M) (d : Document) : Prop :=
  ∀ m, m ∈ pool → built rootOf nodesOf m d.

(** The nodes of a controller: its root group, the groups of its markers
    and their paths. *)
Definition tracings_nodes (this : LiveSVGElementTracings.t) : list node :=
  LiveSVGElementTracings.domNode this
  :: mjoin (BoxTrace.nodesOf <$> LiveSVGElementTracings.boxTraces this).

Definition highlightings_nodes {num} (this : LiveSVGElementHighlightings.t num)
    : list node :=
  LiveSVGElementHighlightings.domNode this
  :: mjoin (BoxHighlighting.nodesOf
              <$> LiveSVGElementHighlightings.boxHighlightings this).

(** * Properties *)

(** ** The DOM store *)

Section DomFacts.
  Implicit Types (d : Document) (n m p q c : nat) (k v : string).

Lemma parentOf_skeleton d d' n :
  skeleton <$> nodes d' !! n = skeleton <$> nodes d !! n →
  parentOf d' n = parentOf d n.
Proof.
  unfold parentOf. destruct (nodes d' !! n), (nodes d !! n); simpl; intros E;
    by inversion E.
Qed.

Lemma childrenOf_skeleton d d' n :
  skeleton <$> nodes d' !! n = skeleton <$> nodes d !! n →
  childrenOf d' n = childrenOf d n.
Proof.
  unfold childrenOf. destruct (nodes d' !! n), (nodes d !! n); simpl; intros E;
    by inversion E.
Qed.

Lemma is_Some_skeleton d d' n :
  skeleton <$> nodes d' !! n = skeleton <$> nodes d !! n →
  is_Some (nodes d' !! n) ↔ is_Some (nodes d !! n).
Proof.
  destruct (nodes d' !! n), (nodes d !! n); simpl; intros E; try done;
    split; intros [? ?]; done.
Qed.

Lemma same_structure_refl d : same_structure d d.
Proof. by split. Qed.

Lemma same_structure_trans d1 d2 d3 :
  same_structure d1 d2 → same_structure d2 d3 → same_structure d1 d3.
Proof.
  intros [N1 S1] [N2 S2]. split; [congruence|].
  intros n. by rewrite S2, S1.
Qed.

Lemma same_structure_parentOf d d' n :
  same_structure d d' → parentOf d' n = parentOf d n.
Proof. intros [_ E]. by apply parentOf_skeleton. Qed.

Lemma same_structure_childrenOf d d' n :
  same_structure d d' → childrenOf d' n = childrenOf d n.
Proof. intros [_ E]. by apply childrenOf_skeleton. Qed.

Lemma same_structure_is_Some d d' n :
  same_structure d d' → is_Some (nodes d' !! n) ↔ is_Some (nodes d !! n).
Proof. intros [_ E]. by apply is_Some_skeleton. Qed.

Lemma same_structure_wf d d' : same_structure d d' → doc_wf d → doc_wf d'.
Proof.
  intros S [B P C N]. split.
  - intros n Hn. rewrite (proj1 S). apply B. by apply (same_structure_is_Some d d').
  - intros n p. rewrite !(same_structure_parentOf d d'), (same_structure_childrenOf d d') by done.
    apply P.
  - intros n p. rewrite !(same_structure_parentOf d d'), (same_structure_childrenOf d d') by done.
    apply C.
  - intros p. rewrite (same_structure_childrenOf d d') by done. apply N.
Qed.

Lemma setAttribute_same_structure n k v d : same_structure d (setAttribute n k v d).
Proof.
  split; [done|]. intros m. simpl. rewrite lookup_alter.
  case_decide; [subst|done]. by destruct (nodes d !! m).
Qed.

Lemma setStyle_same_structure n k v d : same_structure d (setStyle n k v d).
Proof.
  split; [done|]. intros m. simpl. rewrite lookup_alter.
  case_decide; [subst|done]. by destruct (nodes d !! m).
Qed.

Lemma getAttribute_setAttribute n k v d m k' :
  getAttribute (setAttribute n k v d) m k'
  = if decide (n = m ∧ k = k') then nodes d !! m ≫= λ _, Some v
    else getAttribute d m k'.
Proof.
  unfold getAttribute, setAttribute. simpl. rewrite lookup_alter.
  destruct (decide (n = m)) as [->|Hn].
  - destruct (nodes d !! m) as [e|]; simpl.
    + destruct (decide (k = k')) as [->|Hk].
      * rewrite decide_True by done. by rewrite lookup_insert_eq.
      * rewrite decide_False by tauto. by rewrite lookup_insert_ne.
    + by case_decide.
  - by rewrite decide_False by tauto.
Qed.

Lemma getAttribute_setStyle n k v d m k' :
  getAttribute (setStyle n k v d) m k' = getAttribute d m k'.
Proof.
  unfold getAttribute, setStyle. simpl. rewrite lookup_alter.
  case_decide; [subst|done]. by destruct (nodes d !! m).
Qed.

Lemma setAttribute_other n k v d m :
  n ≠ m → nodes (setAttribute n k v d) !! m = nodes d !! m.
Proof. intros. simpl. by rewrite lookup_alter_ne. Qed.
End DomFacts.

Section TreeSurgery.
  Implicit Types (d : Document) (n m p q c : nat).

Lemma remove_nextNode n d : nextNode (DOM.remove n d) = nextNode d.
Proof. unfold DOM.remove. by destruct (parentOf d n). Qed.

Lemma remove_same_attributes n d : same_attributes d (DOM.remove n d).
Proof.
  intros m. unfold DOM.remove. destruct (parentOf d n) as [p|]; [|done].
  simpl. rewrite !lookup_alter.
  repeat case_decide; subst; by destruct (nodes d !! m).
Qed.

Lemma remove_parentOf n d m :
  parentOf (DOM.remove n d) m = if decide (m = n) then None else parentOf d m.
Proof.
  unfold DOM.remove. destruct (parentOf d n) as [p|] eqn:E.
  - unfold parentOf. simpl. rewrite !lookup_alter.
    repeat case_decide; subst; try done; by destruct (nodes d !! m).
  - case_decide; by subst.
Qed.

Lemma remove_childrenOf n d q :
  childrenOf (DOM.remove n d) q
  = if decide (parentOf d n = Some q)
    then filter (λ c, c ≠ n) (childrenOf d q) else childrenOf d q.
Proof.
  unfold DOM.remove. destruct (parentOf d n) as [p|] eqn:E.
  - unfold childrenOf. simpl. rewrite !lookup_alter.
    repeat case_decide; simplify_eq; try done; by destruct (nodes d !! q).
  - by rewrite decide_False.
Qed.

Lemma remove_is_Some n d m :
  is_Some (nodes (DOM.remove n d) !! m) ↔ is_Some (nodes d !! m).
Proof.
  pose proof (remove_same_attributes n d m) as E.
  destruct (nodes (DOM.remove n d) !! m), (nodes d !! m);
    try done; split; intros [? ?]; done.
Qed.

Lemma remove_no_parent n d : parentOf d n = None → DOM.remove n d = d.
Proof. unfold DOM.remove. by intros ->. Qed.

Lemma elem_of_filter_ne (l : list nat) n m :
  m ∈ filter (λ c, c ≠ n) l ↔ m ≠ n ∧ m ∈ l.
Proof. by rewrite list_elem_of_filter. Qed.

Lemma filter_ne_id (l : list nat) n : n ∉ l → filter (λ c, c ≠ n) l = l.
Proof.
  induction l as [|a l IH]; [done|]. intros Hn.
  rewrite not_elem_of_cons in Hn. destruct Hn as [Hne Hl].
  rewrite filter_cons_True by done. by rewrite IH.
Qed.

Lemma remove_wf n d : doc_wf d → doc_wf (DOM.remove n d).
Proof.
  intros [B P C N]. split.
  - intros m Hm. rewrite remove_nextNode. apply B. by apply remove_is_Some in Hm.
  - intros m p. rewrite remove_parentOf, remove_childrenOf.
    case_decide; [done|]. intros Hp. case_decide.
    + apply elem_of_filter_ne. auto.
    + auto.
  - intros m p. rewrite remove_parentOf, remove_childrenOf.
    destruct (decide (parentOf d n = Some p)) as [E|E].
    + rewrite elem_of_filter_ne. intros [Hne Hm]. rewrite decide_False by done. auto.
    + intros Hm. case_decide; [subst|auto]. apply C in Hm. done.
  - intros p. rewrite remove_childrenOf. case_decide; [|done].
    by apply NoDup_filter.
Qed.

(** What a successful [appendChild] does. *)
Lemma appendChild_Ok c n d d' :
  appendChild c n d = Ok d' →
  is_Some (nodes d !! c) ∧ is_Some (nodes d !! n) ∧ c ≠ n ∧
  nextNode d' = nextNode d ∧
  same_attributes d d' ∧
  (∀ m, parentOf d' m = if decide (m = n) then Some c else parentOf d m) ∧
  (∀ q, childrenOf d' q
        = (if decide (parentOf d n = Some q)
           then filter (λ c, c ≠ n) (childrenOf d q) else childrenOf d q)
          ++ (if decide (q = c) then [n] else [])).
Proof.
  unfold appendChild.
  destruct (nodes d !! c) as [ec|] eqn:Ec; [|done].
  destruct (nodes d !! n) as [en|] eqn:En; [|done].
  destruct (inclusive_ancestor _ _ _ _) eqn:A; [done|].
  intros [= <-].
  assert (c ≠ n) as Hne.
  { intros ->. destruct (size (nodes d)); simpl in A; by rewrite decide_True in A. }
  split_and!; try done.
  - simpl. apply remove_nextNode.
  - intros m. pose proof (remove_same_attributes n d m) as R. simpl in *.
    rewrite !lookup_alter. rewrite <- R.
    repeat case_decide; simplify_eq;
      by match goal with |- context [nodes ?d0 !! ?i] => destruct (nodes d0 !! i) end.
  - intros m. pose proof (remove_parentOf n d m) as R.
    pose proof (proj2 (remove_is_Some n d n) (mk_is_Some _ _ En)) as [en' En'].
    unfold parentOf in *. simpl. rewrite lookup_alter.
    destruct (decide (c = m)) as [->|Hcm].
    + rewrite lookup_alter_ne by done. rewrite decide_False in * by done.
      rewrite <- R. by destruct (nodes (DOM.remove n d) !! m).
    + rewrite lookup_alter. destruct (decide (n = m)) as [->|Hnm].
      * rewrite decide_True by done. by rewrite En'.
      * rewrite decide_False in * by done. done.
  - intros q. pose proof (remove_childrenOf n d q) as R.
    pose proof (proj2 (remove_is_Some n d c) (mk_is_Some _ _ Ec)) as [ec' Ec'].
    unfold childrenOf in *. simpl. rewrite !lookup_alter.
    destruct (decide (c = q)) as [->|Hq].
    + rewrite (decide_True (P := q = q)) by done.
      rewrite (decide_False (P := n = q)) by done.
      rewrite Ec' in *. simpl in *. by rewrite R.
    + rewrite (decide_False (P := q = c)) by done. rewrite app_nil_r.
      destruct (decide (n = q)) as [->|Hq']; [|done].
      rewrite <- R. by destruct (nodes (DOM.remove q d) !! q).
Qed.

Lemma appendChild_is_Some c n d d' m :
  appendChild c n d = Ok d' → is_Some (nodes d' !! m) ↔ is_Some (nodes d !! m).
Proof.
  intros (_ & _ & _ & _ & A & _)%appendChild_Ok. specialize (A m).
  destruct (nodes d' !! m), (nodes d !! m);
    try done; split; intros [? ?]; done.
Qed.

Lemma appendChild_wf c n d d' : appendChild c n d = Ok d' → doc_wf d → doc_wf d'.
Proof.
  intros Happ [B P C N].
  pose proof (λ m, appendChild_is_Some _ _ _ _ m Happ) as Hex.
  apply appendChild_Ok in Happ as (Hc & Hn & Hne & HN & _ & HP & HC).
  split.
  - intros m Hm. rewrite HN. apply B. by apply (Hex m).
  - intros m p. rewrite HP, HC. case_decide as Hm.
    + intros [= <-]. rewrite (decide_True (P := c = c)) by done.
      apply elem_of_app. right. by apply list_elem_of_singleton.
    + intros Hp. apply elem_of_app. left. case_decide.
      * apply elem_of_filter_ne. auto.
      * auto.
  - intros m p. rewrite HP, HC. rewrite elem_of_app.
    intros [Hm|Hm].
    + destruct (decide (parentOf d n = Some p)) as [E|E].
      * apply elem_of_filter_ne in Hm as [Hmn Hm]. rewrite decide_False by done. auto.
      * case_decide; [subst|auto]. apply C in Hm. done.
    + destruct (decide (p = c)) as [->|?]; [|by apply elem_of_nil in Hm].
      apply list_elem_of_singleton in Hm. subst m. by rewrite decide_True.
  - intros p. rewrite HC. apply NoDup_app. split_and!.
    + case_decide; [|done]. by apply NoDup_filter.
    + intros m Hm. destruct (decide (p = c)) as [->|?]; [|apply not_elem_of_nil].
      rewrite list_elem_of_singleton. intros ->.
      destruct (decide (parentOf d n = Some c)) as [E|E].
      * apply elem_of_filter_ne in Hm. tauto.
      * apply C in Hm. done.
    + case_decide; [apply NoDup_singleton|apply NoDup_nil_2].
Qed.

Lemma createElementNS_wf tag d :
  doc_wf d → doc_wf (createElementNS tag d).2.
Proof.
  intros [B P C N].
  assert (nodes d !! nextNode d = None) as Hfresh.
  { destruct (nodes d !! nextNode d) eqn:E; [|done].
    pose proof (B (nextNode d) (mk_is_Some _ _ E)). lia. }
  assert (∀ m, parentOf (createElementNS tag d).2 m = parentOf d m) as HP.
  { intros m. unfold parentOf. simpl. rewrite lookup_insert.
    case_decide; [subst|done]. by rewrite Hfresh. }
  assert (∀ m, childrenOf (createElementNS tag d).2 m = childrenOf d m) as HC.
  { intros m. unfold childrenOf. simpl. rewrite lookup_insert.
    case_decide; [subst|done]. by rewrite Hfresh. }
  split.
  - intros m. simpl. rewrite lookup_insert. case_decide; [subst; lia|].
    intros Hm. apply B in Hm. lia.
  - intros m p. rewrite HP, HC. apply P.
  - intros m p. rewrite HP, HC. apply C.
  - intros p. rewrite HC. apply N.
Qed.

Lemma emptyDocument_wf : doc_wf emptyDocument.
Proof.
  split; unfold parentOf, childrenOf, emptyDocument; simpl.
  - intros n [e He]. by apply lookup_empty_Some in He.
  - intros n p. by rewrite lookup_empty.
  - intros n p. rewrite lookup_empty. simpl. by intros ?%elem_of_nil.
  - intros p. rewrite lookup_empty. apply NoDup_nil_2.
Qed.
End TreeSurgery.

Section FreshNodes.
  Implicit Types (d : Document) (n m p q c b : nat).

Lemma ancestor_parentless fuel d a n :
  a ≠ n → parentOf d n = None → inclusive_ancestor fuel d a n = false.
Proof.
  intros Hne Hp. destruct fuel; simpl; rewrite decide_False by done; [done|].
  by rewrite Hp.
Qed.

(** A node allocated at or after [b] is no ancestor of a node below [b]
    when the parent pointers of the nodes below [b] stay below [b]. *)
Lemma ancestor_bound fuel d a n b :
  (∀ m p, m < b → parentOf d m = Some p → p < b) →
  n < b → b ≤ a → inclusive_ancestor fuel d a n = false.
Proof.
  intros Hb. revert n. induction fuel as [|fuel IH]; intros n Hn Ha; simpl;
    rewrite decide_False by lia; [done|].
  destruct (parentOf d n) as [p|] eqn:E; [|done].
  apply IH; [|done]. by apply (Hb n).
Qed.

Lemma appendChild_unchecked c n d :
  is_Some (nodes d !! c) → is_Some (nodes d !! n) →
  inclusive_ancestor (size (nodes d)) d n c = false →
  is_Ok (appendChild c n d).
Proof.
  intros [ec Ec] [en En] A. unfold appendChild. rewrite Ec, En, A. by eexists.
Qed.

Lemma appendChild_other c n d d' m :
  appendChild c n d = Ok d' →
  m ≠ c → m ≠ n → parentOf d n ≠ Some m →
  nodes d' !! m = nodes d !! m.
Proof.
  unfold appendChild.
  destruct (nodes d !! c) as [ec|] eqn:Ec; [|done].
  destruct (nodes d !! n) as [en|] eqn:En; [|done].
  destruct (inclusive_ancestor _ _ _ _) eqn:A; [done|].
  intros [= <-] Hc Hn Hp. simpl.
  rewrite !lookup_alter_ne by done.
  unfold DOM.remove. destruct (parentOf d n) as [p|]; [|done].
  simpl. rewrite !lookup_alter_ne by congruence. done.
Qed.

Lemma createElementNS_other tag d m :
  m ≠ nextNode d → nodes (createElementNS tag d).2 !! m = nodes d !! m.
Proof. intros. simpl. by rewrite lookup_insert_ne. Qed.

Lemma createElementNS_new tag d :
  nodes (createElementNS tag d).2 !! nextNode d = Some (mkElement tag None [] ∅ ∅).
Proof. simpl. by rewrite lookup_insert_eq. Qed.

Lemma same_attributes_refl d : same_attributes d d.
Proof. by intros n. Qed.

Lemma same_attributes_trans d1 d2 d3 :
  same_attributes d1 d2 → same_attributes d2 d3 → same_attributes d1 d3.
Proof. intros S1 S2 n. by rewrite S2, S1. Qed.

Lemma same_attributes_getAttribute d d' n k :
  same_attributes d d' → getAttribute d' n k = getAttribute d n k.
Proof.
  intros S. specialize (S n). unfold getAttribute.
  destruct (nodes d' !! n), (nodes d !! n); simpl in *; try done.
  inversion S. congruence.
Qed.

Lemma same_attributes_is_Some d d' n :
  same_attributes d d' → is_Some (nodes d' !! n) ↔ is_Some (nodes d !! n).
Proof.
  intros S. specialize (S n).
  destruct (nodes d' !! n), (nodes d !! n);
    try done; split; intros [? ?]; done.
Qed.

(** Appending parentless nodes to a parentless node succeeds, and touches
    these nodes only. *)
Lemma append_parentless c ns d :
  is_Some (nodes d !! c) → parentOf d c = None →
  c ∉ ns → NoDup ns →
  (∀ n, n ∈ ns → is_Some (nodes d !! n) ∧ parentOf d n = None) →
  ∃ d', append c ns d = Ok d' ∧
    nextNode d' = nextNode d ∧
    (doc_wf d → doc_wf d') ∧
    same_attributes d d' ∧
    parentOf d' c = None ∧
    childrenOf d' c = childrenOf d c ++ ns ∧
    (∀ n, n ∈ ns → parentOf d' n = Some c) ∧
    (∀ m, m ≠ c → m ∉ ns → nodes d' !! m = nodes d !! m).
Proof.
  revert d. induction ns as [|n ns IH]; intros d Hc Hpc Hcn Hnd Hns.
  - exists d. simpl. split_and!; try done.
    + by rewrite app_nil_r.
    + intros n Hn. by apply elem_of_nil in Hn.
  - apply not_elem_of_cons in Hcn as [Hcn Hcns].
    apply NoDup_cons in Hnd as [Hn Hnd].
    destruct (Hns n) as [Hen Hpn]; [by left|].
    destruct (appendChild_unchecked c n d) as [d1 Hd1]; [done..| |].
    { by apply ancestor_parentless. }
    pose proof (λ m, appendChild_is_Some _ _ _ _ m Hd1) as Hex.
    pose proof (appendChild_wf _ _ _ _ Hd1) as Hwf.
    pose proof (λ m, appendChild_other _ _ _ _ m Hd1) as Hoth.
    apply appendChild_Ok in Hd1 as Hd1'.
    destruct Hd1' as (_ & _ & _ & HN & HA & HP & HC).
    destruct (IH d1) as (d' & Happ & HN' & Hwf' & HA' & HP' & HC' & HPs & Hoth'); try done.
    + by apply Hex.
    + rewrite HP. by rewrite decide_False.
    + intros n' Hn'. destruct (Hns n') as [? ?]; [by right|].
      split; [by apply Hex|]. rewrite HP. rewrite decide_False; [done|].
      intros ->. done.
    + exists d'. simpl. rewrite Hd1. simpl. split_and!; try done.
      * congruence.
      * auto.
      * by eapply same_attributes_trans.
      * rewrite HC', HC. rewrite Hpn. rewrite decide_False by done.
        rewrite decide_True by done. by rewrite <- app_assoc.
      * intros n' [->|Hn']%elem_of_cons; [|by apply HPs].
        transitivity (parentOf d1 n).
        { unfold parentOf. by rewrite Hoth'. }
        rewrite HP. by rewrite decide_True.
      * intros m Hm [Hmn Hmns]%not_elem_of_cons.
        rewrite Hoth' by done. apply Hoth; try done. by rewrite Hpn.
Qed.
End FreshNodes.

(** ** Attribute writes *)

Section Writes.
  Implicit Types (d : Document) (n : nat) (k v : string) (w : Write) (ws : list Write).

Lemma apply_writes_cons w ws d :
  apply_writes (w :: ws) d = apply_writes ws (setAttribute (wnode w) (wkey w) (wvalue w) d).
Proof. done. Qed.

Lemma apply_writes_app ws1 ws2 d :
  apply_writes (ws1 ++ ws2) d = apply_writes ws2 (apply_writes ws1 d).
Proof. unfold apply_writes, forEach. apply foldl_app. Qed.

Lemma apply_writes_same_structure ws d : same_structure d (apply_writes ws d).
Proof.
  revert d. induction ws as [|w ws IH]; intros d; [apply same_structure_refl|].
  rewrite apply_writes_cons. eapply same_structure_trans; [|apply IH].
  apply setAttribute_same_structure.
Qed.

Lemma apply_writes_wf ws d : doc_wf d → doc_wf (apply_writes ws d).
Proof. apply same_structure_wf, apply_writes_same_structure. Qed.

Lemma apply_writes_is_Some ws d n :
  is_Some (nodes (apply_writes ws d) !! n) ↔ is_Some (nodes d !! n).
Proof. apply same_structure_is_Some, apply_writes_same_structure. Qed.

Lemma apply_writes_other ws d n :
  (∀ w, w ∈ ws → wnode w ≠ n) →
  nodes (apply_writes ws d) !! n = nodes d !! n.
Proof.
  revert d. induction ws as [|w ws IH]; intros d Hws; [done|].
  rewrite apply_writes_cons, IH.
  - apply setAttribute_other, Hws. by left.
  - intros w' Hw'. apply Hws. by right.
Qed.

Lemma last_write_app n k ws1 ws2 :
  last_write n k (ws1 ++ ws2)
  = match last_write n k ws2 with
    | Some v => Some v
    | None => last_write n k ws1
    end.
Proof.
  induction ws1 as [|w ws1 IH]; simpl.
  - by destruct (last_write n k ws2).
  - rewrite IH. by destruct (last_write n k ws2).
Qed.

Lemma last_write_other n k ws :
  (∀ w, w ∈ ws → wnode w ≠ n) → last_write n k ws = None.
Proof.
  induction ws as [|w ws IH]; intros Hws; [done|]. simpl.
  rewrite IH by (intros w' Hw'; apply Hws; by right).
  rewrite decide_False; [done|]. intros [Hn _]. by apply (Hws w); [left|].
Qed.

(** An attribute ends with the value of the last write to it. *)
Lemma getAttribute_apply_writes ws d n k :
  getAttribute (apply_writes ws d) n k
  = match last_write n k ws with
    | Some v => nodes d !! n ≫= λ _, Some v
    | None => getAttribute d n k
    end.
Proof.
  revert d. induction ws as [|w ws IH]; intros d; [done|].
  rewrite apply_writes_cons, IH. simpl.
  destruct (last_write n k ws) as [v|].
  - rewrite lookup_alter. case_decide; [subst|done].
    by destruct (nodes d !! wnode w).
  - rewrite getAttribute_setAttribute. by case_decide.
Qed.
End Writes.

(** ** The refresh pass, for any marker class *)

Section PoolFacts.
  Context {num M : Type}.
  Variable create : Document → result (M * Document).
  Variable rootOf : M → nat.
  Variable update : BoxLike num → M → Document → M * Document.
  Variable hide : M → Document → Document.
  Variable root : nat.
  Variable nodesOf : M → list nat.
  Variable update_state : BoxLike num → M → M.
  Variable update_writes : BoxLike num → M → list Write.
  Variable hidden : string.

Hypothesis create_spec : ∀ d, doc_wf d →
  ∃ m d', create d = Ok (m, d') ∧ doc_wf d' ∧
    nextNode d ≤ nextNode d' ∧
    (∀ n, n < nextNode d → nodes d' !! n = nodes d !! n) ∧
    (∀ n, n ∈ nodesOf m → nextNode d ≤ n ∧ is_Some (nodes d' !! n)) ∧
    NoDup (nodesOf m) ∧
    parentOf d' (rootOf m) = None ∧
    untouched (nodesOf m) d'.
Hypothesis rootOf_nodesOf : ∀ m, rootOf m ∈ nodesOf m.
Hypothesis update_spec : ∀ box m d,
  update box m d = (update_state box m, apply_writes (update_writes box m) d).
Hypothesis update_nodesOf : ∀ box m, nodesOf (update_state box m) = nodesOf m.
Hypothesis update_rootOf : ∀ box m, rootOf (update_state box m) = rootOf m.
Hypothesis update_local : ∀ box m w, w ∈ update_writes box m → wnode w ∈ nodesOf m.
Hypothesis hide_spec : ∀ m d,
  hide m d = apply_writes [mkWrite (rootOf m) "opacity" hidden] d.

Local Abbreviation inv := (Pool.inv rootOf root nodesOf).
Local Abbreviation grow := (Pool.grow (num:=num) create rootOf root).
Local Abbreviation show := (Pool.show update).
Local Abbreviation hideExtra := (Pool.hideExtra (num:=num) hide).
Local Abbreviation refresh := (Pool.refresh create rootOf update hide root).
Local Abbreviation shown := (PoolModel.shown update_state).
Local Abbreviation show_writes := (PoolModel.show_writes update_writes).
Local Abbreviation hide_writes := (PoolModel.hide_writes (num:=num) rootOf hidden).

Lemma inv_below pool d m n :
  inv pool d → m ∈ pool → n ∈ nodesOf m → n < nextNode d.
Proof. intros I Hm Hn. apply (wf_bound d (Pool.inv_wf _ _ _ _ _ I)). by eapply Pool.inv_nodes. Qed.

Lemma inv_root_below pool d : inv pool d → root < nextNode d.
Proof. intros I. apply (wf_bound d (Pool.inv_wf _ _ _ _ _ I)). by eapply Pool.inv_root. Qed.

Lemma wf_parent_below d n p :
  doc_wf d → parentOf d n = Some p → p < nextNode d.
Proof.
  intros W Hp. apply (wf_bound d W). apply (wf_parent d W) in Hp.
  unfold childrenOf in Hp. destruct (nodes d !! p); [done|]. by apply elem_of_nil in Hp.
Qed.

Lemma grown_from_refl d : grown_from root d d.
Proof. by split_and!. Qed.

Lemma grown_from_trans d1 d2 d3 :
  grown_from root d1 d2 → grown_from root d2 d3 → grown_from root d1 d3.
Proof.
  intros (N1 & F1 & P1 & A1) (N2 & F2 & P2 & A2). split_and!.
  - lia.
  - intros n Hn Hr. rewrite F2 by (done || lia). by apply F1.
  - congruence.
  - intros k. by rewrite A2.
Qed.

(** One more marker: created, and attached to the root group. *)
Lemma grow_one pool d :
  inv pool d →
  ∃ m d1 d', create d = Ok (m, d1) ∧ appendChild root (rootOf m) d1 = Ok d' ∧
    inv (pool ++ [m]) d' ∧ grown_from root d d' ∧
    (∀ n, n ∈ nodesOf m → nextNode d ≤ n) ∧
    untouched (nodesOf m) d'.
Proof.
  intros I. pose proof (Pool.inv_wf _ _ _ _ _ I) as W.
  destruct (create_spec d W) as (m & d1 & Hc & W1 & HN & HF & Hnew & Hnd & Hp & Hu).
  pose proof (inv_root_below _ _ I) as Hroot.
  destruct (Hnew _ (rootOf_nodesOf m)) as [Hge Hex].
  assert (is_Ok (appendChild root (rootOf m) d1)) as [d' Hd'].
  { apply appendChild_unchecked; [|done|].
    - rewrite HF by done. by eapply Pool.inv_root.
    - apply (ancestor_bound _ _ _ _ (nextNode d)); [|done..].
      intros n p Hn. unfold parentOf. rewrite HF by done.
      by apply wf_parent_below. }
  exists m, d1, d'. split_and!; try done.
  - pose proof (λ n, appendChild_is_Some _ _ _ _ n Hd') as Hex'.
    pose proof (appendChild_wf _ _ _ _ Hd' W1) as W'.
    apply appendChild_Ok in Hd' as (_ & _ & _ & _ & _ & _ & HC).
    split.
    + done.
    + apply Hex'. rewrite HF by done. by eapply Pool.inv_root.
    + rewrite HC, Hp. rewrite decide_False by done. rewrite decide_True by done.
      rewrite fmap_app. simpl. f_equal.
      unfold childrenOf. rewrite HF by done. apply (Pool.inv_children _ _ _ _ _ I).
    + rewrite fmap_app, join_app. simpl. rewrite app_nil_r.
      pose proof (Pool.inv_nodup _ _ _ _ _ I) as ND.
      apply NoDup_cons in ND as [Hr ND]. apply NoDup_cons. split.
      * rewrite elem_of_app. intros [?|Hin]; [done|].
        apply Hnew in Hin. lia.
      * apply NoDup_app. split_and!; [done| |done].
        intros n Hn Hn'. apply Hnew in Hn' as [? _].
        apply list_elem_of_join in Hn as (ns & Hn & Hns).
        apply list_elem_of_fmap in Hns as (m' & -> & Hm').
        pose proof (inv_below _ _ _ _ I Hm' Hn). lia.
    + intros m' n [Hm'|Hm']%elem_of_app Hn; apply Hex'.
      * rewrite HF by (by eapply inv_below). by eapply Pool.inv_nodes.
      * apply list_elem_of_singleton in Hm'. subst m'. by apply Hnew.
  - pose proof (λ n, appendChild_other _ _ _ _ n Hd') as Hoth.
    apply appendChild_Ok in Hd' as (_ & _ & _ & HN' & HA & HP & _).
    split_and!.
    + lia.
    + intros n Hn Hr. rewrite Hoth; [by apply HF|done|lia|by rewrite Hp].
    + rewrite HP. rewrite decide_False by lia. unfold parentOf. by rewrite HF.
    + intros k. rewrite (same_attributes_getAttribute d1 d') by done.
      unfold getAttribute. by rewrite HF.
  - intros n Hn. by apply Hnew.
  - apply appendChild_Ok in Hd' as (_ & _ & _ & _ & HA & _).
    intros n Hn. rewrite !(same_attributes_getAttribute d1 d') by done. by apply Hu.
Qed.

Lemma grown_from_untouched pool d d' m :
  inv pool d → m ∈ pool → grown_from root d d' →
  untouched (nodesOf m) d → untouched (nodesOf m) d'.
Proof.
  intros I Hm (_ & F & _) U n Hn. unfold getAttribute. rewrite F.
  - by apply U.
  - by eapply inv_below.
  - intros ->. pose proof (Pool.inv_nodup _ _ _ _ _ I) as [Hr _]%NoDup_cons.
    apply Hr, list_elem_of_join. exists (nodesOf m). split; [done|].
    apply list_elem_of_fmap. by exists m.
Qed.

(** The first loop: one new marker for each element of [l]. *)
Lemma grow_steps (l : list (SVGGraphicsElement num)) pool w :
  inv pool (document w) →
  ∃ news w',
    forEachM (λ _ '(pool, w),
        '(m, d) ← create (document w);
        d ← appendChild root (rootOf m) d;
        mret (pool ++ [m], with_document d w)) l (pool, w)
    = Ok (pool ++ news, w') ∧
    length news = length l ∧
    inv (pool ++ news) (document w') ∧
    grown_from root (document w) (document w') ∧
    console w' = console w ∧
    changeListeners w' = changeListeners w ∧
    observations w' = observations w ∧
    (∀ m, m ∈ news →
       (∀ n, n ∈ nodesOf m → nextNode (document w) ≤ n) ∧
       untouched (nodesOf m) (document w')).
Proof.
  revert pool w. induction l as [|t l IH]; intros pool w I.
  - exists [], w. rewrite app_nil_r.
    split_and!; first [done | apply grown_from_refl | by intros m ?%elem_of_nil].
  - destruct (grow_one pool (document w) I) as (m & d1 & d' & Hc & Ha & I' & G & Hnew & U).
    destruct (IH (pool ++ [m]) (with_document d' w) I')
      as (news & w' & Hrun & Hlen & I'' & G' & Hcon & Hlis & Hobs & Hnews).
    exists (m :: news), w'. cbn [forEachM]. cbn beta iota. rewrite Hc. cbn.
    rewrite Ha. cbn. rewrite Hrun.
    replace (pool ++ m :: news) with ((pool ++ [m]) ++ news)
      by (by rewrite <- app_assoc).
    split_and!; try done.
    + simpl. by rewrite Hlen.
    + by eapply grown_from_trans.
    + intros m' [->|Hm']%elem_of_cons.
      * split; [done|].
        apply (grown_from_untouched (pool ++ [m]) d'); try done.
        apply elem_of_app. right. by apply list_elem_of_singleton.
      * destruct (Hnews m' Hm') as [Hge Hu]. split; [|done].
        intros n Hn. apply Hge in Hn. simpl in Hn. destruct G as [? _]. lia.
Qed.

Lemma grow_spec targets pool w :
  inv pool (document w) →
  ∃ news w',
    grow targets pool w = Ok (pool ++ news, w') ∧
    length (pool ++ news) = length pool `max` length targets ∧
    inv (pool ++ news) (document w') ∧
    grown_from root (document w) (document w') ∧
    console w' = console w ∧
    changeListeners w' = changeListeners w ∧
    observations w' = observations w ∧
    (∀ m, m ∈ news →
       (∀ n, n ∈ nodesOf m → nextNode (document w) ≤ n) ∧
       untouched (nodesOf m) (document w')).
Proof.
  intros I.
  destruct (grow_steps (slice (length pool) targets) pool w I)
    as (news & w' & Hrun & Hlen & ?).
  exists news, w'. split_and!; try tauto.
  rewrite length_app, Hlen. unfold slice. rewrite length_drop. lia.
Qed.

Lemma failures_cons (t : SVGGraphicsElement num) ts :
  PoolModel.failures (t :: ts)
  = match getBBox t with
    | Ok _ => PoolModel.failures ts
    | Throw e => e :: PoolModel.failures ts
    end.
Proof. unfold PoolModel.failures. simpl. by destruct (getBBox t). Qed.

(** The second loop, when every target has a marker. *)
Lemma show_from pre targets pool w :
  length targets ≤ length pool →
  forEachi_from (length pre) (Pool.showOne update) targets (pre ++ pool, w)
  = (pre ++ shown targets pool,
     mkWorld (apply_writes (show_writes targets pool) (document w))
             (console w ++ PoolModel.failures targets)
             (changeListeners w) (observations w)).
Proof.
  revert pre pool w. induction targets as [|t ts IH]; intros pre pool w Hlen.
  - cbn. rewrite !app_nil_r. by destruct pool, w.
  - destruct pool as [|m ms]; [simpl in Hlen; lia|].
    simpl in Hlen. cbn [forEachi_from]. unfold Pool.showOne at 2.
    rewrite list_lookup_middle by done.
    rewrite failures_cons. cbn [PoolModel.shown PoolModel.show_writes].
    destruct (getBBox t) as [box|e]; cbn.
    + rewrite update_spec. cbn.
      replace (<[length pre:=update_state box m]> (pre ++ m :: ms))
        with ((pre ++ [update_state box m]) ++ ms).
      2:{ rewrite <- app_assoc. simpl.
          rewrite insert_app_r_alt by done. by rewrite Nat.sub_diag. }
      replace (S (length pre)) with (length (pre ++ [update_state box m]))
        by (rewrite length_app; simpl; lia).
      rewrite IH by lia. rewrite <- app_assoc. simpl.
      by rewrite apply_writes_app.
    + replace (pre ++ m :: ms) with ((pre ++ [m]) ++ ms)
        by (by rewrite <- app_assoc).
      replace (S (length pre)) with (length (pre ++ [m]))
        by (rewrite length_app; simpl; lia).
      rewrite IH by lia. cbn. rewrite <- !app_assoc. done.
Qed.

Lemma show_spec targets pool w :
  length targets ≤ length pool →
  show targets pool w
  = (shown targets pool,
     mkWorld (apply_writes (show_writes targets pool) (document w))
             (console w ++ PoolModel.failures targets)
             (changeListeners w) (observations w)).
Proof. intros Hlen. apply (show_from [] targets pool w Hlen). Qed.

(** The third loop. *)
Lemma hideExtra_spec targets pool w :
  hideExtra targets pool w
  = with_document (apply_writes (hide_writes targets pool) (document w)) w.
Proof.
  unfold Pool.hideExtra, PoolModel.hide_writes, slice.
  generalize (drop (length targets) pool). intros l. revert w.
  induction l as [|m l IH]; intros w.
  - by destruct w.
  - cbn [forEach foldl fmap list_fmap]. unfold forEach in IH. rewrite IH.
    rewrite hide_spec. by destruct w.
Qed.

Lemma shown_length targets pool : length (shown targets pool) = length pool.
Proof.
  revert pool. induction targets as [|t ts IH]; intros [|m ms]; simpl; try done.
  by rewrite IH.
Qed.

Lemma shown_nodesOf targets pool : nodesOf <$> shown targets pool = nodesOf <$> pool.
Proof.
  revert pool. induction targets as [|t ts IH]; intros [|m ms]; simpl; try done.
  rewrite IH. by destruct (getBBox t); rewrite ?update_nodesOf.
Qed.

Lemma shown_rootOf targets pool : rootOf <$> shown targets pool = rootOf <$> pool.
Proof.
  revert pool. induction targets as [|t ts IH]; intros [|m ms]; simpl; try done.
  rewrite IH. by destruct (getBBox t); rewrite ?update_rootOf.
Qed.

Lemma shown_lookup targets pool i m :
  pool !! i = Some m →
  shown targets pool !! i
  = Some match targets !! i with
         | Some t => match getBBox t with
                     | Ok box => update_state box m
                     | Throw _ => m
                     end
         | None => m
         end.
Proof.
  revert pool i. induction targets as [|t ts IH]; intros [|m0 ms] i Hi; try done.
  destruct i as [|i]; simpl in *.
  - by simplify_eq.
  - by apply IH.
Qed.

Lemma hide_writes_roots (targets : list (SVGGraphicsElement num)) pool :
  hide_writes targets pool
  = (λ r, mkWrite r "opacity" hidden) <$> drop (length targets) (rootOf <$> pool).
Proof.
  unfold PoolModel.hide_writes. rewrite <- fmap_drop.
  by rewrite <- list_fmap_compose.
Qed.

Lemma hide_writes_shown targets ts pool :
  hide_writes targets (shown ts pool) = hide_writes targets pool.
Proof. by rewrite !hide_writes_roots, shown_rootOf. Qed.

Lemma inv_same_structure pool pool' d d' :
  nodesOf <$> pool' = nodesOf <$> pool →
  rootOf <$> pool' = rootOf <$> pool →
  same_structure d d' →
  inv pool d → inv pool' d'.
Proof.
  intros Hn Hr S [W R C ND N]. split.
  - by eapply same_structure_wf.
  - by apply (same_structure_is_Some d d').
  - by rewrite (same_structure_childrenOf d d'), Hr.
  - by rewrite Hn.
  - intros m n Hm Hin. apply (same_structure_is_Some d d'); [done|].
    assert (nodesOf m ∈ nodesOf <$> pool) as Hm'.
    { rewrite <- Hn. apply list_elem_of_fmap. by exists m. }
    apply list_elem_of_fmap in Hm' as (m0 & E & Hm0).
    apply (N m0 n); [done|]. by rewrite <- E.
Qed.

(** The whole pass. *)
Lemma refresh_spec targets pool w :
  inv pool (document w) →
  ∃ news dg,
    refresh targets pool w
    = Ok (shown targets (pool ++ news),
          mkWorld
            (apply_writes (show_writes targets (pool ++ news)
                           ++ hide_writes targets (pool ++ news)) dg)
            (console w ++ PoolModel.failures targets)
            (changeListeners w) (observations w)) ∧
    length (pool ++ news) = length pool `max` length targets ∧
    inv (pool ++ news) dg ∧
    grown_from root (document w) dg ∧
    (∀ m, m ∈ news →
       (∀ n, n ∈ nodesOf m → nextNode (document w) ≤ n) ∧
       untouched (nodesOf m) dg).
Proof.
  intros I.
  destruct (grow_spec targets pool w I)
    as (news & wg & Hg & Hlen & Ig & G & Hcon & Hlis & Hobs & Hnews).
  exists news, (document wg). split_and!; try done.
  unfold Pool.refresh. rewrite Hg. cbn.
  rewrite show_spec by lia. rewrite hideExtra_spec. cbn.
  rewrite hide_writes_shown, apply_writes_app. by rewrite Hcon, Hlis, Hobs.
Qed.

Lemma refresh_inv targets pool w pool' w' :
  inv pool (document w) →
  refresh targets pool w = Ok (pool', w') →
  inv pool' (document w').
Proof.
  intros I Hr. destruct (refresh_spec targets pool w I) as (news & dg & E & _ & Ig & _).
  rewrite E in Hr. injection Hr as <- <-. simpl.
  eapply inv_same_structure; [apply shown_nodesOf|apply shown_rootOf| |done].
  apply apply_writes_same_structure.
Qed.

(** *** Which write reaches which node *)

Lemma NoDup_join_lookup (ls : list (list nat)) i j a b x :
  NoDup (mjoin ls) → ls !! i = Some a → ls !! j = Some b →
  x ∈ a → x ∈ b → i = j.
Proof.
  revert i j. induction ls as [|l ls IH]; intros i j ND Hi Hj Ha Hb; [done|].
  simpl in ND. apply NoDup_app in ND as (_ & Hdis & ND).
  destruct i as [|i], j as [|j]; simpl in *; simplify_eq; try done.
  - exfalso. apply (Hdis x Ha). apply list_elem_of_join. exists b.
    split; [done|]. by eapply list_elem_of_lookup_2.
  - exfalso. apply (Hdis x Hb). apply list_elem_of_join. exists a.
    split; [done|]. by eapply list_elem_of_lookup_2.
  - f_equal. by apply IH.
Qed.

Lemma show_writes_local targets pool w :
  w ∈ show_writes targets pool → wnode w ∈ mjoin (nodesOf <$> pool).
Proof.
  revert pool. induction targets as [|t ts IH]; intros [|m ms]; simpl;
    try (by intros ?%elem_of_nil).
  rewrite !elem_of_app. intros [Hw|Hw]; [left|right; by apply IH].
  destruct (getBBox t); [by eapply update_local|by apply elem_of_nil in Hw].
Qed.

Lemma last_write_show targets pool i m n k :
  NoDup (mjoin (nodesOf <$> pool)) → pool !! i = Some m → n ∈ nodesOf m →
  last_write n k (show_writes targets pool)
  = match targets !! i with
    | Some t => match getBBox t with
                | Ok box => last_write n k (update_writes box m)
                | Throw _ => None
                end
    | None => None
    end.
Proof.
  revert pool i. induction targets as [|t ts IH]; intros [|m0 ms] i ND Hi Hn;
    try done.
  simpl in ND. apply NoDup_app in ND as (_ & Hdis & ND).
  cbn [PoolModel.show_writes]. rewrite last_write_app.
  destruct i as [|i]; simpl in Hi; simplify_eq.
  - rewrite last_write_other.
    + simpl. by destruct (getBBox t).
    + intros w Hw%show_writes_local E. rewrite E in Hw. by apply (Hdis n).
  - simpl. rewrite (IH ms i) by done.
    assert (n ∉ nodesOf m0) as Hn0.
    { intros Hn0. apply (Hdis n Hn0). apply list_elem_of_join. exists (nodesOf m).
      split; [done|]. apply list_elem_of_fmap. exists m.
      split; [done|]. by eapply list_elem_of_lookup_2. }
    assert (last_write n k match getBBox t with
                           | Ok box => update_writes box m0
                           | Throw _ => []
                           end = None) as ->.
    { apply last_write_other. intros w Hw E. apply Hn0. rewrite <- E.
      destruct (getBBox t); [by eapply update_local|by apply elem_of_nil in Hw]. }
    destruct (ts !! i) as [t'|]; [|done]. destruct (getBBox t') as [box'|]; [|done].
    by destruct (last_write n k (update_writes box' m)).
Qed.

Lemma last_write_const (rs : list nat) n k :
  last_write n k ((λ r, mkWrite r "opacity" hidden) <$> rs)
  = if decide (n ∈ rs ∧ k = "opacity") then Some hidden else None.
Proof.
  induction rs as [|r rs IH]; cbn [fmap list_fmap last_write wnode wkey wvalue].
  - rewrite decide_False; [done|]. by intros [?%elem_of_nil _].
  - rewrite IH. destruct (decide (n ∈ rs ∧ k = "opacity")) as [[Hn Hk]|Hno].
    + rewrite decide_True; [done|]. split; [by right|done].
    + destruct (decide (r = n ∧ "opacity" = k)) as [[-> <-]|Hno'].
      * rewrite decide_True; [done|]. split; [by left|done].
      * rewrite decide_False; [done|].
        intros [[->|Hn]%elem_of_cons ->]; tauto.
Qed.

Lemma last_write_hide targets pool i m n k :
  NoDup (mjoin (nodesOf <$> pool)) → pool !! i = Some m → n ∈ nodesOf m →
  last_write n k (hide_writes targets pool)
  = if decide (length targets ≤ i ∧ n = rootOf m ∧ k = "opacity")
    then Some hidden else None.
Proof.
  intros ND Hi Hn. rewrite hide_writes_roots, last_write_const, <- fmap_drop.
  destruct (decide (length targets ≤ i ∧ n = rootOf m ∧ k = "opacity"))
    as [(Hle & -> & ->)|Hno].
  - rewrite decide_True; [done|]. split; [|done].
    apply list_elem_of_fmap. exists m. split; [done|].
    apply list_elem_of_lookup. exists (i - length targets).
    rewrite lookup_drop. rewrite <- Hi. f_equal. lia.
  - rewrite decide_False; [done|]. intros [Hin ->]. apply Hno.
    apply list_elem_of_fmap in Hin as (m' & -> & Hm').
    apply list_elem_of_lookup in Hm' as (j & Hj). rewrite lookup_drop in Hj.
    assert (i = length targets + j) as ->.
    { apply (NoDup_join_lookup (nodesOf <$> pool) _ _ (nodesOf m) (nodesOf m') (rootOf m'));
        try done.
      - by rewrite list_lookup_fmap, Hi.
      - by rewrite list_lookup_fmap, Hj. }
    rewrite Hi in Hj. injection Hj as <-. split_and!; [lia|done..].
Qed.

(** The value an attribute of a marker's node has after the pass. *)
Lemma refresh_attribute targets pool dg i m n k :
  inv pool dg → pool !! i = Some m → n ∈ nodesOf m →
  getAttribute
    (apply_writes (show_writes targets pool ++ hide_writes targets pool) dg) n k
  = match targets !! i with
    | Some t =>
        match getBBox t with
        | Ok box =>
            match last_write n k (update_writes box m) with
            | Some v => Some v
            | None => getAttribute dg n k
            end
        | Throw _ => getAttribute dg n k
        end
    | None =>
        if decide (n = rootOf m ∧ k = "opacity") then Some hidden
        else getAttribute dg n k
    end.
Proof.
  intros I Hi Hn.
  pose proof (Pool.inv_nodup _ _ _ _ _ I) as [_ ND]%NoDup_cons.
  destruct (Pool.inv_nodes _ _ _ _ _ I m n) as [e He];
    [by eapply list_elem_of_lookup_2|done|].
  rewrite getAttribute_apply_writes, last_write_app.
  rewrite (last_write_hide targets pool i m) by done.
  rewrite (last_write_show targets pool i m) by done.
  rewrite He. simpl.
  destruct (targets !! i) as [t|] eqn:Et.
  - apply lookup_lt_Some in Et as Hlt.
    rewrite decide_False by lia.
    destruct (getBBox t) as [box|]; [|done].
    by destruct (last_write n k (update_writes box m)).
  - apply lookup_ge_None in Et.
    destruct (decide (n = rootOf m ∧ k = "opacity")) as [[-> ->]|Hno].
    + by rewrite decide_True.
    + rewrite decide_False by tauto. done.
Qed.

(** Nodes outside the pool are not written to. *)
Lemma refresh_other targets pool dg n :
  n ∉ mjoin (nodesOf <$> pool) →
  nodes (apply_writes (show_writes targets pool ++ hide_writes targets pool) dg) !! n
  = nodes dg !! n.
Proof.
  intros Hn. apply apply_writes_other. intros w [Hw|Hw]%elem_of_app E; subst n.
  - by apply Hn, (show_writes_local targets).
  - unfold PoolModel.hide_writes in Hw.
    apply list_elem_of_fmap in Hw as (m & -> & Hm). simpl in Hn.
    apply Hn, list_elem_of_join. exists (nodesOf m). split; [apply rootOf_nodesOf|].
    apply list_elem_of_fmap. exists m. split; [done|].
    apply list_elem_of_lookup in Hm as (j & Hj). rewrite lookup_drop in Hj.
    by eapply list_elem_of_lookup_2.
Qed.

(** One pass, summed up. *)
Lemma refresh_summary targets pool w :
  inv pool (document w) →
  ∃ news dg w',
    refresh targets pool w = Ok (shown targets (pool ++ news), w') ∧
    console w' = console w ++ PoolModel.failures targets ∧
    changeListeners w' = changeListeners w ∧
    observations w' = observations w ∧
    length (pool ++ news) = length pool `max` length targets ∧
    inv (pool ++ news) dg ∧
    inv (shown targets (pool ++ news)) (document w') ∧
    same_structure dg (document w') ∧
    grown_from root (document w) dg ∧
    (∀ m, m ∈ news →
       (∀ n, n ∈ nodesOf m → nextNode (document w) ≤ n) ∧ untouched (nodesOf m) dg) ∧
    (∀ i m n k, (pool ++ news) !! i = Some m → n ∈ nodesOf m →
       getAttribute (document w') n k
       = match targets !! i with
         | Some t =>
             match getBBox t with
             | Ok box =>
                 match last_write n k (update_writes box m) with
                 | Some v => Some v
                 | None => getAttribute dg n k
                 end
             | Throw _ => getAttribute dg n k
             end
         | None =>
             if decide (n = rootOf m ∧ k = "opacity") then Some hidden
             else getAttribute dg n k
         end) ∧
    (∀ n, n ∉ mjoin (nodesOf <$> pool ++ news) →
       nodes (document w') !! n = nodes dg !! n).
Proof.
  intros I.
  destruct (refresh_spec targets pool w I) as (news & dg & E & Hlen & Ig & G & Hnews).
  eexists news, dg, _. split; [exact E|]. cbn [console changeListeners observations document].
  split_and!; try done.
  - eapply inv_same_structure; [apply shown_nodesOf|apply shown_rootOf| |done].
    apply apply_writes_same_structure.
  - apply apply_writes_same_structure.
  - intros i m n k Hi Hn. by apply (refresh_attribute targets (pool ++ news) dg i m).
  - intros n Hn. by apply refresh_other.
Qed.

(** The nodes of the markers that existed before the pass are as they
    were when the second loop starts. *)
Lemma grown_from_marker pool d dg m n :
  inv pool d → grown_from root d dg → m ∈ pool → n ∈ nodesOf m →
  nodes dg !! n = nodes d !! n.
Proof.
  intros I (_ & F & _) Hm Hn. apply F; [by eapply inv_below|].
  intros ->. pose proof (Pool.inv_nodup _ _ _ _ _ I) as [Hr _]%NoDup_cons.
  apply Hr, list_elem_of_join. exists (nodesOf m). split; [done|].
  apply list_elem_of_fmap. by exists m.
Qed.

Lemma inv_attached pool d m :
  inv pool d → m ∈ pool →
  parentOf d (rootOf m) = Some root ∧ rootOf m ∈ childrenOf d root.
Proof.
  intros I Hm.
  assert (rootOf m ∈ childrenOf d root) as Hin.
  { rewrite (Pool.inv_children _ _ _ _ _ I). apply list_elem_of_fmap. by exists m. }
  split; [|done]. by apply (wf_child d (Pool.inv_wf _ _ _ _ _ I)).
Qed.

(** Moving the root group leaves the pool as it is. *)
Lemma inv_appendChild pool d c d' :
  inv pool d → appendChild c root d = Ok d' → inv pool d'.
Proof.
  intros I Happ. pose proof I as [W R C ND N].
  pose proof (λ m, appendChild_is_Some _ _ _ _ m Happ) as Hex.
  pose proof (appendChild_wf _ _ _ _ Happ W) as W'.
  apply appendChild_Ok in Happ as (_ & _ & Hne & _ & _ & _ & HC).
  split; try done.
  - by apply Hex.
  - rewrite HC. rewrite (decide_False (P := root = c)) by done. rewrite app_nil_r.
    rewrite decide_False; [done|]. intros Hp%(wf_parent d W).
    rewrite C in Hp. apply list_elem_of_fmap in Hp as (m & E & Hm).
    apply NoDup_cons in ND as [Hr _]. apply Hr, list_elem_of_join.
    exists (nodesOf m). split; [rewrite E; apply rootOf_nodesOf|].
    apply list_elem_of_fmap. by exists m.
  - intros m n Hm Hn. apply Hex. by eapply N.
Qed.

Lemma inv_remove pool d : inv pool d → inv pool (DOM.remove root d).
Proof.
  intros I. pose proof I as [W R C ND N]. split; try done.
  - by apply remove_wf.
  - by apply remove_is_Some.
  - rewrite remove_childrenOf. rewrite decide_False; [done|].
    intros Hp%(wf_parent d W).
    rewrite C in Hp. apply list_elem_of_fmap in Hp as (m & E & Hm).
    apply NoDup_cons in ND as [Hr _]. apply Hr, list_elem_of_join.
    exists (nodesOf m). split; [rewrite E; apply rootOf_nodesOf|].
    apply list_elem_of_fmap. by exists m.
  - intros m n Hm Hn. apply remove_is_Some. by eapply N.
Qed.
End PoolFacts.

(** ** Constructing a marker *)

Section Construction.
  Implicit Types (d : Document) (n : nat).

Lemma createElements_cons tag tags d :
  createElements (tag :: tags) d
  = (nextNode d :: (createElements tags (createElementNS tag d).2).1,
     (createElements tags (createElementNS tag d).2).2).
Proof. simpl. by destruct (createElements tags _). Qed.

Lemma createElements_spec tags d :
  doc_wf d →
  ∃ d', createElements tags d = (seq (nextNode d) (length tags), d') ∧
    doc_wf d' ∧
    nextNode d' = nextNode d + length tags ∧
    (∀ n, n < nextNode d → nodes d' !! n = nodes d !! n) ∧
    (∀ n, n ∈ seq (nextNode d) (length tags) →
       ∃ tag, nodes d' !! n = Some (mkElement tag None [] ∅ ∅)).
Proof.
  revert d. induction tags as [|tag tags IH]; intros d W.
  - exists d. simpl. split_and!; first [done | lia | by intros n ?%elem_of_nil].
  - destruct (IH (createElementNS tag d).2 (createElementNS_wf tag d W))
      as (d' & E & W' & HN & HF & Hnew).
    exists d'. rewrite createElements_cons, E. simpl in *.
    split_and!; try done.
    + lia.
    + intros n Hn. rewrite HF by lia. apply lookup_insert_ne. lia.
    + intros n [->|Hn]%elem_of_cons; [|by apply Hnew].
      exists tag. rewrite HF by lia. apply lookup_insert_eq.
Qed.

Lemma last_write_key_other n k ws :
  Forall (λ w, wkey w ≠ k) ws → last_write n k ws = None.
Proof.
  induction 1 as [|w ws Hw _ IH]; [done|]. simpl. rewrite IH.
  rewrite decide_False; [done|]. tauto.
Qed.

(** What the constructors of both markers do: the new nodes are assembled
    under the first of them and decorated. *)
Lemma assemble_spec tags d r rest d1 ws :
  doc_wf d →
  createElements tags d = (r :: rest, d1) →
  Forall (λ w, wnode w ∈ r :: rest ∧ wkey w ≠ "d" ∧ wkey w ≠ "opacity") ws →
  ∃ d2, append r rest d1 = Ok d2 ∧
    let d' := apply_writes ws (setStyle r "pointer-events" "none" d2) in
    doc_wf d' ∧
    nextNode d ≤ nextNode d' ∧
    (∀ n, n < nextNode d → nodes d' !! n = nodes d !! n) ∧
    (∀ n, n ∈ r :: rest → nextNode d ≤ n ∧ is_Some (nodes d' !! n)) ∧
    NoDup (r :: rest) ∧
    parentOf d' r = None ∧
    childrenOf d' r = rest ∧
    untouched (r :: rest) d'.
Proof.
  intros W E Hws.
  destruct (createElements_spec tags d W) as (d1' & E' & W1 & HN & HF & Hnew).
  rewrite E in E'. injection E' as Hseq <-.
  assert (NoDup (r :: rest)) as ND by (rewrite Hseq; apply NoDup_seq).
  assert (∀ n, n ∈ r :: rest → nextNode d ≤ n) as Hge.
  { intros n. rewrite Hseq, elem_of_seq. lia. }
  assert (∀ n, n ∈ r :: rest →
            is_Some (nodes d1 !! n) ∧ parentOf d1 n = None ∧ childrenOf d1 n = []
            ∧ ∀ k, getAttribute d1 n k = None) as Hfresh.
  { intros n Hn. rewrite Hseq in Hn. destruct (Hnew n Hn) as [tag Hn'].
    unfold parentOf, childrenOf, getAttribute. rewrite Hn'. by split_and!. }
  apply NoDup_cons in ND as ND'. destruct ND' as [Hr NDrest].
  destruct (append_parentless r rest d1) as (d2 & Happ & HN2 & W2 & A2 & P2 & Hkids2 & Ps2 & O2);
    try done.
  { apply Hfresh. by left. }
  { apply Hfresh. by left. }
  { intros n Hn. destruct (Hfresh n) as (? & ? & _); [by right|done]. }
  exists d2. split; [done|]. cbn zeta.
  set (d3 := setStyle r "pointer-events" "none" d2).
  assert (same_structure d2 (apply_writes ws d3)) as S.
  { eapply same_structure_trans; [apply setStyle_same_structure|].
    apply apply_writes_same_structure. }
  split_and!.
  - eapply same_structure_wf; [done|]. by apply W2.
  - rewrite (proj1 S). lia.
  - intros n Hn. rewrite apply_writes_other.
    + unfold d3. simpl. rewrite lookup_alter_ne.
      * rewrite O2; [by apply HF| |].
        -- intros ->. pose proof (Hge r ltac:(by left)). lia.
        -- intros Hin. pose proof (Hge n ltac:(by right)). lia.
      * intros ->. pose proof (Hge n ltac:(by left)). lia.
    + intros w Hw Ew. rewrite Forall_forall in Hws.
      destruct (Hws w Hw) as [Hin _]. apply Hge in Hin. lia.
  - intros n Hn. split; [by apply Hge|].
    apply (same_structure_is_Some d2); [done|].
    apply (same_attributes_is_Some d1 d2); [done|]. by apply Hfresh.
  - done.
  - by rewrite (same_structure_parentOf d2).
  - rewrite (same_structure_childrenOf d2) by done. rewrite Hkids2.
    destruct (Hfresh r) as (_ & _ & -> & _); [by left|done].
  - intros n Hn.
    assert (∀ k, k = "d" ∨ k = "opacity" → getAttribute (apply_writes ws d3) n k = None)
      as Hk; [|split; apply Hk; auto].
    intros k Hk. rewrite getAttribute_apply_writes.
    rewrite last_write_key_other.
    + unfold d3. rewrite getAttribute_setStyle.
      rewrite (same_attributes_getAttribute d1 d2) by done. by apply Hfresh.
    + eapply Forall_impl; [done|]. intros w (_ & ? & ?). destruct Hk; by subst.
Qed.
End Construction.

(** ** The two marker classes *)

Section MarkerConstruction.
  Context {num : Type} `{JSNumber num}.

Lemma BoxTrace_new_spec (a : BoxTrace.Appearance) d :
  doc_wf d →
  ∃ m d', BoxTrace.new a d = Ok (m, d') ∧ doc_wf d' ∧
    nextNode d ≤ nextNode d' ∧
    (∀ n, n < nextNode d → nodes d' !! n = nodes d !! n) ∧
    (∀ n, n ∈ BoxTrace.nodesOf m → nextNode d ≤ n ∧ is_Some (nodes d' !! n)) ∧
    NoDup (BoxTrace.nodesOf m) ∧
    parentOf d' (BoxTrace.domNode m) = None ∧
    untouched (BoxTrace.nodesOf m) d'.
Proof.
  intros W.
  destruct (createElements_spec ["g"; "path"; "path"] d W) as (d1 & E & _).
  set (m := BoxTrace.mk (nextNode d) (S (nextNode d)) (S (S (nextNode d)))).
  set (ws :=
    [ mkWrite (BoxTrace.lightDashing m) "stroke" (BoxTrace.lightStroke a);
      mkWrite (BoxTrace.darkDashing m) "stroke" (BoxTrace.darkStroke a);
      mkWrite (BoxTrace.lightDashing m) "stroke-dasharray" (BoxTrace.strokeDasharray a);
      mkWrite (BoxTrace.darkDashing m) "stroke-dasharray" (BoxTrace.strokeDasharray a) ]
    ++ match BoxTrace.strokeLinecap a with
       | Some cap => [ mkWrite (BoxTrace.lightDashing m) "stroke-linecap" cap;
                       mkWrite (BoxTrace.darkDashing m) "stroke-linecap" cap ]
       | None => []
       end
    ++ [ mkWrite (BoxTrace.darkDashing m) "stroke-dashoffset" (BoxTrace.darkDashoffset a);
         mkWrite (BoxTrace.lightDashing m) "stroke-width" (BoxTrace.strokeWidth a);
         mkWrite (BoxTrace.darkDashing m) "stroke-width" (BoxTrace.strokeWidth a);
         mkWrite (BoxTrace.lightDashing m) "fill" "none";
         mkWrite (BoxTrace.darkDashing m) "fill" "none" ]).
  destruct (assemble_spec _ d _ _ d1 ws W E) as (d2 & Happ & Hrest).
  { unfold ws. destruct (BoxTrace.strokeLinecap a); simpl;
      repeat (apply Forall_cons; split;
              [split_and!; [set_solver|done|done]|]); apply Forall_nil_2. }
  exists m, (apply_writes ws (setStyle (nextNode d) "pointer-events" "none" d2)).
  split; [|destruct Hrest as (? & ? & ? & ? & ? & ? & _ & ?); by split_and!].
  simpl in E. injection E as <-.
  unfold BoxTrace.new. cbn [createElementNS]. cbn zeta beta iota.
  unfold nodes, nextNode in Happ |- *. cbn in Happ |- *.
  rewrite Happ. unfold ws. by destruct (BoxTrace.strokeLinecap a).
Qed.

Lemma BoxHighlighting_new_spec d :
  doc_wf d →
  ∃ m d', BoxHighlighting.new (num:=num) d = Ok (m, d') ∧ doc_wf d' ∧
    nextNode d ≤ nextNode d' ∧
    (∀ n, n < nextNode d → nodes d' !! n = nodes d !! n) ∧
    (∀ n, n ∈ BoxHighlighting.nodesOf m → nextNode d ≤ n ∧ is_Some (nodes d' !! n)) ∧
    NoDup (BoxHighlighting.nodesOf m) ∧
    parentOf d' (BoxHighlighting.domNode m) = None ∧
    untouched (BoxHighlighting.nodesOf m) d'.
Proof.
  intros W.
  destruct (createElements_spec ["g"; "path"; "path"; "path"; "path"; "path"] d W)
    as (d1 & E & _).
  set (m := BoxHighlighting.mk (num:=num) (nextNode d) (1 + nextNode d)
              (2 + nextNode d) (3 + nextNode d) (4 + nextNode d) (5 + nextNode d)
              (num_lit 5 1) None).
  set (ws :=
    [ mkWrite (BoxHighlighting.boxTrace m) "stroke" "blue";
      mkWrite (BoxHighlighting.boxTrace m) "stroke-width"
        (num_to_string (BoxHighlighting.lineThickness m));
      mkWrite (BoxHighlighting.boxTrace m) "fill" "none" ]
    ++ mjoin ((λ cornerBox,
         [ mkWrite cornerBox "stroke" "blue";
           mkWrite cornerBox "stroke-width"
             (num_to_string (BoxHighlighting.lineThickness m));
           mkWrite cornerBox "fill" "white" ]) <$> BoxHighlighting.cornerBoxes m)).
  destruct (assemble_spec _ d _ _ d1 ws W E) as (d2 & Happ & Hrest).
  { unfold ws. simpl.
    repeat (apply Forall_cons; split;
            [split_and!; [set_solver|done|done]|]); apply Forall_nil_2. }
  exists m, (apply_writes ws (setStyle (nextNode d) "pointer-events" "none" d2)).
  split; [|destruct Hrest as (? & ? & ? & ? & ? & ? & _ & ?); by split_and!].
  simpl in E. injection E as <-.
  unfold BoxHighlighting.new. cbn [createElementNS]. cbn zeta beta iota.
  unfold nodes, nextNode in Happ |- *. cbn in Happ |- *.
  by rewrite Happ.
Qed.

Lemma string_app_assoc (a b c : string) : (a +:+ b) +:+ c = a +:+ (b +:+ c).
Proof.
  induction a as [|ch a IH]; [done|].
  change (String ch ((a +:+ b) +:+ c) = String ch (a +:+ (b +:+ c))). by f_equal.
Qed.

(** The template literal of [trace] and [highlight] prints the outline of
    the box. *)
Lemma perimeter_string (box : BoxLike num) :
  "M " +:+ num_to_string (x box) +:+ " " +:+ num_to_string (y box)
  +:+ " h " +:+ num_to_string (width box)
  +:+ " v " +:+ num_to_string (height box)
  +:+ " h " +:+ num_to_string (num_neg (width box)) +:+ " z"
  = path_to_string (perimeterPath box).
Proof. unfold perimeterPath. simpl. by rewrite !string_app_assoc. Qed.

Lemma cornerBoxD_string (m : BoxHighlighting.t num) (centerPoint : Point num) :
  BoxHighlighting.cornerBoxD m centerPoint
  = path_to_string (BoxHighlighting.cornerBoxPath m centerPoint).
Proof.
  unfold BoxHighlighting.cornerBoxD, BoxHighlighting.cornerBoxPath. simpl.
  by rewrite !string_app_assoc.
Qed.

Lemma TracePool_update_spec (box : BoxLike num) m d :
  TracePool.update box m d = (m, apply_writes (TracePool.update_writes box m) d).
Proof.
  unfold TracePool.update, TracePool.update_writes, BoxTrace.trace, BoxTrace.setOpacity.
  cbn zeta. by rewrite perimeter_string.
Qed.

Lemma TracePool_hide_spec (m : BoxTrace.t) d :
  TracePool.hide m d
  = apply_writes [mkWrite (BoxTrace.domNode m) "opacity" (num_to_string (num_lit 0 0))] d.
Proof. done. Qed.

Lemma highlight_spec (box : BoxLike num) m d :
  BoxHighlighting.highlight box m d
  = (BoxHighlighting.with_highlightedBox (Some (Box.matching box)) m,
     apply_writes (HighlightPool.highlight_writes box m) d).
Proof.
  unfold BoxHighlighting.highlight, HighlightPool.highlight_writes.
  cbn zeta. by rewrite <- perimeter_string.
Qed.

Lemma set_lineThickness_spec (t : num) m d :
  BoxHighlighting.set_lineThickness t m d
  = (BoxHighlighting.with_lineThickness t m,
     apply_writes
       (HighlightPool.thickness_writes t m
        ++ match BoxHighlighting.highlightedBox m with
           | Some box =>
               HighlightPool.highlight_writes box (BoxHighlighting.with_lineThickness t m)
           | None => []
           end) d).
Proof.
  unfold BoxHighlighting.set_lineThickness. cbn zeta.
  destruct m as [g bt tl tr br bl t0 [[bx by_ bw bh]|]]; [|done].
  cbn [BoxHighlighting.highlightedBox BoxHighlighting.with_lineThickness].
  rewrite highlight_spec, apply_writes_app. done.
Qed.

Lemma HighlightPool_update_spec (t : num) (box : BoxLike num) m d :
  HighlightPool.update t box m d
  = (HighlightPool.update_state t box m,
     apply_writes (HighlightPool.update_writes t box m) d).
Proof.
  unfold HighlightPool.update. rewrite highlight_spec, set_lineThickness_spec.
  unfold HighlightPool.update_writes, HighlightPool.update_state.
  rewrite !apply_writes_app. by destruct m.
Qed.

Lemma HighlightPool_hide_spec (m : BoxHighlighting.t num) d :
  HighlightPool.hide m d
  = apply_writes
      [mkWrite (BoxHighlighting.domNode m) "opacity" (num_to_string (num_lit 0 0))] d.
Proof. done. Qed.
End MarkerConstruction.

(** ** The controllers run the common refresh pass *)

Section Bridge.
  Context {num : Type} `{JSNumber num}.

Lemma forEachi_from_ext {A St} (f g : A → nat → St → St) i l s :
  (∀ a j s, f a j s = g a j s) → forEachi_from i f l s = forEachi_from i g l s.
Proof.
  intros E. revert i s. induction l as [|a l IH]; intros i s; [done|].
  simpl. by rewrite E, IH.
Qed.

Lemma Tracings_refresh_pool (a : BoxTrace.Appearance) (env : Env num) this w :
  LiveSVGElementTracings.refresh a env this w
  = Pool.refresh (BoxTrace.new a) BoxTrace.domNode TracePool.update TracePool.hide
      (LiveSVGElementTracings.domNode this) (members env)
      (LiveSVGElementTracings.boxTraces this) w
    ≫= λ '(pool, w'), mret (LiveSVGElementTracings.mk
                               (LiveSVGElementTracings.domNode this) pool, w').
Proof.
  unfold LiveSVGElementTracings.refresh, Pool.refresh, Pool.grow. cbn zeta.
  unfold BoxTrace.appendTo.
  destruct (forEachM _ _ _) as [[pool1 w1]|e]; [|done]. cbn.
  unfold Pool.show, forEachi.
  rewrite (forEachi_from_ext _ (Pool.showOne TracePool.update)).
  - by destruct (forEachi_from _ _ _ _).
  - intros ele i [pool w0]. unfold Pool.showOne.
    destruct (pool !! i) as [m|] eqn:E; [|done].
    destruct (getBBox ele); [|done]. cbn. by rewrite list_insert_id.
Qed.

Lemma Highlightings_refresh_pool (env : Env num) this w :
  LiveSVGElementHighlightings.refresh env this w
  = Pool.refresh BoxHighlighting.new BoxHighlighting.domNode
      (HighlightPool.update (num_div (num_lit 75 2) (horizontalScaling env)))
      HighlightPool.hide
      (LiveSVGElementHighlightings.domNode this) (members env)
      (LiveSVGElementHighlightings.boxHighlightings this) w
    ≫= λ '(pool, w'), mret (LiveSVGElementHighlightings.mk
                               (LiveSVGElementHighlightings.domNode this) pool
                               (LiveSVGElementHighlightings.parentSVGDocCoordinateSystem this),
                             w').
Proof.
  unfold LiveSVGElementHighlightings.refresh, Pool.refresh, Pool.grow. cbn zeta.
  unfold BoxHighlighting.appendTo, CoordinateSystem.horizontalScaling.
  destruct (forEachM _ _ _) as [[pool1 w1]|e]; [|done]. cbn.
  unfold Pool.show, forEachi.
  rewrite (forEachi_from_ext _
    (Pool.showOne (HighlightPool.update (num_div (num_lit 75 2) (horizontalScaling env))))).
  - by destruct (forEachi_from _ _ _ _).
  - intros ele i [pool w0]. unfold Pool.showOne.
    destruct (pool !! i) as [m|] eqn:E; [|done].
    destruct (getBBox ele) as [box|]; [|done]. cbn.
    unfold HighlightPool.update.
    destruct (BoxHighlighting.highlight box m (document w0)) as [m1 d1].
    by destruct (BoxHighlighting.set_lineThickness
                   (num_div (num_lit 75 2) (horizontalScaling env)) m1 d1) as [m2 d2].
Qed.
End Bridge.

(** ** One refresh of each controller *)

Ltac distinct_nodes :=
  repeat match goal with
         | H : NoDup (_ :: _) |- _ => apply NoDup_cons in H as [? ?]
         end;
  repeat match goal with
         | H : _ ∉ _ :: _ |- _ => apply not_elem_of_cons in H as [? ?]
         end.

Ltac in_list :=
  repeat first [apply list_elem_of_here | apply list_elem_of_further].

Ltac last_write_steps :=
  repeat first
    [ rewrite decide_True by (split; reflexivity)
    | rewrite decide_False by (intros [? ?]; first [discriminate | congruence]) ].

Section TracingsPass.
  Context {num : Type} `{JSNumber num}.
  Variable a : BoxTrace.Appearance.

Lemma trace_update_local (box : BoxLike num) m w :
  w ∈ TracePool.update_writes box m → wnode w ∈ BoxTrace.nodesOf m.
Proof.
  unfold TracePool.update_writes, BoxTrace.nodesOf.
  rewrite !elem_of_cons. intros [->|[->|[->|?%elem_of_nil]]]; simpl; set_solver.
Qed.

Lemma shown_id (targets : list (SVGGraphicsElement num)) (pool : list BoxTrace.t) :
  PoolModel.shown (λ _ m, m) targets pool = pool.
Proof.
  revert pool. induction targets as [|t ts IH]; intros [|m ms]; simpl; try done.
  rewrite IH. by destruct (getBBox t).
Qed.

Lemma tracings_pass (env : Env num) this w :
  tracings_inv this w →
  ∃ news dg w',
    LiveSVGElementTracings.refresh a env this w
    = Ok (LiveSVGElementTracings.mk (LiveSVGElementTracings.domNode this)
            (LiveSVGElementTracings.boxTraces this ++ news), w') ∧
    console w' = console w ++ PoolModel.failures (members env) ∧
    changeListeners w' = changeListeners w ∧
    observations w' = observations w ∧
    length (LiveSVGElementTracings.boxTraces this ++ news)
    = length (LiveSVGElementTracings.boxTraces this) `max` length (members env) ∧
    tracings_inv (LiveSVGElementTracings.mk (LiveSVGElementTracings.domNode this)
                    (LiveSVGElementTracings.boxTraces this ++ news)) w' ∧
    same_structure dg (document w') ∧
    grown_from (LiveSVGElementTracings.domNode this) (document w) dg ∧
    (∀ m, m ∈ news →
       (∀ n, n ∈ BoxTrace.nodesOf m → nextNode (document w) ≤ n)
       ∧ untouched (BoxTrace.nodesOf m) dg) ∧
    (∀ i m n k,
       (LiveSVGElementTracings.boxTraces this ++ news) !! i = Some m →
       n ∈ BoxTrace.nodesOf m →
       getAttribute (document w') n k
       = match members env !! i with
         | Some t =>
             match getBBox t with
             | Ok box =>
                 match last_write n k (TracePool.update_writes box m) with
                 | Some v => Some v
                 | None => getAttribute dg n k
                 end
             | Throw _ => getAttribute dg n k
             end
         | None =>
             if decide (n = BoxTrace.domNode m ∧ k = "opacity")
             then Some (num_to_string (num_lit 0 0))
             else getAttribute dg n k
         end) ∧
    (∀ n, n ∉ mjoin (BoxTrace.nodesOf <$> LiveSVGElementTracings.boxTraces this ++ news) →
       nodes (document w') !! n = nodes dg !! n).
Proof.
  intros I. rewrite Tracings_refresh_pool.
  destruct (refresh_summary (BoxTrace.new a) BoxTrace.domNode TracePool.update
              TracePool.hide (LiveSVGElementTracings.domNode this) BoxTrace.nodesOf
              (λ _ m, m) TracePool.update_writes (num_to_string (num_lit 0 0))
              (BoxTrace_new_spec a) (λ m, list_elem_of_here _ _)
              TracePool_update_spec (λ _ _, eq_refl) (λ _ _, eq_refl)
              trace_update_local TracePool_hide_spec (members env)
              (LiveSVGElementTracings.boxTraces this) w I)
    as (news & dg & w' & E & Hc & Hl & Ho & Hlen & Ig & I' & S & G & Hnews & Hattr & Hoth).
  rewrite shown_id in E, I'.
  exists news, dg, w'. rewrite E. by split_and!.
Qed.

(** The last values [trace] and [setOpacity 1] write. *)
Lemma trace_writes_last (box : BoxLike num) m :
  NoDup (BoxTrace.nodesOf m) →
  last_write (BoxTrace.lightDashing m) "d" (TracePool.update_writes box m)
  = Some (path_to_string (perimeterPath box)) ∧
  last_write (BoxTrace.darkDashing m) "d" (TracePool.update_writes box m)
  = Some (path_to_string (perimeterPath box)) ∧
  last_write (BoxTrace.domNode m) "opacity" (TracePool.update_writes box m)
  = Some (num_to_string (num_lit 1 0)).
Proof.
  intros ND. unfold BoxTrace.nodesOf in ND. distinct_nodes.
  unfold TracePool.update_writes.
  cbn [last_write wnode wkey wvalue]. split_and!; by last_write_steps.
Qed.
End TracingsPass.

Section HighlightingsPass.
  Context {num : Type} `{JSNumber num}.

Lemma highlight_update_local (t : num) (box : BoxLike num) m w :
  w ∈ HighlightPool.update_writes t box m → wnode w ∈ BoxHighlighting.nodesOf m.
Proof.
  unfold HighlightPool.update_writes, HighlightPool.highlight_writes,
    HighlightPool.thickness_writes, BoxHighlighting.nodesOf, BoxHighlighting.cornerBoxes.
  cbn [fmap list_fmap app]. rewrite !elem_of_cons.
  intros Hw. repeat destruct Hw as [->|Hw]; simpl; try set_solver.
Qed.

Lemma highlight_update_nodesOf (t : num) (box : BoxLike num) m :
  BoxHighlighting.nodesOf (HighlightPool.update_state t box m) = BoxHighlighting.nodesOf m.
Proof. done. Qed.

Lemma highlightings_pass (env : Env num) this w :
  highlightings_inv this w →
  ∃ news dg w',
    LiveSVGElementHighlightings.refresh env this w
    = Ok (LiveSVGElementHighlightings.mk (LiveSVGElementHighlightings.domNode this)
            (PoolModel.shown
               (HighlightPool.update_state (num_div (num_lit 75 2) (horizontalScaling env)))
               (members env) (LiveSVGElementHighlightings.boxHighlightings this ++ news))
            (LiveSVGElementHighlightings.parentSVGDocCoordinateSystem this), w') ∧
    console w' = console w ++ PoolModel.failures (members env) ∧
    changeListeners w' = changeListeners w ∧
    observations w' = observations w ∧
    length (LiveSVGElementHighlightings.boxHighlightings this ++ news)
    = length (LiveSVGElementHighlightings.boxHighlightings this) `max` length (members env) ∧
    Pool.inv BoxHighlighting.domNode (LiveSVGElementHighlightings.domNode this)
      BoxHighlighting.nodesOf (LiveSVGElementHighlightings.boxHighlightings this ++ news) dg ∧
    Pool.inv BoxHighlighting.domNode (LiveSVGElementHighlightings.domNode this)
      BoxHighlighting.nodesOf
      (PoolModel.shown
         (HighlightPool.update_state (num_div (num_lit 75 2) (horizontalScaling env)))
         (members env) (LiveSVGElementHighlightings.boxHighlightings this ++ news))
      (document w') ∧
    same_structure dg (document w') ∧
    grown_from (LiveSVGElementHighlightings.domNode this) (document w) dg ∧
    (∀ m, m ∈ news →
       (∀ n, n ∈ BoxHighlighting.nodesOf m → nextNode (document w) ≤ n)
       ∧ untouched (BoxHighlighting.nodesOf m) dg) ∧
    (∀ i m n k,
       (LiveSVGElementHighlightings.boxHighlightings this ++ news) !! i = Some m →
       n ∈ BoxHighlighting.nodesOf m →
       getAttribute (document w') n k
       = match members env !! i with
         | Some t =>
             match getBBox t with
             | Ok box =>
                 match last_write n k
                         (HighlightPool.update_writes
                            (num_div (num_lit 75 2) (horizontalScaling env)) box m) with
                 | Some v => Some v
                 | None => getAttribute dg n k
                 end
             | Throw _ => getAttribute dg n k
             end
         | None =>
             if decide (n = BoxHighlighting.domNode m ∧ k = "opacity")
             then Some (num_to_string (num_lit 0 0))
             else getAttribute dg n k
         end) ∧
    (∀ n, n ∉ mjoin (BoxHighlighting.nodesOf
                       <$> LiveSVGElementHighlightings.boxHighlightings this ++ news) →
       nodes (document w') !! n = nodes dg !! n).
Proof.
  intros I. rewrite Highlightings_refresh_pool.
  destruct (refresh_summary BoxHighlighting.new BoxHighlighting.domNode
              (HighlightPool.update (num_div (num_lit 75 2) (horizontalScaling env)))
              HighlightPool.hide (LiveSVGElementHighlightings.domNode this)
              BoxHighlighting.nodesOf
              (HighlightPool.update_state (num_div (num_lit 75 2) (horizontalScaling env)))
              (HighlightPool.update_writes (num_div (num_lit 75 2) (horizontalScaling env)))
              (num_to_string (num_lit 0 0))
              BoxHighlighting_new_spec (λ m, list_elem_of_here _ _)
              (HighlightPool_update_spec _) (λ _ _, eq_refl) (λ _ _, eq_refl)
              (highlight_update_local _) HighlightPool_hide_spec (members env)
              (LiveSVGElementHighlightings.boxHighlightings this) w I)
    as (news & dg & w' & E & Hc & Hl & Ho & Hlen & Ig & I' & S & G & Hnews & Hattr & Hoth).
  exists news, dg, w'. rewrite E. by split_and!.
Qed.

(** The last values [highlight], the [lineThickness] setter and
    [setOpacity 1] write. *)
Lemma highlight_writes_last (t : num) (box : BoxLike num) m :
  NoDup (BoxHighlighting.nodesOf m) →
  let m' := BoxHighlighting.with_lineThickness t m in
  let ws := HighlightPool.update_writes t box m in
  last_write (BoxHighlighting.boxTrace m) "d" ws
  = Some (path_to_string (perimeterPath box)) ∧
  last_write (BoxHighlighting.topLeftCornerBox m) "d" ws
  = Some (BoxHighlighting.cornerBoxD m' (mkPoint (Box.minX box) (Box.minY box))) ∧
  last_write (BoxHighlighting.topRightCornerBox m) "d" ws
  = Some (BoxHighlighting.cornerBoxD m' (mkPoint (Box.maxX box) (Box.minY box))) ∧
  last_write (BoxHighlighting.bottomRightCornerBox m) "d" ws
  = Some (BoxHighlighting.cornerBoxD m' (mkPoint (Box.maxX box) (Box.maxY box))) ∧
  last_write (BoxHighlighting.bottomLeftCornerBox m) "d" ws
  = Some (BoxHighlighting.cornerBoxD m' (mkPoint (Box.minX box) (Box.maxY box))) ∧
  (∀ ele, ele ∈ BoxHighlighting.boxTrace m :: BoxHighlighting.cornerBoxes m →
     last_write ele "stroke-width" ws = Some (num_to_string t)) ∧
  last_write (BoxHighlighting.domNode m) "opacity" ws
  = Some (num_to_string (num_lit 1 0)).
Proof.
  intros ND m' ws. unfold BoxHighlighting.nodesOf, BoxHighlighting.cornerBoxes in ND.
  distinct_nodes.
  unfold ws, m', HighlightPool.update_writes, HighlightPool.highlight_writes,
    HighlightPool.thickness_writes, BoxHighlighting.cornerBoxes.
  destruct m as [g bt tl tr br bl t0 hb].
  cbn [fmap list_fmap app last_write wnode wkey wvalue
       BoxHighlighting.with_lineThickness BoxHighlighting.domNode
       BoxHighlighting.boxTrace BoxHighlighting.topLeftCornerBox
       BoxHighlighting.topRightCornerBox BoxHighlighting.bottomRightCornerBox
       BoxHighlighting.bottomLeftCornerBox BoxHighlighting.lineThickness
       BoxHighlighting.highlightedBox] in *.
  split_and!; try (by last_write_steps).
  intros ele Hele. rewrite !elem_of_cons in Hele.
  repeat destruct Hele as [->|Hele]; try (by last_write_steps).
  by apply elem_of_nil in Hele.
Qed.
End HighlightingsPass.

(** ** Sequences of calls and notifications *)

Section Runs.
  Context {num : Type} `{JSNumber num}.
  Variable a : BoxTrace.Appearance.

Lemma forEachM_preserves {A St} (P : St → Prop) (R : St → St → Prop)
    (f : A → St → result St) l s s' :
  (∀ s, R s s) → (∀ s1 s2 s3, R s1 s2 → R s2 s3 → R s1 s3) →
  (∀ x s s', P s → f x s = Ok s' → P s' ∧ R s s') →
  P s → forEachM f l s = Ok s' → P s' ∧ R s s'.
Proof.
  intros Hrefl Htrans Hstep. revert s. induction l as [|x l IH]; intros s Hs Hrun.
  - injection Hrun as <-. auto.
  - simpl in Hrun. destruct (f x s) as [s1|e] eqn:E; [|done]. simpl in Hrun.
    destruct (Hstep x s s1 Hs E) as [Hs1 HR1].
    destruct (IH s1 Hs1 Hrun) as [Hs' HR']. eauto.
Qed.

Lemma tracings_perform_inv (act : Action num) s s' :
  tracings_inv s.1 s.2 →
  LiveSVGElementTracings.perform a act s = Ok s' →
  tracings_inv s'.1 s'.2 ∧ tracings_kept s s'.
Proof.
  destruct s as [this w]. intros I. destruct act as [c| |n env]; simpl.
  - unfold LiveSVGElementTracings.appendTo.
    destruct (appendChild _ _ _) as [d'|e] eqn:E; [|done]. intros [= <-].
    split; [|by split]. eapply inv_appendChild; [|done|done]. intros m. by left.
  - intros [= <-]. split; [|by split].
    apply inv_remove; [|done]. intros m. by left.
  - unfold LiveSVGElementTracings.notify.
    apply (forEachM_preserves (λ s, tracings_inv s.1 s.2) tracings_kept).
    + by split.
    + intros s1 s2 s3 [E1 P1] [E2 P2]. split; [congruence|by etrans].
    + intros [r] [this1 w1] s2 I1. unfold LiveSVGElementTracings.call.
      case_decide; [|intros [= <-]; by split].
      destruct (tracings_pass a env this1 w1 I1) as (news & dg & w' & E & _ & _ & _ & _ & I' & _).
      simpl. rewrite E. intros [= <-]. split; [done|]. split; [done|].
      by apply prefix_app_r.
    + done.
Qed.

Lemma tracings_run_inv (acts : list (Action num)) s s' :
  tracings_inv s.1 s.2 →
  LiveSVGElementTracings.run a acts s = Ok s' →
  tracings_inv s'.1 s'.2 ∧ tracings_kept s s'.
Proof.
  apply (forEachM_preserves (λ s, tracings_inv s.1 s.2) tracings_kept).
  - by split.
  - intros s1 s2 s3 [E1 P1] [E2 P2]. split; [congruence|by etrans].
  - intros act s1 s2. apply tracings_perform_inv.
Qed.

Lemma highlightings_perform_inv (act : Action num) s s' :
  highlightings_inv s.1 s.2 →
  LiveSVGElementHighlightings.perform act s = Ok s' →
  highlightings_inv s'.1 s'.2 ∧ highlightings_kept s s'.
Proof.
  destruct s as [this w]. intros I. destruct act as [c| |n env]; simpl.
  - unfold LiveSVGElementHighlightings.appendTo.
    destruct (appendChild _ _ _) as [d'|e] eqn:E; [|done]. intros [= <-].
    split; [|by split]. eapply inv_appendChild; [|done|done]. intros m. by left.
  - intros [= <-]. split; [|by split].
    apply inv_remove; [|done]. intros m. by left.
  - unfold LiveSVGElementHighlightings.notify.
    apply (forEachM_preserves (λ s, highlightings_inv s.1 s.2) highlightings_kept).
    + by split.
    + intros s1 s2 s3 [E1 P1] [E2 P2]. split; [congruence|by etrans].
    + intros [r] [this1 w1] s2 I1. unfold LiveSVGElementHighlightings.call.
      case_decide; [|intros [= <-]; by split].
      destruct (highlightings_pass env this1 w1 I1)
        as (news & dg & w' & E & _ & _ & _ & _ & _ & I' & _).
      simpl. rewrite E. intros [= <-]. split; [done|]. split; [done|]. simpl.
      rewrite (shown_nodesOf BoxHighlighting.nodesOf _ (highlight_update_nodesOf _)).
      rewrite fmap_app. by apply prefix_app_r.
    + done.
Qed.

Lemma highlightings_run_inv (acts : list (Action num)) s s' :
  highlightings_inv s.1 s.2 →
  LiveSVGElementHighlightings.run acts s = Ok s' →
  highlightings_inv s'.1 s'.2 ∧ highlightings_kept s s'.
Proof.
  apply (forEachM_preserves (λ s, highlightings_inv s.1 s.2) highlightings_kept).
  - by split.
  - intros s1 s2 s3 [E1 P1] [E2 P2]. split; [congruence|by etrans].
  - intros act s1 s2. apply highlightings_perform_inv.
Qed.
End Runs.

(** ** Freshly constructed controllers *)

Section NewControllers.
  Context {num : Type} `{JSNumber num}.

Lemma new_pool_inv {M} (rootOf : M → nat) (nodesOf : M → list nat) d :
  doc_wf d →
  Pool.inv rootOf (nextNode d) nodesOf [] (createElementNS "g" d).2.
Proof.
  intros W. split.
  - by apply createElementNS_wf.
  - rewrite createElementNS_new. by eexists.
  - unfold childrenOf. by rewrite createElementNS_new.
  - simpl. apply NoDup_singleton.
  - intros m n Hm. by apply elem_of_nil in Hm.
Qed.

Lemma tracings_inv_new parentSVGDoc w :
  doc_wf (document w) →
  tracings_inv (LiveSVGElementTracings.new parentSVGDoc w).1
               (LiveSVGElementTracings.new parentSVGDoc w).2.
Proof. intros W. by apply new_pool_inv. Qed.

Lemma highlightings_inv_new parentSVGDoc w :
  doc_wf (document w) →
  highlightings_inv
    (LiveSVGElementHighlightings.new (num:=num) parentSVGDoc w).1
    (LiveSVGElementHighlightings.new (num:=num) parentSVGDoc w).2.
Proof. intros W. by apply new_pool_inv. Qed.

Lemma exampleWorld_wf : doc_wf (document exampleWorld).
Proof. apply createElementNS_wf, createElementNS_wf, emptyDocument_wf. Qed.
End NewControllers.

(** ** Properties of the refresh pass *)

Section PoolGrowth.
  Context {num : Type} `{JSNumber num}.

(** C2.  In a state that satisfies the controller's invariant (it holds
    after construction and is kept by every call and notification), a
    refresh leaves max(previous pool length, target count) markers,
    the previous markers first and in their order, and all of them are the
    children of the root group; over any sequence of calls and
    notifications the pool only grows, by appending.  This holds for the
    controller built on [BoxTrace] and for the one built on
    [BoxHighlighting]. *)
Theorem pool_only_grows :
  (∀ a (env : Env num) this w,
     tracings_inv this w →
     ∃ this' w',
       LiveSVGElementTracings.refresh a env this w = Ok (this', w') ∧
       length (LiveSVGElementTracings.boxTraces this')
       = length (LiveSVGElementTracings.boxTraces this) `max` length (members env) ∧
       tracings_kept (this, w) (this', w') ∧
       childrenOf (document w') (LiveSVGElementTracings.domNode this')
       = BoxTrace.domNode <$> LiveSVGElementTracings.boxTraces this' ∧
       tracings_inv this' w') ∧
  (∀ a (acts : list (Action num)) s s',
     tracings_inv s.1 s.2 →
     LiveSVGElementTracings.run a acts s = Ok s' →
     tracings_kept s s' ∧
     length (LiveSVGElementTracings.boxTraces s.1)
     ≤ length (LiveSVGElementTracings.boxTraces s'.1)) ∧
  (∀ (env : Env num) this w,
     highlightings_inv this w →
     ∃ this' w',
       LiveSVGElementHighlightings.refresh env this w = Ok (this', w') ∧
       length (LiveSVGElementHighlightings.boxHighlightings this')
       = length (LiveSVGElementHighlightings.boxHighlightings this)
         `max` length (members env) ∧
       highlightings_kept (this, w) (this', w') ∧
       childrenOf (document w') (LiveSVGElementHighlightings.domNode this')
       = BoxHighlighting.domNode <$> LiveSVGElementHighlightings.boxHighlightings this' ∧
       highlightings_inv this' w') ∧
  (∀ (acts : list (Action num)) s s',
     highlightings_inv s.1 s.2 →
     LiveSVGElementHighlightings.run acts s = Ok s' →
     highlightings_kept s s' ∧
     length (LiveSVGElementHighlightings.boxHighlightings s.1)
     ≤ length (LiveSVGElementHighlightings.boxHighlightings s'.1)).
Proof.
  split_and!.
  - intros a env this w I.
    destruct (tracings_pass a env this w I)
      as (news & dg & w' & E & _ & _ & _ & Hlen & I' & _).
    eexists _, w'. split; [exact E|]. split_and!; try done.
    + split; [done|]. by apply prefix_app_r.
    + apply (Pool.inv_children _ _ _ _ _ I').
  - intros a acts s s' I Hrun.
    destruct (tracings_run_inv a acts s s' I Hrun) as [_ K]. split; [done|].
    destruct K as [_ P]. by apply prefix_length.
  - intros env this w I.
    destruct (highlightings_pass env this w I)
      as (news & dg & w' & E & _ & _ & _ & Hlen & _ & I' & _).
    eexists _, w'. split; [exact E|]. cbn. split_and!; try done.
    + by rewrite shown_length.
    + split; [done|]. cbn.
      rewrite (shown_nodesOf BoxHighlighting.nodesOf _ (highlight_update_nodesOf _)).
      rewrite fmap_app. by apply prefix_app_r.
    + apply (Pool.inv_children _ _ _ _ _ I').
  - intros acts s s' I Hrun.
    destruct (highlightings_run_inv acts s s' I Hrun) as [_ K]. split; [done|].
    destruct K as [_ P]. apply prefix_length in P. by rewrite !length_fmap in P.
Qed.
End PoolGrowth.

Lemma pool_only_grows_witness :
  tracings_inv exampleTracings.1 exampleTracings.2 ∧
  highlightings_inv exampleHighlightings.1 exampleHighlightings.2 ∧
  (∃ this' w',
     LiveSVGElementTracings.refresh BoxTrace.lightDark twoTargets
       exampleTracings.1 exampleTracings.2 = Ok (this', w') ∧
     length (LiveSVGElementTracings.boxTraces this') = 2) ∧
  (∃ this' w',
     LiveSVGElementHighlightings.refresh twoTargets
       exampleHighlightings.1 exampleHighlightings.2 = Ok (this', w') ∧
     length (LiveSVGElementHighlightings.boxHighlightings this') = 2).
Proof.
  pose proof (tracings_inv_new 0 exampleWorld exampleWorld_wf) as IT.
  pose proof (highlightings_inv_new (num:=Q) 0 exampleWorld exampleWorld_wf) as IH.
  destruct (pool_only_grows (num:=Q)) as (T & _ & B & _).
  split; [exact IT|]. split; [exact IH|]. split.
  - destruct (T BoxTrace.lightDark twoTargets _ _ IT) as (this' & w' & E & L & _).
    exists this', w'. split; [exact E|exact L].
  - destruct (B twoTargets _ _ IH) as (this' & w' & E & L & _).
    exists this', w'. split; [exact E|exact L].
Defined.

Section PassLemmas.
  Context {num : Type} `{JSNumber num}.

Lemma NoDup_join_elem (ls : list (list nat)) l :
  NoDup (mjoin ls) → l ∈ ls → NoDup l.
Proof.
  induction ls as [|l0 ls IH]; intros ND Hl; [by apply elem_of_nil in Hl|].
  simpl in ND. apply NoDup_app in ND as (ND0 & _ & ND').
  apply elem_of_cons in Hl as [->|Hl]; auto.
Qed.

Lemma inv_marker_nodup {M} (rootOf : M → nat) root (nodesOf : M → list nat) pool d m :
  Pool.inv rootOf root nodesOf pool d → m ∈ pool → NoDup (nodesOf m).
Proof.
  intros I Hm. pose proof (Pool.inv_nodup _ _ _ _ _ I) as [_ ND]%NoDup_cons.
  apply (NoDup_join_elem _ _ ND). apply list_elem_of_fmap. by exists m.
Qed.

Lemma failures_all_ok (targets : list (SVGGraphicsElement num)) :
  Forall (λ t, is_Ok (getBBox t)) targets → PoolModel.failures targets = [].
Proof.
  induction 1 as [|t ts [box Hb] _ IH]; [done|].
  by rewrite failures_cons, Hb.
Qed.

Lemma failures_one (targets : list (SVGGraphicsElement num)) j t e :
  targets !! j = Some t → getBBox t = Throw e →
  (∀ i t', i ≠ j → targets !! i = Some t' → is_Ok (getBBox t')) →
  PoolModel.failures targets = [e].
Proof.
  revert j. induction targets as [|t0 ts IH]; intros j Hj He Hothers; [done|].
  rewrite failures_cons. destruct j as [|j]; simpl in Hj.
  - injection Hj as ->. rewrite He. f_equal. apply failures_all_ok.
    apply Forall_lookup. intros i t' Hi. by apply (Hothers (S i)).
  - destruct (Hothers 0 t0) as [box Hb]; [done..|]. rewrite Hb.
    apply (IH j); [done..|]. intros i t' Hne Hi. apply (Hothers (S i)); [lia|done].
Qed.
End PassLemmas.

Section Shrink.
  Context {num : Type} `{JSNumber num}.

(** C3.  In a state that satisfies the controller's invariant, after a
    refresh in which every box query succeeds, the markers of
    the targets have opacity 1 and the markers beyond the target count have
    opacity 0; all of them are still children of the root group.  So when
    the set shrank from N to M < N members, the first M markers are shown
    and the other N - M hidden. *)
Theorem shrink_hides_leftover_markers :
  (∀ a (env : Env num) this w,
     tracings_inv this w →
     Forall (λ t, is_Ok (getBBox t)) (members env) →
     ∃ this' w',
       LiveSVGElementTracings.refresh a env this w = Ok (this', w') ∧
       length (LiveSVGElementTracings.boxTraces this')
       = length (LiveSVGElementTracings.boxTraces this) `max` length (members env) ∧
       ∀ i m, LiveSVGElementTracings.boxTraces this' !! i = Some m →
         getAttribute (document w') (BoxTrace.domNode m) "opacity"
         = Some (num_to_string
                   (num_lit (if decide (i < length (members env)) then 1 else 0) 0)) ∧
         parentOf (document w') (BoxTrace.domNode m)
         = Some (LiveSVGElementTracings.domNode this') ∧
         BoxTrace.domNode m
         ∈ childrenOf (document w') (LiveSVGElementTracings.domNode this')) ∧
  (∀ (env : Env num) this w,
     highlightings_inv this w →
     Forall (λ t, is_Ok (getBBox t)) (members env) →
     ∃ this' w',
       LiveSVGElementHighlightings.refresh env this w = Ok (this', w') ∧
       length (LiveSVGElementHighlightings.boxHighlightings this')
       = length (LiveSVGElementHighlightings.boxHighlightings this)
         `max` length (members env) ∧
       ∀ i m, LiveSVGElementHighlightings.boxHighlightings this' !! i = Some m →
         getAttribute (document w') (BoxHighlighting.domNode m) "opacity"
         = Some (num_to_string
                   (num_lit (if decide (i < length (members env)) then 1 else 0) 0)) ∧
         parentOf (document w') (BoxHighlighting.domNode m)
         = Some (LiveSVGElementHighlightings.domNode this') ∧
         BoxHighlighting.domNode m
         ∈ childrenOf (document w') (LiveSVGElementHighlightings.domNode this')).
Proof.
  split.
  - intros a env this w I Hok.
    destruct (tracings_pass a env this w I)
      as (news & dg & w' & E & _ & _ & _ & Hlen & I' & S & G & _ & Hattr & _).
    eexists _, w'. split; [exact E|]. split; [exact Hlen|]. cbn.
    intros i m Hi. apply list_elem_of_lookup_2 in Hi as Hm.
    split; [|by eapply inv_attached].
    rewrite (Hattr i m) by (done || by left).
    destruct (members env !! i) as [t|] eqn:Et.
    + rewrite (decide_True (P := i < length (members env)))
        by (by eapply lookup_lt_Some).
      rewrite Forall_forall in Hok.
      destruct (Hok t) as [box Hb]; [by eapply list_elem_of_lookup_2|]. rewrite Hb.
      destruct (trace_writes_last box m) as (_ & _ & ->); [|done].
      by eapply inv_marker_nodup.
    + rewrite (decide_False (P := i < length (members env)))
        by (apply lookup_ge_None in Et; lia).
      by rewrite decide_True.
  - intros env this w I Hok.
    destruct (highlightings_pass env this w I)
      as (news & dg & w' & E & _ & _ & _ & Hlen & Ig & I' & S & G & _ & Hattr & _).
    eexists _, w'. split; [exact E|]. cbn. rewrite shown_length.
    split; [exact Hlen|].
    intros i m' Hi. apply list_elem_of_lookup_2 in Hi as Hm'.
    split; [|by eapply inv_attached].
    destruct ((LiveSVGElementHighlightings.boxHighlightings this ++ news) !! i)
      as [m|] eqn:Em.
    2:{ apply lookup_ge_None in Em. apply lookup_lt_Some in Hi.
        rewrite shown_length in Hi. lia. }
    rewrite (shown_lookup _ _ _ _ _ Em) in Hi. injection Hi as Hi.
    assert (BoxHighlighting.domNode m' = BoxHighlighting.domNode m) as ->.
    { rewrite <- Hi. destruct (members env !! i) as [t|]; [|done]. by destruct (getBBox t). }
    rewrite (Hattr i m) by (done || by left).
    destruct (members env !! i) as [t|] eqn:Et.
    + rewrite (decide_True (P := i < length (members env)))
        by (by eapply lookup_lt_Some).
      rewrite Forall_forall in Hok.
      destruct (Hok t) as [box Hb]; [by eapply list_elem_of_lookup_2|]. rewrite Hb.
      destruct (highlight_writes_last
                  (num_div (num_lit 75 2) (horizontalScaling env)) box m)
        as (_ & _ & _ & _ & _ & _ & ->); [|done].
      eapply inv_marker_nodup; [exact Ig|]. by eapply list_elem_of_lookup_2.
    + rewrite (decide_False (P := i < length (members env)))
        by (apply lookup_ge_None in Et; lia).
      by rewrite decide_True.
Qed.
End Shrink.

Section OneFailure.
  Context {num : Type} `{JSNumber num}.

(** C1.  In a state that satisfies the controller's invariant, a refresh
    in which the box query of exactly one target, the one at index [j],
    throws: the refresh returns normally; the thrown value is
    the one entry added to the console; every other target's marker traces
    its box and has opacity 1; and the marker of the failed target is as
    before the refresh (a marker created in this very refresh has no
    geometry and no opacity yet). *)
Theorem refresh_survives_one_failure :
  (∀ a (env : Env num) this w j t e,
     tracings_inv this w →
     members env !! j = Some t → getBBox t = Throw e →
     (∀ i t', i ≠ j → members env !! i = Some t' → is_Ok (getBBox t')) →
     ∃ this' w',
       LiveSVGElementTracings.refresh a env this w = Ok (this', w') ∧
       console w' = console w ++ [e] ∧
       (∀ i t' box, i ≠ j → members env !! i = Some t' → getBBox t' = Ok box →
          ∃ m, LiveSVGElementTracings.boxTraces this' !! i = Some m ∧
            getAttribute (document w') (BoxTrace.lightDashing m) "d"
            = Some (path_to_string (perimeterPath box)) ∧
            getAttribute (document w') (BoxTrace.darkDashing m) "d"
            = Some (path_to_string (perimeterPath box)) ∧
            getAttribute (document w') (BoxTrace.domNode m) "opacity"
            = Some (num_to_string (num_lit 1 0))) ∧
       (∃ m, LiveSVGElementTracings.boxTraces this' !! j = Some m ∧
          match LiveSVGElementTracings.boxTraces this !! j with
          | Some m0 =>
              m = m0 ∧
              ∀ n k, n ∈ BoxTrace.nodesOf m →
                getAttribute (document w') n k = getAttribute (document w) n k
          | None => untouched (BoxTrace.nodesOf m) (document w')
          end)) ∧
  (∀ (env : Env num) this w j t e,
     highlightings_inv this w →
     members env !! j = Some t → getBBox t = Throw e →
     (∀ i t', i ≠ j → members env !! i = Some t' → is_Ok (getBBox t')) →
     ∃ this' w',
       LiveSVGElementHighlightings.refresh env this w = Ok (this', w') ∧
       console w' = console w ++ [e] ∧
       (∀ i t' box, i ≠ j → members env !! i = Some t' → getBBox t' = Ok box →
          ∃ m, LiveSVGElementHighlightings.boxHighlightings this' !! i = Some m ∧
            BoxHighlighting.highlightedBox m = Some (Box.matching box) ∧
            getAttribute (document w') (BoxHighlighting.boxTrace m) "d"
            = Some (path_to_string (perimeterPath box)) ∧
            getAttribute (document w') (BoxHighlighting.topLeftCornerBox m) "d"
            = Some (BoxHighlighting.cornerBoxD m
                      (mkPoint (Box.minX box) (Box.minY box))) ∧
            getAttribute (document w') (BoxHighlighting.topRightCornerBox m) "d"
            = Some (BoxHighlighting.cornerBoxD m
                      (mkPoint (Box.maxX box) (Box.minY box))) ∧
            getAttribute (document w') (BoxHighlighting.bottomRightCornerBox m) "d"
            = Some (BoxHighlighting.cornerBoxD m
                      (mkPoint (Box.maxX box) (Box.maxY box))) ∧
            getAttribute (document w') (BoxHighlighting.bottomLeftCornerBox m) "d"
            = Some (BoxHighlighting.cornerBoxD m
                      (mkPoint (Box.minX box) (Box.maxY box))) ∧
            getAttribute (document w') (BoxHighlighting.domNode m) "opacity"
            = Some (num_to_string (num_lit 1 0))) ∧
       (∃ m, LiveSVGElementHighlightings.boxHighlightings this' !! j = Some m ∧
          match LiveSVGElementHighlightings.boxHighlightings this !! j with
          | Some m0 =>
              m = m0 ∧
              ∀ n k, n ∈ BoxHighlighting.nodesOf m →
                getAttribute (document w') n k = getAttribute (document w) n k
          | None => untouched (BoxHighlighting.nodesOf m) (document w')
          end)).
Proof.
  split.
  - intros a env this w j t e I Hj He Hothers.
    destruct (tracings_pass a env this w I)
      as (news & dg & w' & E & Hcon & _ & _ & Hlen & I' & S & G & Hnews & Hattr & _).
    eexists _, w'. split; [exact E|]. cbn.
    split; [by rewrite Hcon, (failures_one _ j t e)|].
    assert (∀ i, i < length (members env) →
              is_Some ((LiveSVGElementTracings.boxTraces this ++ news) !! i)) as Hpool.
    { intros i Hi. apply lookup_lt_is_Some. lia. }
    split.
    + intros i t' box Hne Hi Hb.
      destruct (Hpool i) as [m Hm]; [by eapply lookup_lt_Some|].
      exists m. split; [done|].
      assert (NoDup (BoxTrace.nodesOf m)) as ND.
      { eapply inv_marker_nodup; [exact I'|]. by eapply list_elem_of_lookup_2. }
      destruct (trace_writes_last box m ND) as (L1 & L2 & L3).
      rewrite !(Hattr i m) by (done || (unfold BoxTrace.nodesOf; in_list)).
      rewrite Hi, Hb, L1, L2, L3. done.
    + destruct (Hpool j) as [m Hm]; [by eapply lookup_lt_Some|].
      exists m. split; [done|].
      assert (∀ n k, n ∈ BoxTrace.nodesOf m →
                getAttribute (document w') n k = getAttribute dg n k) as Hkeep.
      { intros n k Hn. rewrite (Hattr j m) by done. by rewrite Hj, He. }
      destruct (LiveSVGElementTracings.boxTraces this !! j) as [m0|] eqn:E0.
      * rewrite (lookup_app_l_Some _ _ _ _ E0) in Hm. injection Hm as ->.
        split; [done|]. intros n k Hn. rewrite Hkeep by done.
        unfold getAttribute.
        rewrite (grown_from_marker BoxTrace.domNode _ BoxTrace.nodesOf
                   _ (document w) dg m n I G); [done| |done].
        by eapply list_elem_of_lookup_2.
      * apply lookup_ge_None in E0. rewrite lookup_app_r in Hm by done.
        destruct (Hnews m) as [_ U]; [by eapply list_elem_of_lookup_2|].
        intros n Hn. rewrite !Hkeep by done. by apply U.
  - intros env this w j t e I Hj He Hothers.
    destruct (highlightings_pass env this w I)
      as (news & dg & w' & E & Hcon & _ & _ & Hlen & Ig & I' & S & G & Hnews & Hattr & _).
    eexists _, w'. split; [exact E|]. cbn.
    split; [by rewrite Hcon, (failures_one _ j t e)|].
    assert (∀ i, i < length (members env) →
              is_Some ((LiveSVGElementHighlightings.boxHighlightings this ++ news) !! i))
      as Hpool.
    { intros i Hi. apply lookup_lt_is_Some. lia. }
    split.
    + intros i t' box Hne Hi Hb.
      destruct (Hpool i) as [m Hm]; [by eapply lookup_lt_Some|].
      eexists. rewrite (shown_lookup _ _ _ _ _ Hm), Hi, Hb. split; [done|].
      assert (NoDup (BoxHighlighting.nodesOf m)) as ND.
      { eapply inv_marker_nodup; [exact Ig|]. by eapply list_elem_of_lookup_2. }
      destruct (highlight_writes_last
                  (num_div (num_lit 75 2) (horizontalScaling env)) box m ND)
        as (L1 & L2 & L3 & L4 & L5 & _ & L7).
      split; [done|]. cbn.
      rewrite !(Hattr i m)
        by (done || (unfold BoxHighlighting.nodesOf, BoxHighlighting.cornerBoxes; in_list)).
      rewrite Hi, Hb, L1, L2, L3, L4, L5, L7. done.
    + destruct (Hpool j) as [m Hm]; [by eapply lookup_lt_Some|].
      exists m. rewrite (shown_lookup _ _ _ _ _ Hm), Hj, He. split; [done|].
      assert (∀ n k, n ∈ BoxHighlighting.nodesOf m →
                getAttribute (document w') n k = getAttribute dg n k) as Hkeep.
      { intros n k Hn. rewrite (Hattr j m) by done. by rewrite Hj, He. }
      destruct (LiveSVGElementHighlightings.boxHighlightings this !! j) as [m0|] eqn:E0.
      * rewrite (lookup_app_l_Some _ _ _ _ E0) in Hm. injection Hm as ->.
        split; [done|]. intros n k Hn. rewrite Hkeep by done.
        unfold getAttribute.
        rewrite (grown_from_marker BoxHighlighting.domNode _ BoxHighlighting.nodesOf
                   _ (document w) dg m n I G); [done| |done].
        by eapply list_elem_of_lookup_2.
      * apply lookup_ge_None in E0. rewrite lookup_app_r in Hm by done.
        destruct (Hnews m) as [_ U]; [by eapply list_elem_of_lookup_2|].
        intros n Hn. rewrite !Hkeep by done. by apply U.
Qed.
End OneFailure.

Section LineThickness.
  Context {num : Type} `{JSNumber num}.

Lemma highlightings_thickness (env : Env num) this w :
  highlightings_inv this w →
  ∃ this' w',
    LiveSVGElementHighlightings.refresh env this w = Ok (this', w') ∧
    highlightings_inv this' w' ∧
    ∀ i t box, members env !! i = Some t → getBBox t = Ok box →
      ∃ m, LiveSVGElementHighlightings.boxHighlightings this' !! i = Some m ∧
        BoxHighlighting.lineThickness m
        = num_div (num_lit 75 2) (horizontalScaling env) ∧
        ∀ ele, ele ∈ BoxHighlighting.boxTrace m :: BoxHighlighting.cornerBoxes m →
          getAttribute (document w') ele "stroke-width"
          = Some (num_to_string (num_div (num_lit 75 2) (horizontalScaling env))).
Proof.
  intros I.
  destruct (highlightings_pass env this w I)
    as (news & dg & w' & E & _ & _ & _ & Hlen & Ig & I' & _ & _ & _ & Hattr & _).
  eexists _, w'. split; [exact E|]. split; [exact I'|]. cbn.
  intros i t box Hi Hb.
  destruct ((LiveSVGElementHighlightings.boxHighlightings this ++ news) !! i)
    as [m|] eqn:Hm.
  2:{ apply lookup_ge_None in Hm. apply lookup_lt_Some in Hi. lia. }
  eexists. rewrite (shown_lookup _ _ _ _ _ Hm), Hi, Hb. split; [done|].
  split; [done|]. intros ele Hele.
  assert (NoDup (BoxHighlighting.nodesOf m)) as ND.
  { eapply inv_marker_nodup; [exact Ig|]. by eapply list_elem_of_lookup_2. }
  destruct (highlight_writes_last
              (num_div (num_lit 75 2) (horizontalScaling env)) box m ND)
    as (_ & _ & _ & _ & _ & L & _).
  rewrite (Hattr i m); [|done|by right].
  by rewrite Hi, Hb, (L ele Hele).
Qed.

(** C5.  In every refresh of the controller built on [BoxHighlighting], in
    a state that satisfies its invariant, the
    line thickness given to the marker of each target whose box was
    obtained is 0.75 divided by the horizontal scaling read in that
    refresh, and so is the stroke width of its five paths.  Nothing of an
    earlier reading is kept: in a refresh that follows, the thickness is
    0.75 divided by the reading of that refresh. *)
Theorem line_thickness_follows_scaling (env env2 : Env num) this w :
  highlightings_inv this w →
  ∃ this' w',
    LiveSVGElementHighlightings.refresh env this w = Ok (this', w') ∧
    (∀ i t box, members env !! i = Some t → getBBox t = Ok box →
       ∃ m, LiveSVGElementHighlightings.boxHighlightings this' !! i = Some m ∧
         BoxHighlighting.lineThickness m
         = num_div (num_lit 75 2) (horizontalScaling env) ∧
         ∀ ele, ele ∈ BoxHighlighting.boxTrace m :: BoxHighlighting.cornerBoxes m →
           getAttribute (document w') ele "stroke-width"
           = Some (num_to_string (num_div (num_lit 75 2) (horizontalScaling env)))) ∧
    ∃ this'' w'',
      LiveSVGElementHighlightings.refresh env2 this' w' = Ok (this'', w'') ∧
      (∀ i t box, members env2 !! i = Some t → getBBox t = Ok box →
         ∃ m, LiveSVGElementHighlightings.boxHighlightings this'' !! i = Some m ∧
           BoxHighlighting.lineThickness m
           = num_div (num_lit 75 2) (horizontalScaling env2) ∧
           ∀ ele, ele ∈ BoxHighlighting.boxTrace m :: BoxHighlighting.cornerBoxes m →
             getAttribute (document w'') ele "stroke-width"
             = Some (num_to_string (num_div (num_lit 75 2) (horizontalScaling env2)))).
Proof.
  intros I.
  destruct (highlightings_thickness env this w I) as (this' & w' & E & I' & T).
  exists this', w'. split; [exact E|]. split; [exact T|].
  destruct (highlightings_thickness env2 this' w' I') as (this'' & w'' & E' & _ & T').
  exists this'', w''. by split.
Qed.
End LineThickness.

(** ** The geometry of the markers *)

Section MarkerGeometry.
  Context {num : Type} `{JSNumber num}.

Lemma getAttribute_setAttribute_eq n k v d :
  is_Some (nodes d !! n) → getAttribute (setAttribute n k v d) n k = Some v.
Proof.
  intros [e He]. rewrite getAttribute_setAttribute, decide_True by done.
  by rewrite He.
Qed.

Lemma getAttribute_setAttribute_ne n k v d m k' :
  n ≠ m ∨ k ≠ k' →
  getAttribute (setAttribute n k v d) m k' = getAttribute d m k'.
Proof.
  intros Hne. rewrite getAttribute_setAttribute, decide_False; [done|]. tauto.
Qed.

Lemma setAttribute_is_Some n k v d m :
  is_Some (nodes (setAttribute n k v d) !! m) ↔ is_Some (nodes d !! m).
Proof. apply same_structure_is_Some, setAttribute_same_structure. Qed.

Lemma apply_writes_again ws d n k :
  getAttribute (apply_writes ws (apply_writes ws d)) n k
  = getAttribute (apply_writes ws d) n k.
Proof.
  rewrite !getAttribute_apply_writes.
  destruct (last_write n k ws) as [v|]; [|done].
  pose proof (apply_writes_is_Some ws d n) as Hex.
  destruct (nodes (apply_writes ws d) !! n), (nodes d !! n); try done.
  - destruct Hex as [[? ?] _]; done.
  - destruct Hex as [_ [? ?]]; done.
Qed.

Lemma trace_writes (box : BoxLike num) m d :
  BoxTrace.trace m box d
  = apply_writes
      [ mkWrite (BoxTrace.lightDashing m) "d" (path_to_string (perimeterPath box));
        mkWrite (BoxTrace.darkDashing m) "d" (path_to_string (perimeterPath box)) ] d.
Proof. unfold BoxTrace.trace. cbn zeta. by rewrite perimeter_string. Qed.

Lemma perimeter_vertices (box : BoxLike num) :
  vertices (perimeterPath box)
  = [ mkPoint (Box.minX box) (Box.minY box);
      mkPoint (Box.maxX box) (Box.minY box);
      mkPoint (Box.maxX box) (Box.maxY box);
      mkPoint (num_add (Box.maxX box) (num_neg (width box))) (Box.maxY box) ].
Proof. done. Qed.

(** The last values [highlight] writes. *)
Lemma highlight_only_last (box : BoxLike num) (m : BoxHighlighting.t num) :
  NoDup (BoxHighlighting.nodesOf m) →
  let ws := HighlightPool.highlight_writes box m in
  last_write (BoxHighlighting.boxTrace m) "d" ws
  = Some (path_to_string (perimeterPath box)) ∧
  last_write (BoxHighlighting.topLeftCornerBox m) "d" ws
  = Some (BoxHighlighting.cornerBoxD m (mkPoint (Box.minX box) (Box.minY box))) ∧
  last_write (BoxHighlighting.topRightCornerBox m) "d" ws
  = Some (BoxHighlighting.cornerBoxD m (mkPoint (Box.maxX box) (Box.minY box))) ∧
  last_write (BoxHighlighting.bottomRightCornerBox m) "d" ws
  = Some (BoxHighlighting.cornerBoxD m (mkPoint (Box.maxX box) (Box.maxY box))) ∧
  last_write (BoxHighlighting.bottomLeftCornerBox m) "d" ws
  = Some (BoxHighlighting.cornerBoxD m (mkPoint (Box.minX box) (Box.maxY box))).
Proof.
  intros ND ws. unfold BoxHighlighting.nodesOf, BoxHighlighting.cornerBoxes in ND.
  distinct_nodes. unfold ws, HighlightPool.highlight_writes.
  cbn [last_write wnode wkey wvalue]. split_and!; by last_write_steps.
Qed.

(** C6, as amended.  [trace] gives both dashings, and [highlight] gives the
    box trace, the path data [M x y h width v height h -width z]: the
    outline through the corners of the box, where the last number is the
    negated width as a template literal prints it.  [highlight] gives the
    four corner boxes the path data of [cornerBoxD] instead.  Applying the
    same box again changes no attribute. *)
Theorem outline_path_data (box : BoxLike num) (t : BoxTrace.t)
    (h : BoxHighlighting.t num) (d : Document) :
  (∀ n, n ∈ BoxTrace.nodesOf t → is_Some (nodes d !! n)) →
  (∀ n, n ∈ BoxHighlighting.nodesOf h → is_Some (nodes d !! n)) →
  NoDup (BoxHighlighting.nodesOf h) →
  let outline :=
    "M " +:+ num_to_string (x box) +:+ " " +:+ num_to_string (y box)
    +:+ " h " +:+ num_to_string (width box)
    +:+ " v " +:+ num_to_string (height box)
    +:+ " h " +:+ num_to_string (num_neg (width box)) +:+ " z" in
  let h' := (BoxHighlighting.highlight box h d).1 in
  let d' := (BoxHighlighting.highlight box h d).2 in
  outline = path_to_string (perimeterPath box) ∧
  vertices (perimeterPath box)
  = [ mkPoint (Box.minX box) (Box.minY box);
      mkPoint (Box.maxX box) (Box.minY box);
      mkPoint (Box.maxX box) (Box.maxY box);
      mkPoint (num_add (Box.maxX box) (num_neg (width box))) (Box.maxY box) ] ∧
  getAttribute (BoxTrace.trace t box d) (BoxTrace.lightDashing t) "d" = Some outline ∧
  getAttribute (BoxTrace.trace t box d) (BoxTrace.darkDashing t) "d" = Some outline ∧
  (∀ n k, getAttribute (BoxTrace.trace t box (BoxTrace.trace t box d)) n k
          = getAttribute (BoxTrace.trace t box d) n k) ∧
  getAttribute d' (BoxHighlighting.boxTrace h) "d" = Some outline ∧
  getAttribute d' (BoxHighlighting.topLeftCornerBox h) "d"
  = Some (BoxHighlighting.cornerBoxD h (mkPoint (Box.minX box) (Box.minY box))) ∧
  getAttribute d' (BoxHighlighting.topRightCornerBox h) "d"
  = Some (BoxHighlighting.cornerBoxD h (mkPoint (Box.maxX box) (Box.minY box))) ∧
  getAttribute d' (BoxHighlighting.bottomRightCornerBox h) "d"
  = Some (BoxHighlighting.cornerBoxD h (mkPoint (Box.maxX box) (Box.maxY box))) ∧
  getAttribute d' (BoxHighlighting.bottomLeftCornerBox h) "d"
  = Some (BoxHighlighting.cornerBoxD h (mkPoint (Box.minX box) (Box.maxY box))) ∧
  BoxHighlighting.highlightedBox h' = Some (Box.matching box) ∧
  (BoxHighlighting.highlight box h' d').1 = h' ∧
  (∀ n k, getAttribute (BoxHighlighting.highlight box h' d').2 n k
          = getAttribute d' n k).
Proof.
  intros Ht Hh ND outline h' d'.
  assert (outline = path_to_string (perimeterPath box)) as Eo
    by apply perimeter_string.
  split; [done|]. split; [done|].
  assert (∀ n, n ∈ BoxTrace.nodesOf t →
            nodes d !! n ≫= (λ _, Some outline) = Some outline) as Ht'.
  { intros n Hn. by destruct (Ht n Hn) as [e ->]. }
  assert (∀ n (v : string), n ∈ BoxHighlighting.nodesOf h →
            nodes d !! n ≫= (λ _, Some v) = Some v) as Hh'.
  { intros n v Hn. by destruct (Hh n Hn) as [e ->]. }
  destruct (highlight_only_last box h ND) as (L1 & L2 & L3 & L4 & L5).
  split_and!.
  - rewrite trace_writes, getAttribute_apply_writes. cbn [last_write wnode wkey wvalue].
    rewrite <- Eo. unfold BoxTrace.nodesOf in Ht'.
    destruct (decide (BoxTrace.darkDashing t = BoxTrace.lightDashing t ∧ "d" = "d"));
      [|rewrite decide_True by done]; apply Ht'; in_list.
  - rewrite trace_writes, getAttribute_apply_writes. cbn [last_write wnode wkey wvalue].
    rewrite <- Eo. rewrite decide_True by done. apply Ht'.
    unfold BoxTrace.nodesOf. in_list.
  - intros n k. rewrite !trace_writes. apply apply_writes_again.
  - unfold d'. rewrite highlight_spec. cbn [snd]. rewrite getAttribute_apply_writes, L1, <- Eo.
    apply Hh'. unfold BoxHighlighting.nodesOf. in_list.
  - unfold d'. rewrite highlight_spec. cbn [snd]. rewrite getAttribute_apply_writes, L2.
    apply Hh'. unfold BoxHighlighting.nodesOf, BoxHighlighting.cornerBoxes. in_list.
  - unfold d'. rewrite highlight_spec. cbn [snd]. rewrite getAttribute_apply_writes, L3.
    apply Hh'. unfold BoxHighlighting.nodesOf, BoxHighlighting.cornerBoxes. in_list.
  - unfold d'. rewrite highlight_spec. cbn [snd]. rewrite getAttribute_apply_writes, L4.
    apply Hh'. unfold BoxHighlighting.nodesOf, BoxHighlighting.cornerBoxes. in_list.
  - unfold d'. rewrite highlight_spec. cbn [snd]. rewrite getAttribute_apply_writes, L5.
    apply Hh'. unfold BoxHighlighting.nodesOf, BoxHighlighting.cornerBoxes. in_list.
  - done.
  - unfold h', d'. by destruct h.
  - intros n k. unfold h', d'. rewrite !highlight_spec. cbn [fst snd].
    replace (HighlightPool.highlight_writes box
               (BoxHighlighting.with_highlightedBox (Some (Box.matching box)) h))
      with (HighlightPool.highlight_writes box h) by (by destruct h).
    apply apply_writes_again.
Qed.
End MarkerGeometry.

(** C6, counterexample.  A [BoxHighlighting] with line thickness 4 around
    the box at the origin of width and height 10: its box trace has the
    outline as path data, but the top left corner box, which is a stroked
    path of the marker as well, has not. *)
Lemma corner_boxes_do_not_trace_the_outline :
  ∃ m d,
    highlightedSmallBox = Ok (m, d) ∧
    BoxHighlighting.topLeftCornerBox m
    ∈ BoxHighlighting.boxTrace m :: BoxHighlighting.cornerBoxes m ∧
    getAttribute d (BoxHighlighting.topLeftCornerBox m) "stroke" = Some "blue" ∧
    path_to_string (perimeterPath smallBox) = "M 0 0 h 10 v 10 h -10 z" ∧
    getAttribute d (BoxHighlighting.boxTrace m) "d" = Some "M 0 0 h 10 v 10 h -10 z" ∧
    getAttribute d (BoxHighlighting.topLeftCornerBox m) "d"
    = Some "M -4 -4 h 4 v 4 h -4 z" ∧
    getAttribute d (BoxHighlighting.topLeftCornerBox m) "d"
    ≠ Some (path_to_string (perimeterPath smallBox)).
Proof.
  eexists _, _. split; [vm_compute; reflexivity|].
  split; [right; left|]. by vm_compute.
Qed.

Lemma outline_path_data_witness :
  ∃ t h d,
    (∀ n, n ∈ BoxTrace.nodesOf t → is_Some (nodes d !! n)) ∧
    (∀ n, n ∈ BoxHighlighting.nodesOf h → is_Some (nodes d !! n)) ∧
    NoDup (BoxHighlighting.nodesOf h) ∧
    getAttribute (BoxTrace.trace t largeBox d) (BoxTrace.lightDashing t) "d"
    = Some "M -22 84 h 501 v 221 h -501 z" ∧
    getAttribute (BoxTrace.trace t largeBox d) (BoxTrace.darkDashing t) "d"
    = Some "M -22 84 h 501 v 221 h -501 z" ∧
    getAttribute (BoxHighlighting.highlight largeBox h d).2 (BoxHighlighting.boxTrace h) "d"
    = Some "M -22 84 h 501 v 221 h -501 z".
Proof.
  destruct (BoxTrace_new_spec BoxTrace.lightDark emptyDocument emptyDocument_wf)
    as (t & d1 & _ & W1 & _ & _ & Ht & _).
  destruct (BoxHighlighting_new_spec (num:=Q) d1 W1)
    as (h & d & _ & _ & _ & Hold & Hh & ND & _).
  exists t, h, d.
  assert (∀ n, n ∈ BoxTrace.nodesOf t → is_Some (nodes d !! n)) as Ht'.
  { intros n Hn. destruct (Ht n Hn) as [_ Hex].
    rewrite Hold; [exact Hex|].
    apply (wf_bound d1 W1 n Hex). }
  assert (∀ n, n ∈ BoxHighlighting.nodesOf h → is_Some (nodes d !! n)) as Hh'.
  { intros n Hn. apply (Hh n Hn). }
  destruct (outline_path_data largeBox t h d Ht' Hh' ND)
    as (_ & _ & T1 & T2 & _ & B & _).
  split; [exact Ht'|]. split; [exact Hh'|]. split; [exact ND|].
  split; [exact T1|]. split; [exact T2|exact B].
Defined.

Section CornerBoxes.
  Context {num : Type} `{JSNumber num}.

(** The square [cornerBoxD] draws for a point: it starts one side length
    to the left of and above the point and comes back to it. *)
Lemma cornerBox_vertices (m : BoxHighlighting.t num) (c : Point num) :
  let side := num_mul (num_lit 2 0) (num_pow (BoxHighlighting.lineThickness m) (num_lit 5 1)) in
  let left := num_sub (px c) side in
  let top := num_sub (py c) side in
  vertices (BoxHighlighting.cornerBoxPath m c)
  = [ mkPoint left top;
      mkPoint (num_add left side) top;
      mkPoint (num_add left side) (num_add top side);
      mkPoint (num_add (num_add left side)
                 (num_mul (num_neg (num_lit 2 0))
                    (num_pow (BoxHighlighting.lineThickness m) (num_lit 5 1))))
              (num_add top side) ].
Proof. done. Qed.
End CornerBoxes.

(** C4, at the failing input.  With line thickness 4 the corner box drawn
    for the corner (0, 0) of the highlighted box is the square with vertices
    (-4, -4), (0, -4), (0, 0) and (-4, 0): its side is 2 * 4 ** 0.5 = 4, the
    corner of the box is its bottom right vertex, and its centre is
    (-2, -2). *)
Theorem corner_box_ends_at_the_corner :
  ∃ m d,
    highlightedSmallBox = Ok (m, d) ∧
    BoxHighlighting.lineThickness m = num_lit 4 0 ∧
    mkPoint (Box.minX smallBox) (Box.minY smallBox) = mkPoint (num_lit 0 0) (num_lit 0 0) ∧
    getAttribute d (BoxHighlighting.topLeftCornerBox m) "d"
    = Some (BoxHighlighting.cornerBoxD m (mkPoint (num_lit 0 0) (num_lit 0 0))) ∧
    BoxHighlighting.cornerBoxD m (mkPoint (num_lit 0 0) (num_lit 0 0))
    = "M -4 -4 h 4 v 4 h -4 z" ∧
    BoxHighlighting.cornerBoxD m (mkPoint (num_lit 0 0) (num_lit 0 0))
    = path_to_string (BoxHighlighting.cornerBoxPath m (mkPoint (num_lit 0 0) (num_lit 0 0))) ∧
    vertices (BoxHighlighting.cornerBoxPath m (mkPoint (num_lit 0 0) (num_lit 0 0)))
    = [ mkPoint (num_lit (-4) 0) (num_lit (-4) 0);
        mkPoint (num_lit 0 0) (num_lit (-4) 0);
        mkPoint (num_lit 0 0) (num_lit 0 0);
        mkPoint (num_lit (-4) 0) (num_lit 0 0) ] ∧
    num_div (num_add (num_lit (-4) 0) (num_lit 0 0)) (num_lit 2 0) = num_lit (-2) 0.
Proof.
  eexists _, _. split; [vm_compute; reflexivity|]. by vm_compute.
Qed.

Section Thickness.
  Context {num : Type} `{JSNumber num}.

(** What [setThickness] and the [lineThickness] setter write, in terms of
    the methods themselves: the setter gives the five paths the stroke
    width and, when a box has been highlighted, runs [highlight] for that
    box with the new thickness in place. *)
Lemma setter_runs_highlight (thickness : num) (t : BoxTrace.t)
    (h : BoxHighlighting.t num) (d : Document) :
  (∀ n, n ∈ BoxTrace.nodesOf t → is_Some (nodes d !! n)) →
  (∀ n, n ∈ BoxHighlighting.nodesOf h → is_Some (nodes d !! n)) →
  NoDup (BoxHighlighting.nodesOf h) →
  let h' := (BoxHighlighting.set_lineThickness thickness h d).1 in
  let d' := (BoxHighlighting.set_lineThickness thickness h d).2 in
  getAttribute (BoxTrace.setThickness t thickness d) (BoxTrace.lightDashing t)
    "stroke-width" = Some (num_to_string thickness) ∧
  getAttribute (BoxTrace.setThickness t thickness d) (BoxTrace.darkDashing t)
    "stroke-width" = Some (num_to_string thickness) ∧
  BoxHighlighting.lineThickness h' = thickness ∧
  (∀ ele, ele ∈ BoxHighlighting.boxTrace h :: BoxHighlighting.cornerBoxes h →
     getAttribute d' ele "stroke-width" = Some (num_to_string thickness)) ∧
  match BoxHighlighting.highlightedBox h with
  | Some box =>
      (h', d')
      = BoxHighlighting.highlight box
          (BoxHighlighting.with_lineThickness thickness h)
          (forEach (λ ele d, setAttribute ele "stroke-width" (num_to_string thickness) d)
             (BoxHighlighting.boxTrace h :: BoxHighlighting.cornerBoxes h) d) ∧
      getAttribute d' (BoxHighlighting.boxTrace h) "d"
      = Some (path_to_string (perimeterPath box)) ∧
      getAttribute d' (BoxHighlighting.topLeftCornerBox h) "d"
      = Some (BoxHighlighting.cornerBoxD h' (mkPoint (Box.minX box) (Box.minY box))) ∧
      getAttribute d' (BoxHighlighting.topRightCornerBox h) "d"
      = Some (BoxHighlighting.cornerBoxD h' (mkPoint (Box.maxX box) (Box.minY box))) ∧
      getAttribute d' (BoxHighlighting.bottomRightCornerBox h) "d"
      = Some (BoxHighlighting.cornerBoxD h' (mkPoint (Box.maxX box) (Box.maxY box))) ∧
      getAttribute d' (BoxHighlighting.bottomLeftCornerBox h) "d"
      = Some (BoxHighlighting.cornerBoxD h' (mkPoint (Box.minX box) (Box.maxY box)))
  | None =>
      BoxHighlighting.highlightedBox h' = None ∧
      ∀ n k, k ≠ "stroke-width" → getAttribute d' n k = getAttribute d n k
  end.
Proof.
  intros Ht Hh ND h' d'.
  assert (∀ n (v : string), n ∈ BoxHighlighting.nodesOf h →
            nodes d !! n ≫= (λ _, Some v) = Some v) as Hh'.
  { intros n v Hn. by destruct (Hh n Hn) as [e ->]. }
  split_and!.
  - unfold BoxTrace.setThickness. cbn zeta.
    destruct (decide (BoxTrace.darkDashing t = BoxTrace.lightDashing t)) as [E|E].
    + rewrite E. apply getAttribute_setAttribute_eq, setAttribute_is_Some, Ht.
      unfold BoxTrace.nodesOf. in_list.
    + rewrite getAttribute_setAttribute_ne by auto.
      apply getAttribute_setAttribute_eq, Ht. unfold BoxTrace.nodesOf. in_list.
  - unfold BoxTrace.setThickness. cbn zeta.
    apply getAttribute_setAttribute_eq, setAttribute_is_Some, Ht.
    unfold BoxTrace.nodesOf. in_list.
  - unfold h'. rewrite set_lineThickness_spec. by destruct h.
  - intros ele Hele. unfold d'. rewrite set_lineThickness_spec. cbn [snd].
    rewrite getAttribute_apply_writes, last_write_app.
    rewrite (last_write_key_other ele "stroke-width"
               (match BoxHighlighting.highlightedBox h with
                | Some box => _ | None => [] end)).
    2:{ destruct (BoxHighlighting.highlightedBox h); [|apply Forall_nil_2].
        unfold HighlightPool.highlight_writes.
        repeat (apply Forall_cons; split; [done|]). apply Forall_nil_2. }
    assert (ele ∈ BoxHighlighting.nodesOf h) as Hin by (by right).
    destruct h as [g bt tl tr br bl t0 hb].
    unfold HighlightPool.thickness_writes, BoxHighlighting.nodesOf,
      BoxHighlighting.cornerBoxes in *.
    cbn [BoxHighlighting.domNode BoxHighlighting.boxTrace
         BoxHighlighting.topLeftCornerBox BoxHighlighting.topRightCornerBox
         BoxHighlighting.bottomRightCornerBox BoxHighlighting.bottomLeftCornerBox
         fmap list_fmap] in *.
    distinct_nodes. cbn [last_write wnode wkey wvalue].
    rewrite !elem_of_cons in Hele.
    repeat destruct Hele as [->|Hele];
      first [by apply elem_of_nil in Hele | last_write_steps; apply Hh'; in_list].
  - destruct (BoxHighlighting.highlightedBox h) as [box|] eqn:Eb.
    + assert ((h', d')
              = BoxHighlighting.highlight box
                  (BoxHighlighting.with_lineThickness thickness h)
                  (forEach (λ ele d, setAttribute ele "stroke-width"
                                       (num_to_string thickness) d)
                     (BoxHighlighting.boxTrace h :: BoxHighlighting.cornerBoxes h) d))
        as E.
      { unfold h', d', BoxHighlighting.set_lineThickness. cbn zeta.
        destruct h; cbn in *. by rewrite Eb. }
      split; [exact E|].
      assert (BoxHighlighting.cornerBoxD h' = BoxHighlighting.cornerBoxD
                (BoxHighlighting.with_lineThickness thickness h)) as ->.
      { unfold h'. rewrite set_lineThickness_spec. by destruct h. }
      unfold d'. rewrite set_lineThickness_spec. cbn [snd]. rewrite Eb.
      assert (∀ n v,
                n ∈ BoxHighlighting.boxTrace h :: BoxHighlighting.cornerBoxes h →
                last_write n "d"
                  (HighlightPool.highlight_writes box
                     (BoxHighlighting.with_lineThickness thickness h)) = Some v →
                getAttribute
                  (apply_writes
                     (HighlightPool.thickness_writes thickness h
                      ++ HighlightPool.highlight_writes box
                           (BoxHighlighting.with_lineThickness thickness h)) d) n "d"
                = Some v) as Hd.
      { intros n v Hn Hl. rewrite getAttribute_apply_writes, last_write_app, Hl.
        apply Hh'. by right. }
      destruct h as [g bt tl tr br bl t0 hb].
      unfold BoxHighlighting.nodesOf, BoxHighlighting.cornerBoxes in *.
      cbn [BoxHighlighting.domNode BoxHighlighting.boxTrace
           BoxHighlighting.topLeftCornerBox BoxHighlighting.topRightCornerBox
           BoxHighlighting.bottomRightCornerBox BoxHighlighting.bottomLeftCornerBox
           BoxHighlighting.with_lineThickness] in *.
      distinct_nodes.
      split_and!; (apply Hd; [in_list|]); unfold HighlightPool.highlight_writes;
        cbn [last_write wnode wkey wvalue BoxHighlighting.boxTrace
             BoxHighlighting.topLeftCornerBox BoxHighlighting.topRightCornerBox
             BoxHighlighting.bottomRightCornerBox BoxHighlighting.bottomLeftCornerBox
             BoxHighlighting.with_lineThickness];
        by last_write_steps.
    + split.
      * unfold h'. rewrite set_lineThickness_spec. destruct h; cbn in *. done.
      * intros n k Hk. unfold d'. rewrite set_lineThickness_spec. cbn [snd].
        rewrite Eb, app_nil_r, getAttribute_apply_writes.
        rewrite last_write_key_other; [done|].
        unfold HighlightPool.thickness_writes. apply Forall_fmap, Forall_forall.
        intros ele _. simpl. congruence.
Qed.
(** C7.  [setThickness] of a [BoxTrace] gives both dashings the stroke
    width [`${thickness}`].  The [lineThickness] setter of a
    [BoxHighlighting] records the thickness and gives the box trace and the
    four corner boxes that stroke width.  When a box has been highlighted,
    the setter writes the path data again for that box: the outline is the
    one of the box, and each corner box is the square of side
    [2 * thickness ** 0.5] that starts one side to the left of and above
    its corner of the box, so that the handles follow the new thickness.
    When no box has been highlighted, only stroke widths change. *)
Theorem thickness_sets_stroke_width (thickness : num) (t : BoxTrace.t)
    (h : BoxHighlighting.t num) (d : Document) :
  (∀ n, n ∈ BoxTrace.nodesOf t → is_Some (nodes d !! n)) →
  (∀ n, n ∈ BoxHighlighting.nodesOf h → is_Some (nodes d !! n)) →
  NoDup (BoxHighlighting.nodesOf h) →
  let h' := (BoxHighlighting.set_lineThickness thickness h d).1 in
  let d' := (BoxHighlighting.set_lineThickness thickness h d).2 in
  let side := num_mul (num_lit 2 0) (num_pow thickness (num_lit 5 1)) in
  let handle (cx cy : num) : string :=
    path_to_string
      [ MoveTo (num_sub cx side) (num_sub cy side);
        HorizontalBy side;
        VerticalBy side;
        HorizontalBy (num_mul (num_neg (num_lit 2 0)) (num_pow thickness (num_lit 5 1)));
        ClosePath ] in
  getAttribute (BoxTrace.setThickness t thickness d) (BoxTrace.lightDashing t)
    "stroke-width" = Some (num_to_string thickness) ∧
  getAttribute (BoxTrace.setThickness t thickness d) (BoxTrace.darkDashing t)
    "stroke-width" = Some (num_to_string thickness) ∧
  BoxHighlighting.lineThickness h' = thickness ∧
  BoxHighlighting.highlightedBox h' = BoxHighlighting.highlightedBox h ∧
  (∀ ele, ele ∈ BoxHighlighting.boxTrace h :: BoxHighlighting.cornerBoxes h →
     getAttribute d' ele "stroke-width" = Some (num_to_string thickness)) ∧
  (∀ c, BoxHighlighting.cornerBoxD h' c = handle (px c) (py c)) ∧
  match BoxHighlighting.highlightedBox h with
  | Some box =>
      (h', d')
      = BoxHighlighting.highlight box
          (BoxHighlighting.with_lineThickness thickness h)
          (forEach (λ ele d, setAttribute ele "stroke-width" (num_to_string thickness) d)
             (BoxHighlighting.boxTrace h :: BoxHighlighting.cornerBoxes h) d) ∧
      getAttribute d' (BoxHighlighting.boxTrace h) "d"
      = Some (path_to_string (perimeterPath box)) ∧
      getAttribute d' (BoxHighlighting.topLeftCornerBox h) "d"
      = Some (handle (x box) (y box)) ∧
      getAttribute d' (BoxHighlighting.topRightCornerBox h) "d"
      = Some (handle (num_add (x box) (width box)) (y box)) ∧
      getAttribute d' (BoxHighlighting.bottomRightCornerBox h) "d"
      = Some (handle (num_add (x box) (width box)) (num_add (y box) (height box))) ∧
      getAttribute d' (BoxHighlighting.bottomLeftCornerBox h) "d"
      = Some (handle (x box) (num_add (y box) (height box))) ∧
      getAttribute d' (BoxHighlighting.topLeftCornerBox h) "d"
      = Some (BoxHighlighting.cornerBoxD h' (mkPoint (Box.minX box) (Box.minY box))) ∧
      getAttribute d' (BoxHighlighting.topRightCornerBox h) "d"
      = Some (BoxHighlighting.cornerBoxD h' (mkPoint (Box.maxX box) (Box.minY box))) ∧
      getAttribute d' (BoxHighlighting.bottomRightCornerBox h) "d"
      = Some (BoxHighlighting.cornerBoxD h' (mkPoint (Box.maxX box) (Box.maxY box))) ∧
      getAttribute d' (BoxHighlighting.bottomLeftCornerBox h) "d"
      = Some (BoxHighlighting.cornerBoxD h' (mkPoint (Box.minX box) (Box.maxY box)))
  | None =>
      BoxHighlighting.highlightedBox h' = None ∧
      ∀ n k, k ≠ "stroke-width" → getAttribute d' n k = getAttribute d n k
  end.
Proof.
  intros Ht Hh ND h' d' side handle.
  destruct (setter_runs_highlight thickness t h d Ht Hh ND) as (T1 & T2 & L & S & M).
  fold h' d' in L, S, M.
  assert (∀ c, BoxHighlighting.cornerBoxD h' c = handle (px c) (py c)) as Hhandle.
  { intros c. rewrite cornerBoxD_string.
    unfold BoxHighlighting.cornerBoxPath, handle, side. by rewrite L. }
  split; [exact T1|]. split; [exact T2|]. split; [exact L|].
  split; [unfold h'; rewrite set_lineThickness_spec; by destruct h|].
  split; [exact S|]. split; [exact Hhandle|].
  destruct (BoxHighlighting.highlightedBox h) as [box|].
  - destruct M as (E & O & C1 & C2 & C3 & C4).
    split; [exact E|]. split; [exact O|].
    split; [by rewrite C1, Hhandle|]. split; [by rewrite C2, Hhandle|].
    split; [by rewrite C3, Hhandle|]. split; [by rewrite C4, Hhandle|].
    done.
  - exact M.
Qed.
End Thickness.

(** ** Attaching and detaching *)

Section Reparenting.
  Implicit Types (d : Document) (n m p q c r : nat).

Lemma wf_single_parent d : doc_wf d → single_parent d.
Proof.
  intros W n p1 p2 H1%(wf_child d W) H2%(wf_child d W). congruence.
Qed.

Lemma ancestor_frame fuel d d' a n :
  (∀ m, m ≠ a → parentOf d' m = parentOf d m) →
  inclusive_ancestor fuel d' a n = inclusive_ancestor fuel d a n.
Proof.
  intros F. revert n. induction fuel as [|fuel IH]; intros n; simpl;
    destruct (decide (a = n)) as [|Hne]; try done.
  rewrite F by done. destruct (parentOf d n); [apply IH|done].
Qed.

Lemma size_same_nodes (m1 m2 : gmap nat Element) :
  (∀ n, is_Some (m1 !! n) ↔ is_Some (m2 !! n)) → size m1 = size m2.
Proof.
  intros E. rewrite <- !size_dom. f_equal. apply set_eq. intros n.
  by rewrite !elem_of_dom.
Qed.

Lemma appendChild_children c r d d1 :
  doc_wf d → appendChild c r d = Ok d1 →
  childrenOf d1 c = filter (λ n, n ≠ r) (childrenOf d c) ++ [r].
Proof.
  intros W (_ & _ & _ & _ & _ & _ & HC)%appendChild_Ok.
  rewrite HC. rewrite (decide_True (P := c = c)) by done. f_equal.
  case_decide as Hp; [done|]. symmetry. apply filter_ne_id.
  intros Hin%(wf_child d W). done.
Qed.

Lemma appendChild_twice c1 c2 r d d1 d2 :
  doc_wf d → appendChild c1 r d = Ok d1 → appendChild c2 r d1 = Ok d2 →
  doc_wf d2 ∧
  parentOf d2 r = Some c2 ∧
  r ∈ childrenOf d2 c2 ∧
  (c1 ≠ c2 → r ∉ childrenOf d2 c1) ∧
  ∀ p, r ∈ childrenOf d2 p → p = c2.
Proof.
  intros W H1 H2.
  pose proof (appendChild_wf _ _ _ _ H1 W) as W1.
  pose proof (appendChild_wf _ _ _ _ H2 W1) as W2.
  apply appendChild_Ok in H2 as (_ & _ & _ & _ & _ & HP & _).
  assert (parentOf d2 r = Some c2) as Hp by (by rewrite HP, decide_True).
  split_and!; try done.
  - by apply (wf_parent d2 W2).
  - intros Hne Hin%(wf_child d2 W2). congruence.
  - intros p Hin%(wf_child d2 W2). congruence.
Qed.

(** Attach, detach, attach again. *)
Lemma detach_reattach c r d d1 :
  doc_wf d → appendChild c r d = Ok d1 →
  childrenOf (DOM.remove r d1) c = filter (λ n, n ≠ r) (childrenOf d c) ∧
  same_attributes d (DOM.remove r d1) ∧
  ∃ d3, appendChild c r (DOM.remove r d1) = Ok d3 ∧
    childrenOf d3 c = filter (λ n, n ≠ r) (childrenOf d c) ++ [r] ∧
    parentOf d3 r = Some c ∧
    (∀ q, childrenOf d3 q = childrenOf d1 q) ∧
    (∀ m, parentOf d3 m = parentOf d1 m) ∧
    same_attributes d d3.
Proof.
  intros W H1.
  pose proof (appendChild_wf _ _ _ _ H1 W) as W1.
  pose proof (appendChild_children _ _ _ _ W H1) as Hkids1.
  pose proof (λ m, appendChild_is_Some _ _ _ _ m H1) as Hex1.
  pose proof H1 as (Hc & Hr & Hne & _ & A1 & P1 & _)%appendChild_Ok.
  assert (parentOf d1 r = Some c) as Hp1 by (by rewrite P1, decide_True).
  assert (r ∉ filter (λ n, n ≠ r) (childrenOf d c)) as Hnot.
  { rewrite elem_of_filter_ne. tauto. }
  assert (childrenOf (DOM.remove r d1) c = filter (λ n, n ≠ r) (childrenOf d c)) as Hkids2.
  { rewrite remove_childrenOf, decide_True by done. rewrite Hkids1, filter_app.
    rewrite filter_ne_id by done. rewrite filter_cons_False by tauto.
    by rewrite filter_nil, app_nil_r. }
  assert (same_attributes d (DOM.remove r d1)) as A2.
  { eapply same_attributes_trans; [done|apply remove_same_attributes]. }
  split; [done|]. split; [done|].
  assert (is_Ok (appendChild c r (DOM.remove r d1))) as [d3 H3].
  { apply appendChild_unchecked.
    - by apply remove_is_Some, Hex1.
    - by apply remove_is_Some, Hex1.
    - rewrite (size_same_nodes _ (nodes d)).
      2:{ intros n. rewrite remove_is_Some. apply Hex1. }
      rewrite (ancestor_frame _ d).
      + unfold appendChild in H1. destruct Hc as [ec Ec], Hr as [er Er].
        rewrite Ec, Er in H1. by destruct (inclusive_ancestor _ _ _ _).
      + intros m Hm. rewrite remove_parentOf, decide_False by done.
        by rewrite P1, decide_False. }
  exists d3. split; [done|].
  pose proof H3 as (_ & _ & _ & _ & A3 & P3 & Hkids3)%appendChild_Ok.
  rewrite remove_parentOf, decide_True in Hkids3 by done.
  split_and!.
  - rewrite Hkids3, Hkids2. rewrite decide_False by done. by rewrite decide_True.
  - by rewrite P3, decide_True.
  - intros q. rewrite Hkids3. rewrite decide_False by done.
    destruct (decide (q = c)) as [->|Hq].
    + by rewrite Hkids2, Hkids1.
    + rewrite app_nil_r, remove_childrenOf. rewrite decide_False; [done|].
      rewrite Hp1. congruence.
  - intros m. rewrite P3. destruct (decide (m = r)) as [->|Hm]; [done|].
    by rewrite remove_parentOf, decide_False.
  - by eapply same_attributes_trans.
Qed.
End Reparenting.

Section Lifecycle.
  Context {num : Type} `{JSNumber num}.

Lemma remove_effects r d :
  same_attributes d (DOM.remove r d) ∧
  parentOf (DOM.remove r d) r = None ∧
  (∀ n, n ≠ r → parentOf (DOM.remove r d) n = parentOf d n) ∧
  (∀ q, parentOf d r ≠ Some q → childrenOf (DOM.remove r d) q = childrenOf d q) ∧
  (∀ q, parentOf d r = Some q →
     childrenOf (DOM.remove r d) q = filter (λ n, n ≠ r) (childrenOf d q)) ∧
  (parentOf d r = None → DOM.remove r d = d).
Proof.
  split_and!.
  - apply remove_same_attributes.
  - by rewrite remove_parentOf, decide_True.
  - intros n Hn. by rewrite remove_parentOf, decide_False.
  - intros q Hq. by rewrite remove_childrenOf, decide_False.
  - intros q Hq. by rewrite remove_childrenOf, decide_True.
  - apply remove_no_parent.
Qed.

(** C9.  [remove] of a controller changes the document by detaching the
    root group and changes nothing else of the world: console, listeners
    and observations stay, no attribute changes, no other node changes its
    parent, no other child list changes, and nothing changes at all when
    the root group has no parent.  After [appendTo] and [remove] the
    container has the children it had (without the root group, had it been
    among them); after [appendTo] once more it has these and the root
    group as the last one, and the pool, its markers under the root group
    and every attribute are as they were. *)
Theorem remove_only_detaches :
  (∀ (this : LiveSVGElementTracings.t) w,
     let root := LiveSVGElementTracings.domNode this in
     let w' := LiveSVGElementTracings.remove this w in
     (console w' = console w ∧ changeListeners w' = changeListeners w ∧
      observations w' = observations w ∧
      same_attributes (document w) (document w') ∧
      parentOf (document w') root = None ∧
      (∀ n, n ≠ root → parentOf (document w') n = parentOf (document w) n) ∧
      (∀ q, parentOf (document w) root ≠ Some q →
         childrenOf (document w') q = childrenOf (document w) q) ∧
      (∀ q, parentOf (document w) root = Some q →
         childrenOf (document w') q
         = filter (λ n, n ≠ root) (childrenOf (document w) q)) ∧
      (parentOf (document w) root = None → w' = w)) ∧
     ∀ c w1,
       tracings_inv this w →
       LiveSVGElementTracings.appendTo this c w = Ok w1 →
       childrenOf (document (LiveSVGElementTracings.remove this w1)) c
       = filter (λ n, n ≠ root) (childrenOf (document w) c) ∧
       tracings_inv this (LiveSVGElementTracings.remove this w1) ∧
       ∃ w3,
         LiveSVGElementTracings.appendTo this c (LiveSVGElementTracings.remove this w1)
         = Ok w3 ∧
         childrenOf (document w3) c
         = filter (λ n, n ≠ root) (childrenOf (document w) c) ++ [root] ∧
         tracings_inv this w3 ∧
         same_attributes (document w) (document w3) ∧
         changeListeners w3 = changeListeners w ∧
         observations w3 = observations w) ∧
  (∀ (this : LiveSVGElementHighlightings.t num) w,
     let root := LiveSVGElementHighlightings.domNode this in
     let w' := LiveSVGElementHighlightings.remove this w in
     (console w' = console w ∧ changeListeners w' = changeListeners w ∧
      observations w' = observations w ∧
      same_attributes (document w) (document w') ∧
      parentOf (document w') root = None ∧
      (∀ n, n ≠ root → parentOf (document w') n = parentOf (document w) n) ∧
      (∀ q, parentOf (document w) root ≠ Some q →
         childrenOf (document w') q = childrenOf (document w) q) ∧
      (∀ q, parentOf (document w) root = Some q →
         childrenOf (document w') q
         = filter (λ n, n ≠ root) (childrenOf (document w) q)) ∧
      (parentOf (document w) root = None → w' = w)) ∧
     ∀ c w1,
       highlightings_inv this w →
       LiveSVGElementHighlightings.appendTo this c w = Ok w1 →
       childrenOf (document (LiveSVGElementHighlightings.remove this w1)) c
       = filter (λ n, n ≠ root) (childrenOf (document w) c) ∧
       highlightings_inv this (LiveSVGElementHighlightings.remove this w1) ∧
       ∃ w3,
         LiveSVGElementHighlightings.appendTo this c
           (LiveSVGElementHighlightings.remove this w1) = Ok w3 ∧
         childrenOf (document w3) c
         = filter (λ n, n ≠ root) (childrenOf (document w) c) ++ [root] ∧
         highlightings_inv this w3 ∧
         same_attributes (document w) (document w3) ∧
         changeListeners w3 = changeListeners w ∧
         observations w3 = observations w).
Proof.
  split.
  - intros this w root w'. split.
    + destruct (remove_effects root (document w)) as (A & P & Pn & Cq & Cp & Hno).
      split_and!; try done.
      intros Hp. unfold w', LiveSVGElementTracings.remove. fold root.
      rewrite Hno by done. by destruct w.
    + subst root w'. intros c w1 I Happ.
      unfold LiveSVGElementTracings.appendTo in Happ.
      set (root := LiveSVGElementTracings.domNode this) in *.
      destruct (appendChild c root (document w)) as [d1|e] eqn:E1; [|done].
      injection Happ as <-.
      pose proof (Pool.inv_wf _ _ _ _ _ I) as W.
      destruct (detach_reattach c root (document w) d1 W E1)
        as (Hkids2 & A2 & d3 & E3 & Hkids3 & _ & _ & _ & A3).
      assert (tracings_inv this (LiveSVGElementTracings.remove this (with_document d1 w)))
        as I2.
      { apply inv_remove; [intros m; by left|].
        eapply inv_appendChild; [intros m; by left|exact I|exact E1]. }
      split; [exact Hkids2|]. split; [exact I2|].
      exists (with_document d3 (LiveSVGElementTracings.remove this (with_document d1 w))).
      unfold LiveSVGElementTracings.appendTo, LiveSVGElementTracings.remove in *.
      fold root. cbn [document with_document] in *. rewrite E3.
      split_and!; try done.
      eapply inv_appendChild; [intros m; by left|exact I2|exact E3].
  - intros this w root w'. split.
    + destruct (remove_effects root (document w)) as (A & P & Pn & Cq & Cp & Hno).
      split_and!; try done.
      intros Hp. unfold w', LiveSVGElementHighlightings.remove. fold root.
      rewrite Hno by done. by destruct w.
    + subst root w'. intros c w1 I Happ.
      unfold LiveSVGElementHighlightings.appendTo in Happ.
      set (root := LiveSVGElementHighlightings.domNode this) in *.
      destruct (appendChild c root (document w)) as [d1|e] eqn:E1; [|done].
      injection Happ as <-.
      pose proof (Pool.inv_wf _ _ _ _ _ I) as W.
      destruct (detach_reattach c root (document w) d1 W E1)
        as (Hkids2 & A2 & d3 & E3 & Hkids3 & _ & _ & _ & A3).
      assert (highlightings_inv this
                (LiveSVGElementHighlightings.remove this (with_document d1 w))) as I2.
      { apply inv_remove; [intros m; by left|].
        eapply inv_appendChild; [intros m; by left|exact I|exact E1]. }
      split; [exact Hkids2|]. split; [exact I2|].
      exists (with_document d3
                (LiveSVGElementHighlightings.remove this (with_document d1 w))).
      unfold LiveSVGElementHighlightings.appendTo, LiveSVGElementHighlightings.remove in *.
      fold root. cbn [document with_document] in *. rewrite E3.
      split_and!; try done.
      eapply inv_appendChild; [intros m; by left|exact I2|exact E3].
Qed.

(** C10.  In a well-formed document no node is the child of two nodes,
    and every call and notification of a controller keeps the document
    well formed.  [appendTo] of a marker or of a controller, called for a
    second container while the node is in a first one, takes it out of the
    first and makes it the child of the second. *)
Theorem one_parent_at_a_time :
  (∀ d, doc_wf d → single_parent d) ∧
  (∀ (m : BoxTrace.t),
     moves_between_parents (BoxTrace.appendTo m) (BoxTrace.domNode m)) ∧
  (∀ (m : BoxHighlighting.t num),
     moves_between_parents (BoxHighlighting.appendTo m) (BoxHighlighting.domNode m)) ∧
  (∀ (this : LiveSVGElementTracings.t) w,
     moves_between_parents
       (λ c d, w' ← LiveSVGElementTracings.appendTo this c (with_document d w);
               mret (document w'))
       (LiveSVGElementTracings.domNode this)) ∧
  (∀ (this : LiveSVGElementHighlightings.t num) w,
     moves_between_parents
       (λ c d, w' ← LiveSVGElementHighlightings.appendTo this c (with_document d w);
               mret (document w'))
       (LiveSVGElementHighlightings.domNode this)) ∧
  (∀ a (acts : list (Action num)) s s',
     tracings_inv s.1 s.2 → LiveSVGElementTracings.run a acts s = Ok s' →
     doc_wf (document s'.2) ∧ single_parent (document s'.2)) ∧
  (∀ (acts : list (Action num)) s s',
     highlightings_inv s.1 s.2 → LiveSVGElementHighlightings.run acts s = Ok s' →
     doc_wf (document s'.2) ∧ single_parent (document s'.2)).
Proof.
  split_and!.
  - apply wf_single_parent.
  - intros m d c1 c2 d1 d2. apply appendChild_twice.
  - intros m d c1 c2 d1 d2. apply appendChild_twice.
  - intros this w d c1 c2 d1 d2 W H1 H2.
    unfold LiveSVGElementTracings.appendTo in *. cbn in *.
    destruct (appendChild c1 _ d) as [d1'|] eqn:E1; [|done]. injection H1 as <-.
    destruct (appendChild c2 _ d1') as [d2'|] eqn:E2; [|done]. injection H2 as <-.
    by eapply appendChild_twice.
  - intros this w d c1 c2 d1 d2 W H1 H2.
    unfold LiveSVGElementHighlightings.appendTo in *. cbn in *.
    destruct (appendChild c1 _ d) as [d1'|] eqn:E1; [|done]. injection H1 as <-.
    destruct (appendChild c2 _ d1') as [d2'|] eqn:E2; [|done]. injection H2 as <-.
    by eapply appendChild_twice.
  - intros a acts s s' I Hrun.
    destruct (tracings_run_inv a acts s s' I Hrun) as [I' _].
    pose proof (Pool.inv_wf _ _ _ _ _ I') as W.
    split; [done|]. by apply wf_single_parent.
  - intros acts s s' I Hrun.
    destruct (highlightings_run_inv acts s s' I Hrun) as [I' _].
    pose proof (Pool.inv_wf _ _ _ _ _ I') as W.
    split; [done|]. by apply wf_single_parent.
Qed.
End Lifecycle.

Section Construction8.
  Context {num : Type} `{JSNumber num}.

(** Calls move the root group and touch nothing else. *)
Lemma appendChild_keeps_empty c r d d' :
  appendChild c r d = Ok d' → childrenOf d r = [] →
  childrenOf d' r = [] ∧ same_attributes d d'.
Proof.
  intros (_ & _ & Hne & _ & A & _ & HC)%appendChild_Ok Hr. split; [|done].
  rewrite HC, Hr. rewrite (decide_False (P := r = c)) by done.
  by case_decide.
Qed.

Lemma remove_keeps_empty r d :
  childrenOf d r = [] → childrenOf (DOM.remove r d) r = [].
Proof. intros Hr. rewrite remove_childrenOf, Hr. by case_decide. Qed.

Lemma result_bind_ret {A} (r : result A) : r ≫= (λ a, Ok a) = r.
Proof. by destruct r. Qed.

Lemma tracings_calls a (acts : list (Action num)) this w s' :
  Forall isCall acts →
  LiveSVGElementTracings.run a acts (this, w) = Ok s' →
  childrenOf (document w) (LiveSVGElementTracings.domNode this) = [] →
  s'.1 = this ∧
  childrenOf (document s'.2) (LiveSVGElementTracings.domNode this) = [] ∧
  same_attributes (document w) (document s'.2) ∧
  console s'.2 = console w ∧
  changeListeners s'.2 = changeListeners w ∧
  observations s'.2 = observations w.
Proof.
  intros Hcalls. revert w. induction Hcalls as [|act acts Hact _ IH]; intros w Hrun Hr.
  - injection Hrun as <-. split_and!; first [done | apply same_attributes_refl].
  - cbn [LiveSVGElementTracings.run forEachM] in Hrun.
    destruct act as [c| |n env]; [| |done]; cbn in Hrun.
    + unfold LiveSVGElementTracings.appendTo in Hrun. cbn in Hrun.
      destruct (appendChild c _ (document w)) as [d1|] eqn:E; [|done]. cbn in Hrun.
      destruct (appendChild_keeps_empty _ _ _ _ E Hr) as [Hr1 A1].
      destruct (IH (with_document d1 w) Hrun Hr1) as (? & ? & A & ? & ? & ?).
      split_and!; try done. by eapply same_attributes_trans.
    + destruct (IH (LiveSVGElementTracings.remove this w) Hrun) as (? & ? & A & ? & ? & ?).
      { by apply remove_keeps_empty. }
      split_and!; try done.
      eapply same_attributes_trans; [apply remove_same_attributes|exact A].
Qed.

Lemma highlightings_calls (acts : list (Action num))
    (this : LiveSVGElementHighlightings.t num) w s' :
  Forall isCall acts →
  LiveSVGElementHighlightings.run acts (this, w) = Ok s' →
  childrenOf (document w) (LiveSVGElementHighlightings.domNode this) = [] →
  s'.1 = this ∧
  childrenOf (document s'.2) (LiveSVGElementHighlightings.domNode this) = [] ∧
  same_attributes (document w) (document s'.2) ∧
  console s'.2 = console w ∧
  changeListeners s'.2 = changeListeners w ∧
  observations s'.2 = observations w.
Proof.
  intros Hcalls. revert w. induction Hcalls as [|act acts Hact _ IH]; intros w Hrun Hr.
  - injection Hrun as <-. split_and!; first [done | apply same_attributes_refl].
  - cbn [LiveSVGElementHighlightings.run forEachM] in Hrun.
    destruct act as [c| |n env]; [| |done]; cbn in Hrun.
    + unfold LiveSVGElementHighlightings.appendTo in Hrun. cbn in Hrun.
      destruct (appendChild c _ (document w)) as [d1|] eqn:E; [|done]. cbn in Hrun.
      destruct (appendChild_keeps_empty _ _ _ _ E Hr) as [Hr1 A1].
      destruct (IH (with_document d1 w) Hrun Hr1) as (? & ? & A & ? & ? & ?).
      split_and!; try done. by eapply same_attributes_trans.
    + destruct (IH (LiveSVGElementHighlightings.remove this w) Hrun)
        as (? & ? & A & ? & ? & ?).
      { by apply remove_keeps_empty. }
      split_and!; try done.
      eapply same_attributes_trans; [apply remove_same_attributes|exact A].
Qed.

(** C8.  Constructing a controller creates its root group, adds the
    refresh callback to the listeners of the live set's change event and
    observes the whole subtree of the parent document with it, and does
    nothing more: the pool is empty and stays empty, and the root group
    without children and attributes, whatever is called on the controller,
    until a notification arrives.  A notification on either channel then
    runs the refresh. *)
Theorem construction_subscribes_without_refresh :
  (∀ a parentSVGDoc w,
     let s := LiveSVGElementTracings.new parentSVGDoc w in
     let root := LiveSVGElementTracings.domNode s.1 in
     changeListeners s.2 = changeListeners w ++ [CallRefresh root] ∧
     observations s.2
     = observations w
       ++ [MutationObserver.mkObservation (CallRefresh root) parentSVGDoc
             (MutationObserver.mkInit true true true true)] ∧
     console s.2 = console w ∧
     LiveSVGElementTracings.boxTraces s.1 = [] ∧
     (∀ (acts : list (Action num)) s',
        Forall isCall acts →
        LiveSVGElementTracings.run a acts s = Ok s' →
        LiveSVGElementTracings.boxTraces s'.1 = [] ∧
        childrenOf (document s'.2) root = [] ∧
        (∀ k, getAttribute (document s'.2) root k = None) ∧
        (∀ n k, n ≠ root →
           getAttribute (document s'.2) n k = getAttribute (document w) n k) ∧
        console s'.2 = console w ∧
        changeListeners s'.2 = changeListeners s.2 ∧
        observations s'.2 = observations s.2) ∧
     (∀ (env : Env num),
        changeListeners w = [] →
        LiveSVGElementTracings.notify a Change env s.1 s.2
        = LiveSVGElementTracings.refresh a env s.1 s.2) ∧
     (∀ (env : Env num),
        observations w = [] →
        LiveSVGElementTracings.notify a (Mutation parentSVGDoc) env s.1 s.2
        = LiveSVGElementTracings.refresh a env s.1 s.2)) ∧
  (∀ parentSVGDoc w,
     let s := LiveSVGElementHighlightings.new (num:=num) parentSVGDoc w in
     let root := LiveSVGElementHighlightings.domNode s.1 in
     changeListeners s.2 = changeListeners w ++ [CallRefresh root] ∧
     observations s.2
     = observations w
       ++ [MutationObserver.mkObservation (CallRefresh root) parentSVGDoc
             (MutationObserver.mkInit true true true true)] ∧
     console s.2 = console w ∧
     LiveSVGElementHighlightings.boxHighlightings s.1 = [] ∧
     (∀ (acts : list (Action num)) s',
        Forall isCall acts →
        LiveSVGElementHighlightings.run acts s = Ok s' →
        LiveSVGElementHighlightings.boxHighlightings s'.1 = [] ∧
        childrenOf (document s'.2) root = [] ∧
        (∀ k, getAttribute (document s'.2) root k = None) ∧
        (∀ n k, n ≠ root →
           getAttribute (document s'.2) n k = getAttribute (document w) n k) ∧
        console s'.2 = console w ∧
        changeListeners s'.2 = changeListeners s.2 ∧
        observations s'.2 = observations s.2) ∧
     (∀ (env : Env num),
        changeListeners w = [] →
        LiveSVGElementHighlightings.notify Change env s.1 s.2
        = LiveSVGElementHighlightings.refresh env s.1 s.2) ∧
     (∀ (env : Env num),
        observations w = [] →
        LiveSVGElementHighlightings.notify (Mutation parentSVGDoc) env s.1 s.2
        = LiveSVGElementHighlightings.refresh env s.1 s.2)).
Proof.
  split.
  - intros a parentSVGDoc w s root. split_and!; try done.
    + intros acts s' Hcalls Hrun.
      destruct (tracings_calls a acts s.1 s.2 s' Hcalls Hrun)
        as (E & C & A & Hc & Hl & Ho).
      { unfold childrenOf. cbn. by rewrite lookup_insert_eq. }
      rewrite E. split_and!; try done.
      * intros k. rewrite (same_attributes_getAttribute _ _ _ _ A).
        unfold getAttribute. cbn. by rewrite lookup_insert_eq.
      * intros n k Hn. rewrite (same_attributes_getAttribute _ _ _ _ A).
        unfold getAttribute. cbn. by rewrite lookup_insert_ne.
    + intros env Hl. unfold LiveSVGElementTracings.notify.
      replace (listenersOf Change s.2) with [CallRefresh root]
        by (cbn; by rewrite Hl).
      cbn [forEachM]. rewrite result_bind_ret.
      unfold LiveSVGElementTracings.call. cbn [fst snd]. by rewrite decide_True.
    + intros env Ho. unfold LiveSVGElementTracings.notify.
      replace (listenersOf (Mutation parentSVGDoc) s.2) with [CallRefresh root]
        by (cbn; rewrite Ho; cbn; by rewrite decide_True).
      cbn [forEachM]. rewrite result_bind_ret.
      unfold LiveSVGElementTracings.call. cbn [fst snd]. by rewrite decide_True.
  - intros parentSVGDoc w s root. split_and!; try done.
    + intros acts s' Hcalls Hrun.
      destruct (highlightings_calls acts s.1 s.2 s' Hcalls Hrun)
        as (E & C & A & Hc & Hl & Ho).
      { unfold childrenOf. cbn. by rewrite lookup_insert_eq. }
      rewrite E. split_and!; try done.
      * intros k. rewrite (same_attributes_getAttribute _ _ _ _ A).
        unfold getAttribute. cbn. by rewrite lookup_insert_eq.
      * intros n k Hn. rewrite (same_attributes_getAttribute _ _ _ _ A).
        unfold getAttribute. cbn. by rewrite lookup_insert_ne.
    + intros env Hl. unfold LiveSVGElementHighlightings.notify.
      replace (listenersOf Change s.2) with [CallRefresh root]
        by (cbn; by rewrite Hl).
      cbn [forEachM]. rewrite result_bind_ret.
      unfold LiveSVGElementHighlightings.call. cbn [fst snd]. by rewrite decide_True.
    + intros env Ho. unfold LiveSVGElementHighlightings.notify.
      replace (listenersOf (Mutation parentSVGDoc) s.2) with [CallRefresh root]
        by (cbn; rewrite Ho; cbn; by rewrite decide_True).
      cbn [forEachM]. rewrite result_bind_ret.
      unfold LiveSVGElementHighlightings.call. cbn [fst snd]. by rewrite decide_True.
Qed.
End Construction8.

(** ** The example scene *)

Lemma exampleTracings_inv : tracings_inv exampleTracings.1 exampleTracings.2.
Proof. apply tracings_inv_new, exampleWorld_wf. Qed.

Lemma exampleHighlightings_inv :
  highlightings_inv exampleHighlightings.1 exampleHighlightings.2.
Proof. apply highlightings_inv_new, exampleWorld_wf. Qed.

Lemma tracedTwo_inv : tracings_inv tracedTwo.1 tracedTwo.2.
Proof.
  destruct (tracings_pass BoxTrace.lightDark twoTargets _ _ exampleTracings_inv)
    as (news & dg & w' & E & _ & _ & _ & _ & I' & _).
  unfold tracedTwo. by rewrite E.
Qed.

Lemma highlightedTwo_inv : highlightings_inv highlightedTwo.1 highlightedTwo.2.
Proof.
  destruct (highlightings_pass twoTargets _ _ exampleHighlightings_inv)
    as (news & dg & w' & E & _ & _ & _ & _ & _ & I' & _).
  unfold highlightedTwo. by rewrite E.
Qed.

Lemma oneDetached_others_ok i t' :
  i ≠ 1 → members oneDetached !! i = Some t' → is_Ok (getBBox t').
Proof.
  intros Hne Hi. destruct i as [|[|i]]; [|done|done].
  injection Hi as <-. by eexists.
Qed.

Lemma refresh_survives_one_failure_witness :
  tracings_inv exampleTracings.1 exampleTracings.2 ∧
  highlightings_inv highlightedTwo.1 highlightedTwo.2 ∧
  members oneDetached !! 1 = Some detached ∧
  getBBox detached = Throw (Thrown "element is not rendered") ∧
  (∃ this' w',
     LiveSVGElementTracings.refresh BoxTrace.blueAqua oneDetached
       exampleTracings.1 exampleTracings.2 = Ok (this', w') ∧
     console w' = [Thrown "element is not rendered"]) ∧
  (∃ this' w',
     LiveSVGElementHighlightings.refresh oneDetached
       highlightedTwo.1 highlightedTwo.2 = Ok (this', w') ∧
     console w' = console highlightedTwo.2 ++ [Thrown "element is not rendered"]).
Proof.
  destruct (refresh_survives_one_failure (num:=Q)) as [T B].
  split; [exact exampleTracings_inv|]. split; [exact highlightedTwo_inv|].
  split; [reflexivity|]. split; [reflexivity|]. split.
  - destruct (T BoxTrace.blueAqua oneDetached _ _ 1 detached _
                exampleTracings_inv eq_refl eq_refl oneDetached_others_ok)
      as (this' & w' & E & C & _).
    exists this', w'. split; [exact E|exact C].
  - destruct (B oneDetached _ _ 1 detached _
                highlightedTwo_inv eq_refl eq_refl oneDetached_others_ok)
      as (this' & w' & E & C & _).
    exists this', w'. split; [exact E|exact C].
Defined.

Lemma oneTarget_all_ok : Forall (λ t, is_Ok (getBBox t)) (members oneTarget).
Proof. apply Forall_cons. split; [by eexists|apply Forall_nil_2]. Qed.

Lemma shrink_hides_leftover_markers_witness :
  tracings_inv tracedTwo.1 tracedTwo.2 ∧
  highlightings_inv highlightedTwo.1 highlightedTwo.2 ∧
  Forall (λ t, is_Ok (getBBox t)) (members oneTarget) ∧
  (∃ this' w',
     LiveSVGElementTracings.refresh BoxTrace.lightDark oneTarget
       tracedTwo.1 tracedTwo.2 = Ok (this', w') ∧
     ∀ i m, LiveSVGElementTracings.boxTraces this' !! i = Some m →
       getAttribute (document w') (BoxTrace.domNode m) "opacity"
       = Some (if decide (i < 1) then "1" else "0")) ∧
  (∃ this' w',
     LiveSVGElementHighlightings.refresh oneTarget
       highlightedTwo.1 highlightedTwo.2 = Ok (this', w') ∧
     ∀ i m, LiveSVGElementHighlightings.boxHighlightings this' !! i = Some m →
       getAttribute (document w') (BoxHighlighting.domNode m) "opacity"
       = Some (if decide (i < 1) then "1" else "0")).
Proof.
  destruct (shrink_hides_leftover_markers (num:=Q)) as [T B].
  split; [exact tracedTwo_inv|]. split; [exact highlightedTwo_inv|].
  split; [exact oneTarget_all_ok|]. split.
  - destruct (T BoxTrace.lightDark oneTarget _ _ tracedTwo_inv oneTarget_all_ok)
      as (this' & w' & E & _ & O).
    exists this', w'. split; [exact E|].
    intros i m Hi. destruct (O i m Hi) as [Ho _]. rewrite Ho.
    cbn [members oneTarget length]. destruct (decide (i < 1)); reflexivity.
  - destruct (B oneTarget _ _ highlightedTwo_inv oneTarget_all_ok)
      as (this' & w' & E & _ & O).
    exists this', w'. split; [exact E|].
    intros i m Hi. destruct (O i m Hi) as [Ho _]. rewrite Ho.
    cbn [members oneTarget length]. destruct (decide (i < 1)); reflexivity.
Defined.

Lemma line_thickness_follows_scaling_witness :
  highlightings_inv exampleHighlightings.1 exampleHighlightings.2 ∧
  ∃ this' w' this'' w'',
    LiveSVGElementHighlightings.refresh twoTargets
      exampleHighlightings.1 exampleHighlightings.2 = Ok (this', w') ∧
    LiveSVGElementHighlightings.refresh oneTarget this' w' = Ok (this'', w'') ∧
    (∃ m, LiveSVGElementHighlightings.boxHighlightings this' !! 0 = Some m ∧
       num_to_string (BoxHighlighting.lineThickness m) = "0.25" ∧
       getAttribute (document w') (BoxHighlighting.boxTrace m) "stroke-width"
       = Some "0.25") ∧
    (∃ m, LiveSVGElementHighlightings.boxHighlightings this'' !! 0 = Some m ∧
       num_to_string (BoxHighlighting.lineThickness m) = "1" ∧
       getAttribute (document w'') (BoxHighlighting.boxTrace m) "stroke-width"
       = Some "1").
Proof.
  split; [exact exampleHighlightings_inv|].
  destruct (line_thickness_follows_scaling twoTargets oneTarget _ _
              exampleHighlightings_inv)
    as (this' & w' & E & T & this'' & w'' & E' & T').
  exists this', w', this'', w''. split; [exact E|]. split; [exact E'|]. split.
  - destruct (T 0 (mkTarget (Ok largeBox)) largeBox eq_refl eq_refl)
      as (m & Hm & Ht & Hs).
    exists m. split; [exact Hm|]. split.
    + rewrite Ht. reflexivity.
    + rewrite (Hs (BoxHighlighting.boxTrace m) (list_elem_of_here _ _)). reflexivity.
  - destruct (T' 0 (mkTarget (Ok smallBox)) smallBox eq_refl eq_refl)
      as (m & Hm & Ht & Hs).
    exists m. split; [exact Hm|]. split.
    + rewrite Ht. reflexivity.
    + rewrite (Hs (BoxHighlighting.boxTrace m) (list_elem_of_here _ _)). reflexivity.
Defined.

Lemma thickness_sets_stroke_width_witness :
  ∃ t h d,
    (∀ n, n ∈ BoxTrace.nodesOf t → is_Some (nodes d !! n)) ∧
    (∀ n, n ∈ BoxHighlighting.nodesOf h → is_Some (nodes d !! n)) ∧
    NoDup (BoxHighlighting.nodesOf h) ∧
    BoxHighlighting.lineThickness h = num_lit 4 0 ∧
    BoxHighlighting.highlightedBox h = Some smallBox ∧
    getAttribute d (BoxHighlighting.topLeftCornerBox h) "d"
    = Some "M -4 -4 h 4 v 4 h -4 z" ∧
    let thickness : Q := num_lit 25 2 in
    let h' := (BoxHighlighting.set_lineThickness thickness h d).1 in
    let d' := (BoxHighlighting.set_lineThickness thickness h d).2 in
    getAttribute (BoxTrace.setThickness t thickness d)
      (BoxTrace.lightDashing t) "stroke-width" = Some "0.25" ∧
    getAttribute (BoxTrace.setThickness t thickness d)
      (BoxTrace.darkDashing t) "stroke-width" = Some "0.25" ∧
    BoxHighlighting.lineThickness h' = num_lit 25 2 ∧
    BoxHighlighting.highlightedBox h' = Some smallBox ∧
    getAttribute d' (BoxHighlighting.topLeftCornerBox h) "stroke-width" = Some "0.25" ∧
    getAttribute d' (BoxHighlighting.boxTrace h) "d" = Some "M 0 0 h 10 v 10 h -10 z" ∧
    getAttribute d' (BoxHighlighting.topLeftCornerBox h) "d"
    = Some "M -1 -1 h 1 v 1 h -1 z" ∧
    getAttribute d' (BoxHighlighting.topRightCornerBox h) "d"
    = Some "M 9 -1 h 1 v 1 h -1 z" ∧
    getAttribute d' (BoxHighlighting.bottomRightCornerBox h) "d"
    = Some "M 9 9 h 1 v 1 h -1 z" ∧
    getAttribute d' (BoxHighlighting.bottomLeftCornerBox h) "d"
    = Some "M -1 9 h 1 v 1 h -1 z".
Proof.
  set (h := BoxHighlighting.mk (num:=Q) 0 1 2 3 4 5 (num_lit 4 0) (Some smallBox)).
  set (t := BoxTrace.mk 6 7 8).
  set (d := match highlightedSmallBox with
            | Ok (_, d0) =>
                match BoxTrace.new BoxTrace.lightDark d0 with
                | Ok (_, d) => d
                | Throw _ => d0
                end
            | Throw _ => emptyDocument
            end).
  assert (∀ n, n ∈ BoxTrace.nodesOf t → is_Some (nodes d !! n)) as Ht.
  { intros n Hn. unfold BoxTrace.nodesOf, t in Hn. cbn in Hn.
    rewrite !elem_of_cons in Hn.
    destruct Hn as [->|[->|[->|Hn]]];
      [vm_compute; by eexists..|by apply elem_of_nil in Hn]. }
  assert (∀ n, n ∈ BoxHighlighting.nodesOf h → is_Some (nodes d !! n)) as Hh.
  { intros n Hn. unfold BoxHighlighting.nodesOf, BoxHighlighting.cornerBoxes, h in Hn.
    cbn in Hn. rewrite !elem_of_cons in Hn.
    destruct Hn as [->|[->|[->|[->|[->|[->|Hn]]]]]];
      [vm_compute; by eexists..|by apply elem_of_nil in Hn]. }
  assert (NoDup (BoxHighlighting.nodesOf h)) as ND by exact (NoDup_seq 0 6).
  pose proof (thickness_sets_stroke_width (num_lit 25 2 : Q) t h d Ht Hh ND) as T.
  cbv zeta in T.
  destruct T as (T1 & T2 & L & B & S & _ & _ & O & C1 & C2 & C3 & C4 & _).
  exists t, h, d.
  split; [exact Ht|]. split; [exact Hh|]. split; [exact ND|].
  split; [reflexivity|]. split; [reflexivity|]. split; [reflexivity|].
  cbv zeta.
  split; [exact T1|]. split; [exact T2|]. split; [exact L|]. split; [exact B|].
  split; [exact (S 2 (list_elem_of_further _ _ _ (list_elem_of_here _ _)))|].
  split; [exact O|]. split; [exact C1|]. split; [exact C2|].
  split; [exact C3|exact C4].
Defined.

Lemma construction_subscribes_without_refresh_witness :
  Forall isCall [AppendTo (num:=Q) 1; Remove; AppendTo 1] ∧
  changeListeners exampleTracings.2 = [CallRefresh 2] ∧
  ∃ s',
    LiveSVGElementTracings.run BoxTrace.lightDark [AppendTo 1; Remove; AppendTo 1]
      exampleTracings = Ok s' ∧
    LiveSVGElementTracings.boxTraces s'.1 = [] ∧
    childrenOf (document s'.2) 2 = [] ∧
    changeListeners s'.2 = [CallRefresh 2].
Proof.
  assert (Forall isCall [AppendTo (num:=Q) 1; Remove; AppendTo 1]) as Hcalls.
  { repeat (apply Forall_cons; split; [exact I|]). apply Forall_nil_2. }
  destruct (construction_subscribes_without_refresh (num:=Q)) as [T _].
  destruct (T BoxTrace.lightDark 0 exampleWorld) as (L & _ & _ & _ & R & _).
  split; [exact Hcalls|]. split; [exact L|].
  assert (is_Ok (LiveSVGElementTracings.run BoxTrace.lightDark
                   [AppendTo (num:=Q) 1; Remove; AppendTo 1] exampleTracings))
    as [s' E].
  { eexists. vm_compute. reflexivity. }
  exists s'. split; [exact E|].
  destruct (R _ s' Hcalls E) as (P & C & _ & _ & _ & L' & _).
  split; [exact P|]. split; [exact C|exact L'].
Defined.

Lemma remove_only_detaches_witness :
  tracings_inv tracedTwo.1 tracedTwo.2 ∧
  ∃ w1 w3,
    LiveSVGElementTracings.appendTo tracedTwo.1 1 tracedTwo.2 = Ok w1 ∧
    childrenOf (document tracedTwo.2) 1 = [] ∧
    childrenOf (document w1) 1 = [2] ∧
    childrenOf (document (LiveSVGElementTracings.remove tracedTwo.1 w1)) 1 = [] ∧
    LiveSVGElementTracings.appendTo tracedTwo.1 1
      (LiveSVGElementTracings.remove tracedTwo.1 w1) = Ok w3 ∧
    childrenOf (document w3) 1 = [2] ∧
    tracings_inv tracedTwo.1 w3 ∧
    same_attributes (document tracedTwo.2) (document w3).
Proof.
  split; [exact tracedTwo_inv|].
  assert (is_Ok (LiveSVGElementTracings.appendTo tracedTwo.1 1 tracedTwo.2)) as [w1 E].
  { eexists. vm_compute. reflexivity. }
  destruct (remove_only_detaches (num:=Q)) as [T _].
  destruct (T tracedTwo.1 tracedTwo.2) as [_ R].
  destruct (R 1 w1 tracedTwo_inv E) as (Hkids2 & _ & w3 & E3 & Hkids3 & I3 & A3 & _).
  exists w1, w3. split; [exact E|].
  assert (childrenOf (document tracedTwo.2) 1 = []) as Hkids0 by (vm_compute; reflexivity).
  split; [exact Hkids0|]. split.
  { pose proof E as E'. vm_compute in E'. injection E' as E'. rewrite <- E'.
    vm_compute. reflexivity. }
  rewrite Hkids0 in Hkids2, Hkids3. split; [exact Hkids2|]. split; [exact E3|].
  split; [exact Hkids3|]. split; [exact I3|exact A3].
Defined.

Lemma one_parent_at_a_time_witness :
  ∃ m d d1 d2,
    BoxTrace.new BoxTrace.lightDark (document exampleWorld) = Ok (m, d) ∧
    doc_wf d ∧
    BoxTrace.appendTo m 0 d = Ok d1 ∧
    BoxTrace.appendTo m 1 d1 = Ok d2 ∧
    childrenOf d1 0 = [BoxTrace.domNode m] ∧
    parentOf d2 (BoxTrace.domNode m) = Some 1 ∧
    BoxTrace.domNode m ∈ childrenOf d2 1 ∧
    BoxTrace.domNode m ∉ childrenOf d2 0.
Proof.
  destruct (BoxTrace_new_spec BoxTrace.lightDark (document exampleWorld) exampleWorld_wf)
    as (m & d & E & W & _).
  pose proof E as E'. vm_compute in E'. injection E' as <- <-.
  eexists _, _.
  match type of W with
  | doc_wf ?d0 =>
      assert (is_Ok (BoxTrace.appendTo (BoxTrace.mk 2 3 4) 0 d0)) as [d1 E1]
        by (eexists; vm_compute; reflexivity)
  end.
  assert (is_Ok (BoxTrace.appendTo (BoxTrace.mk 2 3 4) 1 d1)) as [d2 E2].
  { pose proof E1 as E1'. vm_compute in E1'. injection E1' as <-.
    eexists. vm_compute. reflexivity. }
  exists d1, d2.
  destruct (one_parent_at_a_time (num:=Q)) as (_ & T & _).
  destruct (T (BoxTrace.mk 2 3 4) _ 0 1 d1 d2 W E1 E2) as (_ & P & C & N & _).
  split; [exact E|]. split; [exact W|]. split; [exact E1|]. split; [exact E2|].
  split.
  { pose proof E1 as E1'. vm_compute in E1'. injection E1' as <-.
    vm_compute. reflexivity. }
  split; [exact P|]. split; [exact C|]. apply N. discriminate.
Defined.

(** * The marker methods and the refresh pass, further *)

(** ** Documents that differ in attributes only *)

Section DocumentEquality.
  Implicit Types (d : Document) (n : nat) (k v : string) (ws : list Write).

Lemma document_ext d d' :
  nextNode d' = nextNode d →
  (∀ n, frame <$> nodes d' !! n = frame <$> nodes d !! n) →
  (∀ n k, getAttribute d' n k = getAttribute d n k) →
  d' = d.
Proof.
  destruct d as [ns nx], d' as [ns' nx']. simpl. intros -> F A. f_equal.
  apply map_eq. intros n. specialize (F n). specialize (A n).
  unfold getAttribute in A. simpl in A.
  destruct (ns' !! n) as [e'|], (ns !! n) as [e|]; simpl in *; try done.
  destruct e as [tg p c a s], e' as [tg' p' c' a' s']. unfold frame in F.
  simpl in *. simplify_eq. do 2 f_equal. apply map_eq. intros k. apply A.
Qed.

Lemma setAttribute_frame n k v d m :
  frame <$> nodes (setAttribute n k v d) !! m = frame <$> nodes d !! m.
Proof.
  simpl. rewrite lookup_alter. case_decide; [subst|done].
  by destruct (nodes d !! m).
Qed.

Lemma apply_writes_frame ws d n :
  frame <$> nodes (apply_writes ws d) !! n = frame <$> nodes d !! n.
Proof.
  revert d. induction ws as [|w ws IH]; intros d; [done|].
  by rewrite apply_writes_cons, IH, setAttribute_frame.
Qed.

Lemma apply_writes_nextNode ws d : nextNode (apply_writes ws d) = nextNode d.
Proof. apply (proj1 (apply_writes_same_structure ws d)). Qed.

(** The document after a sequence of writes is determined by the last
    write to each attribute. *)
Lemma apply_writes_ext ws ws' d :
  same_effect ws ws' → apply_writes ws d = apply_writes ws' d.
Proof.
  intros E. apply document_ext.
  - by rewrite !apply_writes_nextNode.
  - intros n. by rewrite !apply_writes_frame.
  - intros n k. by rewrite !getAttribute_apply_writes, E.
Qed.

(** Writes of the values that are there already change nothing. *)
Lemma apply_writes_in_place ws d :
  (∀ n k v, last_write n k ws = Some v → getAttribute d n k = Some v) →
  apply_writes ws d = d.
Proof.
  intros E. apply document_ext.
  - apply apply_writes_nextNode.
  - intros n. apply apply_writes_frame.
  - intros n k. rewrite getAttribute_apply_writes.
    destruct (last_write n k ws) as [v|] eqn:L; [|done].
    rewrite (E n k v L). apply E in L. unfold getAttribute in L.
    by destruct (nodes d !! n).
Qed.

Lemma last_write_Some n k v ws :
  last_write n k ws = Some v →
  ∃ w, w ∈ ws ∧ wnode w = n ∧ wkey w = k ∧ wvalue w = v.
Proof.
  induction ws as [|w ws IH]; [done|]. simpl.
  destruct (last_write n k ws) as [v'|].
  - intros [= ->]. destruct IH as (w' & ? & ?); [done|].
    exists w'. split; [by right|done].
  - case_decide as Hw; [|done]. intros [= <-]. destruct Hw.
    exists w. split; [by left|done].
Qed.

Lemma last_write_None n k ws :
  (∀ w, w ∈ ws → ¬ (wnode w = n ∧ wkey w = k)) → last_write n k ws = None.
Proof.
  induction ws as [|w ws IH]; intros Hws; [done|]. simpl.
  rewrite IH by (intros w' Hw'; apply Hws; by right).
  rewrite decide_False; [done|]. apply Hws. by left.
Qed.

Lemma last_write_is_Some n k w ws :
  w ∈ ws → wnode w = n → wkey w = k → is_Some (last_write n k ws).
Proof.
  induction ws as [|w0 ws IH]; [by intros ?%elem_of_nil|].
  intros [->|Hw]%elem_of_cons Hn Hk; simpl.
  - destruct (last_write n k ws); [done|]. by rewrite decide_True.
  - destruct (IH Hw Hn Hk) as [v ->]. done.
Qed.

Lemma same_effect_refl ws : same_effect ws ws.
Proof. done. Qed.

Lemma same_effect_trans ws1 ws2 ws3 :
  same_effect ws1 ws2 → same_effect ws2 ws3 → same_effect ws1 ws3.
Proof. intros E1 E2 n k. by rewrite E1. Qed.

Lemma same_effect_app ws1 ws1' ws2 ws2' :
  same_effect ws1 ws1' → same_effect ws2 ws2' →
  same_effect (ws1 ++ ws2) (ws1' ++ ws2').
Proof. intros E1 E2 n k. by rewrite !last_write_app, E1, E2. Qed.

(** Earlier writes to attributes that are written again are lost. *)
Lemma same_effect_shadow ws ws' :
  covered_by ws ws' → same_effect (ws ++ ws') ws'.
Proof.
  intros C n k. rewrite last_write_app.
  destruct (last_write n k ws') as [v|] eqn:L'; [done|].
  apply last_write_None. intros w Hw [Hn Hk].
  destruct (C w Hw) as (w' & Hw' & Hn' & Hk').
  destruct (last_write_is_Some n k w' ws') as [v Hv]; [done|congruence..|].
  congruence.
Qed.

(** Writes to different attributes can be exchanged. *)
Lemma same_effect_swap ws ws' :
  apart ws ws' → same_effect (ws ++ ws') (ws' ++ ws).
Proof.
  intros D n k. rewrite !last_write_app.
  destruct (last_write n k ws) as [v|] eqn:L,
           (last_write n k ws') as [v'|] eqn:L'; try done.
  apply last_write_Some in L as (w & Hw & Hn & Hk & _).
  apply last_write_Some in L' as (w' & Hw' & Hn' & Hk' & _).
  destruct (D w w' Hw Hw'); congruence.
Qed.
End DocumentEquality.

(** ** How the calls of a marker compose *)

Ltac elem_somewhere :=
  apply list_elem_of_here + (apply list_elem_of_further; elem_somewhere).

Ltac each_write H :=
  repeat (apply elem_of_cons in H as [->|H]); try (by apply elem_of_nil in H).

Ltac covered :=
  let w := fresh "w" in let Hw := fresh "Hw" in
  intros w Hw; each_write Hw;
  (eexists; split; [elem_somewhere|split; reflexivity]).

Ltac set_apart :=
  let w := fresh "w" in let w' := fresh "w" in
  let Hw := fresh "Hw" in let Hw' := fresh "Hw" in
  intros w w' Hw Hw'; each_write Hw; each_write Hw'; intros _; discriminate.

Section TraceCalls.
  Context {num : Type} `{JSNumber num}.

Lemma setThickness_writes (m : BoxTrace.t) (thickness : num) d :
  BoxTrace.setThickness m thickness d
  = apply_writes
      [ mkWrite (BoxTrace.lightDashing m) "stroke-width" (num_to_string thickness);
        mkWrite (BoxTrace.darkDashing m) "stroke-width" (num_to_string thickness) ] d.
Proof. done. Qed.

Lemma setOpacity_writes (m : BoxTrace.t) (opacity : num) d :
  BoxTrace.setOpacity m opacity d
  = apply_writes [ mkWrite (BoxTrace.domNode m) "opacity" (num_to_string opacity) ] d.
Proof. done. Qed.

(** X5.  On every document and for every [BoxTrace] (whatever its nodes
    are), a later [trace], [setThickness] or [setOpacity] replaces an
    earlier call of the same method entirely, and calls of different
    methods can be made in either order: the resulting documents are
    equal. *)
Theorem BoxTrace_calls_compose (m : BoxTrace.t) (box1 box2 : BoxLike num)
    (t1 t2 o1 o2 : num) (d : Document) :
  BoxTrace.trace m box2 (BoxTrace.trace m box1 d) = BoxTrace.trace m box2 d ∧
  BoxTrace.setThickness m t2 (BoxTrace.setThickness m t1 d)
  = BoxTrace.setThickness m t2 d ∧
  BoxTrace.setOpacity m o2 (BoxTrace.setOpacity m o1 d) = BoxTrace.setOpacity m o2 d ∧
  BoxTrace.setThickness m t1 (BoxTrace.trace m box1 d)
  = BoxTrace.trace m box1 (BoxTrace.setThickness m t1 d) ∧
  BoxTrace.setOpacity m o1 (BoxTrace.trace m box1 d)
  = BoxTrace.trace m box1 (BoxTrace.setOpacity m o1 d) ∧
  BoxTrace.setOpacity m o1 (BoxTrace.setThickness m t1 d)
  = BoxTrace.setThickness m t1 (BoxTrace.setOpacity m o1 d).
Proof.
  rewrite !trace_writes, !setThickness_writes, !setOpacity_writes.
  rewrite <- !apply_writes_app.
  split_and!; apply apply_writes_ext.
  - apply same_effect_shadow. covered.
  - apply same_effect_shadow. covered.
  - apply same_effect_shadow. covered.
  - apply same_effect_swap. set_apart.
  - apply same_effect_swap. set_apart.
  - apply same_effect_swap. set_apart.
Qed.
End TraceCalls.

Section HighlightingCalls.
  Context {num : Type} `{JSNumber num}.

Lemma covered_by_app ws1 ws2 ws1' ws2' :
  covered_by ws1 ws1' → covered_by ws2 ws2' → covered_by (ws1 ++ ws2) (ws1' ++ ws2').
Proof.
  intros C1 C2 w [Hw|Hw]%elem_of_app.
  - destruct (C1 w Hw) as (w' & ? & ?). exists w'. split; [|done].
    apply elem_of_app. by left.
  - destruct (C2 w Hw) as (w' & ? & ?). exists w'. split; [|done].
    apply elem_of_app. by right.
Qed.

(** X6.  On every document and for every [BoxHighlighting], a later
    [highlight], assignment to [lineThickness] or [setOpacity] replaces an
    earlier call of the same kind entirely, [setOpacity] can be exchanged
    with the two others, and highlighting a box and assigning the line
    thickness give the same marker and the same document in either
    order (the setter highlights the last box again with the new
    thickness). *)
Theorem BoxHighlighting_calls_compose (m : BoxHighlighting.t num)
    (box1 box2 : BoxLike num) (t1 t2 o1 o2 : num) (d : Document) :
  (let '(m1, d1) := BoxHighlighting.highlight box1 m d in
   BoxHighlighting.highlight box2 m1 d1)
  = BoxHighlighting.highlight box2 m d ∧
  (let '(m1, d1) := BoxHighlighting.set_lineThickness t1 m d in
   BoxHighlighting.set_lineThickness t2 m1 d1)
  = BoxHighlighting.set_lineThickness t2 m d ∧
  BoxHighlighting.setOpacity m o2 (BoxHighlighting.setOpacity m o1 d)
  = BoxHighlighting.setOpacity m o2 d ∧
  (let '(m1, d1) := BoxHighlighting.highlight box1 m d in
   BoxHighlighting.set_lineThickness t1 m1 d1)
  = (let '(m1, d1) := BoxHighlighting.set_lineThickness t1 m d in
     BoxHighlighting.highlight box1 m1 d1) ∧
  (let '(m1, d1) := BoxHighlighting.highlight box1 m d in
   (m1, BoxHighlighting.setOpacity m1 o1 d1))
  = BoxHighlighting.highlight box1 m (BoxHighlighting.setOpacity m o1 d) ∧
  (let '(m1, d1) := BoxHighlighting.set_lineThickness t1 m d in
   (m1, BoxHighlighting.setOpacity m1 o1 d1))
  = BoxHighlighting.set_lineThickness t1 m (BoxHighlighting.setOpacity m o1 d).
Proof.
  assert (∀ o (m0 : BoxHighlighting.t num) d0,
            BoxHighlighting.setOpacity m0 o d0
            = apply_writes
                [mkWrite (BoxHighlighting.domNode m0) "opacity" (num_to_string o)] d0)
    as Ho by done.
  do 2 (rewrite ?highlight_spec, ?set_lineThickness_spec, ?Ho; cbv beta iota).
  rewrite <- !apply_writes_app.
  split_and!.
  - apply pair_equal_spec. split; [done|]. apply apply_writes_ext.
    apply same_effect_shadow. unfold HighlightPool.highlight_writes. covered.
  - apply pair_equal_spec. split; [done|].
    apply apply_writes_ext, same_effect_shadow, covered_by_app.
    + unfold HighlightPool.thickness_writes, BoxHighlighting.cornerBoxes.
      cbn [fmap list_fmap]. covered.
    + destruct (BoxHighlighting.highlightedBox m) as [box|];
        [|by intros w ?%elem_of_nil].
      unfold HighlightPool.highlight_writes. covered.
  - apply apply_writes_ext, same_effect_shadow. covered.
  - apply pair_equal_spec. split; [done|]. apply apply_writes_ext.
    cbn [BoxHighlighting.highlightedBox BoxHighlighting.with_highlightedBox].
    set (again := HighlightPool.highlight_writes box1
                    (BoxHighlighting.with_lineThickness t1 m)).
    apply (same_effect_trans _ (HighlightPool.thickness_writes t1 m ++ again)).
    + apply (same_effect_shadow _ (_ ++ again)). intros w Hw.
      assert (covered_by (HighlightPool.highlight_writes box1 m) again) as Hc
        by (unfold again, HighlightPool.highlight_writes; covered).
      destruct (Hc w Hw) as (w' & ? & ?).
      exists w'. split; [|done]. apply elem_of_app. by right.
    + rewrite <- app_assoc. apply same_effect_app; [done|].
      intros n k. symmetry. apply same_effect_shadow.
      destruct (BoxHighlighting.highlightedBox m) as [box|];
        [|by intros w ?%elem_of_nil].
      unfold again, HighlightPool.highlight_writes. covered.
  - apply pair_equal_spec. split; [done|]. apply apply_writes_ext.
    apply (same_effect_swap (HighlightPool.highlight_writes box1 m) [_]).
    unfold HighlightPool.highlight_writes. set_apart.
  - apply pair_equal_spec. split; [done|]. apply apply_writes_ext.
    apply (same_effect_swap _ [_]).
    unfold HighlightPool.thickness_writes, BoxHighlighting.cornerBoxes.
    cbn [fmap list_fmap app].
    destruct (BoxHighlighting.highlightedBox m) as [box|];
      unfold HighlightPool.highlight_writes; set_apart.
Qed.
End HighlightingCalls.

(** ** The constructors, in closed form *)

Section Constructors.
  Context {num : Type} `{JSNumber num}.
  Implicit Types (d : Document) (n m c g : nat) (k v : string).

Lemma appendChild_parentless c n d :
  is_Some (nodes d !! c) → is_Some (nodes d !! n) → c ≠ n →
  parentOf d c = None → parentOf d n = None →
  appendChild c n d
  = Ok (mkDocument
          (alter (with_childNodes (λ l, l ++ [n])) c
             (alter (with_parentNode (Some c)) n (nodes d)))
          (nextNode d)).
Proof.
  intros [ec Ec] [en En] Hne Hc Hn. unfold appendChild. rewrite Ec, En.
  rewrite ancestor_parentless by done. by rewrite remove_no_parent.
Qed.

Lemma lookup_setAttribute_eq n k v d :
  nodes (setAttribute n k v d) !! n = with_attribute k v <$> nodes d !! n.
Proof. apply lookup_alter_eq. Qed.

Lemma lookup_setAttribute_ne n k v d m :
  n ≠ m → nodes (setAttribute n k v d) !! m = nodes d !! m.
Proof. apply lookup_alter_ne. Qed.

Lemma lookup_setStyle_eq n k v d :
  nodes (setStyle n k v d) !! n = with_style k v <$> nodes d !! n.
Proof. apply lookup_alter_eq. Qed.

Lemma lookup_setStyle_ne n k v d m :
  n ≠ m → nodes (setStyle n k v d) !! m = nodes d !! m.
Proof. apply lookup_alter_ne. Qed.

Lemma document_eq d d' : nodes d = nodes d' → nextNode d = nextNode d' → d = d'.
Proof. destruct d, d'. simpl. by intros -> ->. Qed.

Ltac lookups :=
  repeat first
    [ rewrite lookup_setAttribute_eq
    | rewrite lookup_setAttribute_ne by lia
    | rewrite lookup_setStyle_eq
    | rewrite lookup_setStyle_ne by lia
    | progress cbn [nodes]
    | rewrite lookup_alter_eq
    | rewrite lookup_alter_ne by lia
    | rewrite lookup_insert_eq
    | rewrite lookup_insert_ne by lia ].

Ltac append_new :=
  rewrite appendChild_parentless;
    [cbn [mbind result_bind]
    |unfold parentOf; lookups; first [done|lia|by eexists]..].

Lemma BoxTrace_new_result (a : BoxTrace.Appearance) d :
  BoxTrace.new a d
  = Ok (BoxTrace.mk (nextNode d) (1 + nextNode d) (2 + nextNode d), Built.boxTrace a d).
Proof.
  unfold BoxTrace.new. cbn [createElementNS]. cbn zeta beta iota.
  cbn [append nodes nextNode].
  do 2 append_new.
  cbn [mret result_ret]. do 2 f_equal. unfold Built.boxTrace.
  destruct a as [ls ds da [cap|] off sw]; cbn [BoxTrace.strokeLinecap from_option
    BoxTrace.lightStroke BoxTrace.darkStroke BoxTrace.strokeDasharray
    BoxTrace.darkDashoffset BoxTrace.strokeWidth];
    (apply document_eq; [|done]; apply map_eq; intros n;
     destruct (decide (n = nextNode d)) as [->|?];
       [|destruct (decide (n = S (nextNode d))) as [->|?];
           [|destruct (decide (n = S (S (nextNode d)))) as [->|?]]];
     lookups; done).
Qed.

Lemma BoxHighlighting_new_result d :
  BoxHighlighting.new (num:=num) d
  = Ok (BoxHighlighting.mk (nextNode d) (1 + nextNode d) (2 + nextNode d)
          (3 + nextNode d) (4 + nextNode d) (5 + nextNode d) (num_lit 5 1) None,
        Built.boxHighlighting (num_to_string (num_lit 5 1)) d).
Proof.
  unfold BoxHighlighting.new. cbn [createElementNS]. cbn zeta beta iota.
  unfold BoxHighlighting.cornerBoxes.
  cbn [append nodes nextNode BoxHighlighting.topLeftCornerBox
       BoxHighlighting.topRightCornerBox BoxHighlighting.bottomRightCornerBox
       BoxHighlighting.bottomLeftCornerBox BoxHighlighting.lineThickness].
  do 5 append_new.
  cbn [mret result_ret forEach foldl]. do 2 f_equal. unfold Built.boxHighlighting.
  apply document_eq; [|done]. apply map_eq. intros n.
  destruct (decide (n = nextNode d)) as [->|?];
    [|destruct (decide (n = 1 + nextNode d)) as [->|?];
       [|destruct (decide (n = 2 + nextNode d)) as [->|?];
          [|destruct (decide (n = 3 + nextNode d)) as [->|?];
             [|destruct (decide (n = 4 + nextNode d)) as [->|?];
                [|destruct (decide (n = 5 + nextNode d)) as [->|?]]]]]];
    cbn [Nat.add]; lookups; done.
Qed.
End Constructors.

Section ConstructorTheorems.
  Context {num : Type} `{JSNumber num}.

Lemma BoxTrace_new_wf (a : BoxTrace.Appearance) d :
  doc_wf d → doc_wf (Built.boxTrace a d).
Proof.
  intros W. destruct (BoxTrace_new_spec a d W) as (m & d' & E & W' & _).
  rewrite BoxTrace_new_result in E. by injection E as _ <-.
Qed.

Lemma BoxHighlighting_new_wf d :
  doc_wf d → doc_wf (Built.boxHighlighting (num_to_string (num_lit 5 1)) d).
Proof.
  intros W. destruct (BoxHighlighting_new_spec (num:=num) d W) as (m & d' & E & W' & _).
  rewrite BoxHighlighting_new_result in E. by injection E as _ <-.
Qed.

Ltac built_lookups :=
  cbn [nodes]; 
  repeat first [ rewrite lookup_insert_eq | rewrite lookup_insert_ne by lia ].

(** X1.  The constructor of [BoxTrace] returns on every document.  It
    allocates the next three nodes: a group without parent, with
    [pointer-events: none] as its only inline style and the two dashings
    as its children, the light (blue) one first and the dark (aqua) one on
    top of it; each dashing is a path in the group, without children or
    style, with the attributes of its revision and no others (no path
    data, no opacity; only the second path has a dash offset).  The
    constructor sets no attribute of the group: whatever its name, an
    attribute other than [style], in which the platform keeps the text of
    the inline style and which the store does not hold, is absent.  No
    other node of the document changes, and a well-formed document stays
    well formed. *)
Theorem BoxTrace_constructor :
  (∀ (a : BoxTrace.Appearance) d, ∃ m d',
     BoxTrace.new a d = Ok (m, d') ∧
     BoxTrace.nodesOf m = [nextNode d; 1 + nextNode d; 2 + nextNode d] ∧
     nextNode d' = 3 + nextNode d ∧
     (∃ g, nodes d' !! BoxTrace.domNode m = Some g ∧
        tagName g = "g" ∧
        parentNode g = None ∧
        childNodes g = [BoxTrace.lightDashing m; BoxTrace.darkDashing m] ∧
        style g = {["pointer-events" := "none"]} ∧
        ∀ k, k ≠ "style" → attributes g !! k = None) ∧
     nodes d' !! BoxTrace.lightDashing m
     = Some (mkElement "path" (Some (BoxTrace.domNode m)) [] (Built.lightDashing a) ∅) ∧
     nodes d' !! BoxTrace.darkDashing m
     = Some (mkElement "path" (Some (BoxTrace.domNode m)) [] (Built.darkDashing a) ∅) ∧
     (∀ n, n ∉ BoxTrace.nodesOf m → nodes d' !! n = nodes d !! n) ∧
     (doc_wf d → doc_wf d')) ∧
  Built.lightDashing BoxTrace.lightDark
  = list_to_map [ ("stroke", "powderblue"); ("stroke-dasharray", "0 1");
                  ("stroke-linecap", "round"); ("stroke-width", "0.4");
                  ("fill", "none") ] ∧
  Built.darkDashing BoxTrace.lightDark
  = list_to_map [ ("stroke", "blue"); ("stroke-dasharray", "0 1");
                  ("stroke-linecap", "round"); ("stroke-dashoffset", "0.5");
                  ("stroke-width", "0.4"); ("fill", "none") ] ∧
  Built.lightDashing BoxTrace.blueAqua
  = list_to_map [ ("stroke", "blue"); ("stroke-dasharray", "0.75 0.75");
                  ("stroke-width", "0.75"); ("fill", "none") ] ∧
  Built.darkDashing BoxTrace.blueAqua
  = list_to_map [ ("stroke", "aqua"); ("stroke-dasharray", "0.75 0.75");
                  ("stroke-dashoffset", "0.75"); ("stroke-width", "0.75");
                  ("fill", "none") ].
Proof.
  split; [|by split_and!].
  intros a d. eexists _, _. split; [apply BoxTrace_new_result|].
  unfold BoxTrace.nodesOf, Built.boxTrace.
  cbn [BoxTrace.domNode BoxTrace.lightDashing BoxTrace.darkDashing nextNode].
  split_and!; try done.
  - eexists. split; [by built_lookups|]. by split_and!.
  - by built_lookups.
  - by built_lookups.
  - intros n Hn. rewrite !not_elem_of_cons in Hn. destruct Hn as (? & ? & ? & _).
    cbn [nodes]. by rewrite !lookup_insert_ne by done.
  - apply BoxTrace_new_wf.
Qed.

(** X2.  The constructor of [BoxHighlighting] returns on every document.
    It allocates the next six nodes: a group without parent, with
    [pointer-events: none] as its only inline style, whose children are
    the outline and the corner boxes (top left, top right, bottom right,
    bottom left, in this order); the outline is a blue stroke without
    fill, the corner boxes are blue strokes filled white, and all five are
    as thick as the initial line thickness 0.5, which is what the getter
    returns; no box is highlighted yet and no path has path data.  The
    constructor sets no attribute of the group: whatever its name, an
    attribute other than [style], in which the platform keeps the text of
    the inline style and which the store does not hold, is absent.  No
    other node of the document changes, and a well-formed document stays
    well formed. *)
Theorem BoxHighlighting_constructor (d : Document) :
  ∃ (m : BoxHighlighting.t num) d',
    BoxHighlighting.new d = Ok (m, d') ∧
    BoxHighlighting.nodesOf m = seq (nextNode d) 6 ∧
    nextNode d' = 6 + nextNode d ∧
    BoxHighlighting.lineThickness m = num_lit 5 1 ∧
    BoxHighlighting.highlightedBox m = None ∧
    (∃ g, nodes d' !! BoxHighlighting.domNode m = Some g ∧
       tagName g = "g" ∧
       parentNode g = None ∧
       childNodes g = BoxHighlighting.boxTrace m :: BoxHighlighting.cornerBoxes m ∧
       style g = {["pointer-events" := "none"]} ∧
       ∀ k, k ≠ "style" → attributes g !! k = None) ∧
    nodes d' !! BoxHighlighting.boxTrace m
    = Some (mkElement "path" (Some (BoxHighlighting.domNode m)) []
              (list_to_map
                 [ ("stroke", "blue");
                   ("stroke-width", num_to_string (BoxHighlighting.lineThickness m));
                   ("fill", "none") ]) ∅) ∧
    (∀ c, c ∈ BoxHighlighting.cornerBoxes m →
       nodes d' !! c
       = Some (mkElement "path" (Some (BoxHighlighting.domNode m)) []
                 (list_to_map
                    [ ("stroke", "blue");
                      ("stroke-width", num_to_string (BoxHighlighting.lineThickness m));
                      ("fill", "white") ]) ∅)) ∧
    (∀ n, n ∉ BoxHighlighting.nodesOf m → nodes d' !! n = nodes d !! n) ∧
    (doc_wf d → doc_wf d').
Proof.
  eexists _, _. split; [apply BoxHighlighting_new_result|].
  unfold BoxHighlighting.nodesOf, BoxHighlighting.cornerBoxes, Built.boxHighlighting.
  cbn [BoxHighlighting.domNode BoxHighlighting.boxTrace
       BoxHighlighting.topLeftCornerBox BoxHighlighting.topRightCornerBox
       BoxHighlighting.bottomRightCornerBox BoxHighlighting.bottomLeftCornerBox
       BoxHighlighting.lineThickness BoxHighlighting.highlightedBox nextNode].
  split_and!; try done.
  - eexists. split; [by built_lookups|]. by split_and!.
  - by built_lookups.
  - intros c Hc. each_write Hc; built_lookups; done.
  - intros n Hn. rewrite !not_elem_of_cons in Hn.
    destruct Hn as (? & ? & ? & ? & ? & ? & _).
    cbn [nodes]. by rewrite !lookup_insert_ne by done.
  - apply BoxHighlighting_new_wf.
Qed.
End ConstructorTheorems.

(** ** The fields of a box highlighting agree with its nodes *)

Section HighlightingState.
  Context {num : Type} `{JSNumber num}.

(** When every write to an attribute has the same value, this is the
    value it ends with. *)
Lemma last_write_agreed n k v w ws :
  w ∈ ws → wnode w = n → wkey w = k →
  (∀ w', w' ∈ ws → wnode w' = n → wkey w' = k → wvalue w' = v) →
  last_write n k ws = Some v.
Proof.
  intros Hw Hn Hk Hall.
  destruct (last_write_is_Some n k w ws Hw Hn Hk) as [v' Hv'].
  rewrite Hv'. apply last_write_Some in Hv' as (w' & Hw' & Hn' & Hk' & <-).
  f_equal. by apply Hall.
Qed.

Lemma last_write_other_key n k ws :
  (∀ w, w ∈ ws → wkey w ≠ k) → last_write n k ws = None.
Proof. intros Hk. apply last_write_None. intros w Hw [_ E]. by apply (Hk w). Qed.

Lemma thickness_writes_last (t : num) (m : BoxHighlighting.t num) n :
  n ∈ BoxHighlighting.boxTrace m :: BoxHighlighting.cornerBoxes m →
  last_write n "stroke-width" (HighlightPool.thickness_writes t m)
  = Some (num_to_string t).
Proof.
  intros Hn. unfold HighlightPool.thickness_writes.
  apply (last_write_agreed _ _ _ (mkWrite n "stroke-width" (num_to_string t)));
    try done.
  - apply list_elem_of_fmap. by exists n.
  - by intros w' (e & -> & _)%list_elem_of_fmap _ _.
Qed.

Lemma highlight_writes_keys (box : BoxLike num) (m : BoxHighlighting.t num) w :
  w ∈ HighlightPool.highlight_writes box m → wkey w = "d".
Proof. unfold HighlightPool.highlight_writes. intros Hw. by each_write Hw. Qed.

Lemma thickness_writes_keys (t : num) (m : BoxHighlighting.t num) w :
  w ∈ HighlightPool.thickness_writes t m → wkey w = "stroke-width".
Proof. by intros (e & -> & _)%list_elem_of_fmap. Qed.

(** X7.  The state a [BoxHighlighting] keeps in its private fields agrees
    with its nodes from the constructor on, whatever is called: the
    [stroke-width] of the outline and of the four corner boxes is the line
    thickness the getter returns, and once a box has been highlighted the
    outline has the path data of that box and each corner box the path
    data of [cornerBoxD] at its corner, for the current line thickness.
    [highlight], the [lineThickness] setter, [setOpacity], [appendTo] and
    [remove] all keep this. *)
Theorem highlighting_stays_consistent :
  (∀ d, ∃ (m : BoxHighlighting.t num) d',
     BoxHighlighting.new d = Ok (m, d') ∧ highlighting_consistent m d') ∧
  (∀ (m : BoxHighlighting.t num) d box,
     highlighting_consistent m d →
     let '(m', d') := BoxHighlighting.highlight box m d in
     highlighting_consistent m' d' ∧
     BoxHighlighting.highlightedBox m' = Some (Box.matching box) ∧
     BoxHighlighting.lineThickness m' = BoxHighlighting.lineThickness m) ∧
  (∀ (m : BoxHighlighting.t num) d t,
     highlighting_consistent m d →
     let '(m', d') := BoxHighlighting.set_lineThickness t m d in
     highlighting_consistent m' d' ∧
     BoxHighlighting.lineThickness m' = t ∧
     BoxHighlighting.highlightedBox m' = BoxHighlighting.highlightedBox m) ∧
  (∀ (m : BoxHighlighting.t num) d opacity,
     highlighting_consistent m d →
     highlighting_consistent m (BoxHighlighting.setOpacity m opacity d)) ∧
  (∀ (m : BoxHighlighting.t num) d container d',
     highlighting_consistent m d →
     BoxHighlighting.appendTo m container d = Ok d' →
     highlighting_consistent m d') ∧
  (∀ (m : BoxHighlighting.t num) d,
     highlighting_consistent m d →
     highlighting_consistent m (BoxHighlighting.remove m d)).
Proof.
  assert (∀ (m : BoxHighlighting.t num) d d',
            (∀ n, is_Some (nodes d' !! n) ↔ is_Some (nodes d !! n)) →
            (∀ n k, k = "d" ∨ k = "stroke-width" →
               getAttribute d' n k = getAttribute d n k) →
            highlighting_consistent m d → highlighting_consistent m d') as Hsame.
  { intros m d d' Hex Hattr (ND & Hn & Hw & Hd). split_and!; try done.
    - intros n Hn'. by apply Hex, Hn.
    - intros n Hn'. rewrite Hattr by auto. by apply Hw.
    - intros box Hbox. rewrite !Hattr by auto. by apply Hd. }
  split_and!.
  - intros d. eexists _, _. split; [apply BoxHighlighting_new_result|].
    assert (∀ n, n ∈ seq (nextNode d) 6 →
              ∃ e, nodes (Built.boxHighlighting (num_to_string (num_lit 5 1)) d) !! n
                   = Some e ∧
                   (n ≠ nextNode d →
                    attributes e !! "stroke-width"
                    = Some (num_to_string (num_lit 5 1)))) as Hb.
    { intros n Hn. unfold Built.boxHighlighting. cbn [nodes seq] in *.
      each_write Hn;
        repeat first [rewrite lookup_insert_eq | rewrite lookup_insert_ne by lia];
        eexists; (split; [done|]); first [done|lia]. }
    split_and!.
    + exact (NoDup_seq (nextNode d) 6).
    + intros n Hn. destruct (Hb n Hn) as (e & -> & _). by eexists.
    + intros n Hn.
      destruct (Hb n) as (e & He & Hw); [by right|].
      unfold getAttribute. rewrite He. cbn. apply Hw.
      unfold BoxHighlighting.cornerBoxes in Hn.
      cbn [BoxHighlighting.boxTrace BoxHighlighting.topLeftCornerBox
           BoxHighlighting.topRightCornerBox BoxHighlighting.bottomRightCornerBox
           BoxHighlighting.bottomLeftCornerBox] in Hn.
      each_write Hn; lia.
    + done.
  - intros m d box (ND & Hn & Hw & Hd). rewrite highlight_spec.
    split; [|done]. split_and!.
    + done.
    + intros n Hn'. by apply apply_writes_is_Some, Hn.
    + intros n Hn'. rewrite getAttribute_apply_writes, last_write_other_key.
      * by apply Hw.
      * intros w ->%highlight_writes_keys. done.
    + intros box' [= <-].
      destruct (highlight_only_last box m ND) as (L1 & L2 & L3 & L4 & L5).
      assert (∀ n (v : string), n ∈ BoxHighlighting.nodesOf m →
                nodes d !! n ≫= (λ _, Some v) = Some v) as Hv.
      { intros n v Hn'. by destruct (Hn n Hn') as [e ->]. }
      cbn [BoxHighlighting.boxTrace BoxHighlighting.topLeftCornerBox
           BoxHighlighting.topRightCornerBox BoxHighlighting.bottomRightCornerBox
           BoxHighlighting.bottomLeftCornerBox BoxHighlighting.with_highlightedBox].
      rewrite !getAttribute_apply_writes, L1, L2, L3, L4, L5.
      unfold BoxHighlighting.nodesOf, BoxHighlighting.cornerBoxes in Hv.
      split_and!; apply Hv; in_list.
  - intros m d t (ND & Hn & Hw & Hd). rewrite set_lineThickness_spec.
    split; [|done]. split_and!.
    + done.
    + intros n Hn'. by apply apply_writes_is_Some, Hn.
    + intros n Hn'. rewrite getAttribute_apply_writes, last_write_app.
      rewrite (last_write_other_key _ _ (match _ with Some _ => _ | None => _ end)).
      2:{ intros w Hw'. destruct (BoxHighlighting.highlightedBox m);
            [by apply highlight_writes_keys in Hw' as ->|by apply elem_of_nil in Hw']. }
      rewrite thickness_writes_last by done.
      destruct (Hn n) as [e ->]; [by right|done].
    + intros box Hbox.
      replace (BoxHighlighting.highlightedBox m) with (Some box).
      destruct (highlight_only_last box (BoxHighlighting.with_lineThickness t m) ND)
        as (L1 & L2 & L3 & L4 & L5).
      assert (∀ n (v : string), n ∈ BoxHighlighting.nodesOf m →
                nodes d !! n ≫= (λ _, Some v) = Some v) as Hv.
      { intros n v Hn'. by destruct (Hn n Hn') as [e ->]. }
      cbn [BoxHighlighting.boxTrace BoxHighlighting.topLeftCornerBox
           BoxHighlighting.topRightCornerBox BoxHighlighting.bottomRightCornerBox
           BoxHighlighting.bottomLeftCornerBox BoxHighlighting.with_lineThickness]
        in L1, L2, L3, L4, L5 |- *.
      rewrite !getAttribute_apply_writes, !last_write_app, L1, L2, L3, L4, L5.
      unfold BoxHighlighting.nodesOf, BoxHighlighting.cornerBoxes in Hv.
      split_and!; apply Hv; in_list.
  - intros m d opacity. apply Hsame.
    + intros n. apply setAttribute_is_Some.
    + intros n k Hk. apply getAttribute_setAttribute_ne. right.
      destruct Hk; by subst.
  - intros m d container d' I Happ. revert I. apply Hsame.
    + intros n. by eapply appendChild_is_Some.
    + intros n k _. apply appendChild_Ok in Happ as (_ & _ & _ & _ & A & _).
      by apply same_attributes_getAttribute.
  - intros m d. apply Hsame.
    + intros n. apply remove_is_Some.
    + intros n k _. apply same_attributes_getAttribute, remove_same_attributes.
Qed.
End HighlightingState.

(** ** Attaching and detaching *)

Section AttachDetach.
  Context {num : Type} `{JSNumber num}.
  Implicit Types (d : Document) (n m c r : nat).

Lemma wf_parentless_no_child d r c :
  doc_wf d → parentOf d r = None → r ∉ childrenOf d c.
Proof. intros W Hp Hin%(wf_child d W). congruence. Qed.

(** Putting a parentless node into a container and taking it out again
    gives the document back. *)
Lemma appendChild_remove c r d d1 :
  doc_wf d → parentOf d r = None → appendChild c r d = Ok d1 →
  DOM.remove r d1 = d.
Proof.
  intros W Hp Happ.
  pose proof (appendChild_wf _ _ _ _ Happ W) as W1.
  pose proof (λ m, appendChild_is_Some _ _ _ _ m Happ) as Hex.
  pose proof Happ as (Hc & Hr & Hne & HN & A & P & K)%appendChild_Ok.
  pose proof (remove_same_attributes r d1) as A1.
  apply document_eq; [|by rewrite remove_nextNode].
  apply map_eq. intros n.
  assert (parentOf (DOM.remove r d1) n = parentOf d n) as HP.
  { rewrite remove_parentOf, P. case_decide; [subst; by rewrite Hp|done]. }
  assert (childrenOf (DOM.remove r d1) n = childrenOf d n) as HK.
  { rewrite remove_childrenOf, P, (decide_True (P := r = r)) by done.
    rewrite !K, Hp, (decide_False (P := None = Some n)) by done.
    destruct (decide (n = c)) as [->|Hn].
    - rewrite (decide_True (P := Some c = Some c)) by done. rewrite filter_app.
      rewrite filter_ne_id by (by apply wf_parentless_no_child).
      rewrite filter_cons_False by tauto. by rewrite filter_nil, app_nil_r.
    - rewrite app_nil_r. by rewrite decide_False by congruence. }
  pose proof (same_attributes_trans _ _ _ A A1 n) as An.
  unfold parentOf in HP. unfold childrenOf in HK.
  destruct (nodes (DOM.remove r d1) !! n) as [[tg p ks att st]|],
           (nodes d !! n) as [[tg' p' ks' att' st']|]; simpl in *; try done.
  by simplify_eq.
Qed.

Lemma remove_twice r d : DOM.remove r (DOM.remove r d) = DOM.remove r d.
Proof. apply remove_no_parent. by rewrite remove_parentOf, decide_True. Qed.

(** X4.  For both markers and both controllers: [remove] changes nothing
    when the root node has no parent, calling it a second time changes
    nothing either, and in a well-formed document [appendTo] followed by
    [remove] gives back exactly the document (or the world) there was
    before the node was put into the container. *)
Theorem appendTo_then_remove :
  (∀ (m : BoxTrace.t) d,
     (parentOf d (BoxTrace.domNode m) = None → BoxTrace.remove m d = d) ∧
     BoxTrace.remove m (BoxTrace.remove m d) = BoxTrace.remove m d ∧
     ∀ container d1,
       doc_wf d → parentOf d (BoxTrace.domNode m) = None →
       BoxTrace.appendTo m container d = Ok d1 → BoxTrace.remove m d1 = d) ∧
  (∀ (m : BoxHighlighting.t num) d,
     (parentOf d (BoxHighlighting.domNode m) = None → BoxHighlighting.remove m d = d) ∧
     BoxHighlighting.remove m (BoxHighlighting.remove m d) = BoxHighlighting.remove m d ∧
     ∀ container d1,
       doc_wf d → parentOf d (BoxHighlighting.domNode m) = None →
       BoxHighlighting.appendTo m container d = Ok d1 →
       BoxHighlighting.remove m d1 = d) ∧
  (∀ (this : LiveSVGElementTracings.t) w,
     (parentOf (document w) (LiveSVGElementTracings.domNode this) = None →
      LiveSVGElementTracings.remove this w = w) ∧
     LiveSVGElementTracings.remove this (LiveSVGElementTracings.remove this w)
     = LiveSVGElementTracings.remove this w ∧
     ∀ container w1,
       doc_wf (document w) →
       parentOf (document w) (LiveSVGElementTracings.domNode this) = None →
       LiveSVGElementTracings.appendTo this container w = Ok w1 →
       LiveSVGElementTracings.remove this w1 = w) ∧
  (∀ (this : LiveSVGElementHighlightings.t num) w,
     (parentOf (document w) (LiveSVGElementHighlightings.domNode this) = None →
      LiveSVGElementHighlightings.remove this w = w) ∧
     LiveSVGElementHighlightings.remove this (LiveSVGElementHighlightings.remove this w)
     = LiveSVGElementHighlightings.remove this w ∧
     ∀ container w1,
       doc_wf (document w) →
       parentOf (document w) (LiveSVGElementHighlightings.domNode this) = None →
       LiveSVGElementHighlightings.appendTo this container w = Ok w1 →
       LiveSVGElementHighlightings.remove this w1 = w).
Proof.
  split_and!.
  - intros m d. split_and!.
    + apply remove_no_parent.
    + apply remove_twice.
    + intros c d1. apply appendChild_remove.
  - intros m d. split_and!.
    + apply remove_no_parent.
    + apply remove_twice.
    + intros c d1. apply appendChild_remove.
  - intros this [d co li ob]. unfold LiveSVGElementTracings.remove,
      LiveSVGElementTracings.appendTo, with_document. cbn [document console
      changeListeners observations]. split_and!.
    + intros Hp. by rewrite remove_no_parent.
    + by rewrite remove_twice.
    + intros c w1 W Hp Happ.
      destruct (appendChild c _ d) as [d1|] eqn:E; [|done].
      injection Happ as <-. cbn. by rewrite (appendChild_remove c _ d d1).
  - intros this [d co li ob]. unfold LiveSVGElementHighlightings.remove,
      LiveSVGElementHighlightings.appendTo, with_document. cbn [document console
      changeListeners observations]. split_and!.
    + intros Hp. by rewrite remove_no_parent.
    + by rewrite remove_twice.
    + intros c w1 W Hp Happ.
      destruct (appendChild c _ d) as [d1|] eqn:E; [|done].
      injection Happ as <-. cbn. by rewrite (appendChild_remove c _ d d1).
Qed.
End AttachDetach.

(** ** A box trace in a container *)

Section TraceInContainer.
  Context {num : Type} `{JSNumber num}.
  Implicit Types (d : Document) (n c g : nat).

(** A node allocated after the nodes of a well-formed document can be put
    into any node of that document. *)
Lemma appendChild_new_node c r d0 d :
  doc_wf d0 → is_Some (nodes d0 !! c) → nextNode d0 ≤ r →
  (∀ n, n < nextNode d0 → nodes d !! n = nodes d0 !! n) →
  is_Some (nodes d !! r) →
  is_Ok (appendChild c r d).
Proof.
  intros W Hc Hr Hold Hex.
  pose proof (wf_bound d0 W c Hc) as Hlt.
  apply appendChild_unchecked; [by rewrite Hold|done|].
  apply (ancestor_bound _ _ _ _ (nextNode d0)); [|done..].
  intros n p Hn. unfold parentOf. rewrite Hold by done.
  by apply wf_parent_below.
Qed.

(** X3.  What the tests of [BoxTrace] do, in every well-formed document
    and for every box, thickness and opacity.  A new box trace can be
    appended to a container that [createElementNS] has just made as an
    [svg] element: the container, which had no children, then has the
    group as its only child, and the group has the two dashings as its
    children.  [trace] gives both dashings the path data of the outline of
    the box, [setThickness] gives both the stroke width and [setOpacity]
    gives the group the opacity, as template literals print them, and none
    of the three changes the tree.  [remove] gives back the document as it
    was before [appendTo], with a container that has no children. *)
Theorem BoxTrace_in_a_container (a : BoxTrace.Appearance) d
    (box : BoxLike num) (thickness opacity : num) :
  doc_wf d →
  ∃ m d1 container d2 d3 g p0 p1,
    BoxTrace.new a d = Ok (m, d1) ∧
    createElementNS "svg" d1 = (container, d2) ∧
    BoxTrace.nodesOf m = [g; p0; p1] ∧
    childrenOf d2 container = [] ∧
    BoxTrace.appendTo m container d2 = Ok d3 ∧
    doc_wf d3 ∧
    childrenOf d3 container = [g] ∧
    childrenOf d3 g = [p0; p1] ∧
    getAttribute (BoxTrace.trace m box d3) p0 "d"
    = Some (path_to_string (perimeterPath box)) ∧
    getAttribute (BoxTrace.trace m box d3) p1 "d"
    = Some (path_to_string (perimeterPath box)) ∧
    getAttribute (BoxTrace.setThickness m thickness d3) p0 "stroke-width"
    = Some (num_to_string thickness) ∧
    getAttribute (BoxTrace.setThickness m thickness d3) p1 "stroke-width"
    = Some (num_to_string thickness) ∧
    getAttribute (BoxTrace.setOpacity m opacity d3) g "opacity"
    = Some (num_to_string opacity) ∧
    same_structure d3 (BoxTrace.trace m box d3) ∧
    same_structure d3 (BoxTrace.setThickness m thickness d3) ∧
    same_structure d3 (BoxTrace.setOpacity m opacity d3) ∧
    BoxTrace.remove m d3 = d2 ∧
    childrenOf (BoxTrace.remove m d3) container = [].
Proof.
  intros W.
  pose proof (BoxTrace_new_wf a d W) as W1.
  set (g := nextNode d) in *.
  set (d1 := Built.boxTrace a d) in *.
  assert (nextNode d1 = 3 + g) as Hnext by done.
  set (d2 := (createElementNS "svg" d1).2).
  pose proof (createElementNS_wf "svg" d1 W1) as W2. fold d2 in W2.
  assert (∀ n, n ∈ [g; 1 + g; 2 + g] → nodes d2 !! n = nodes d1 !! n) as Hold.
  { intros n Hn. unfold d2, createElementNS. cbn [snd nodes]. rewrite Hnext.
    each_write Hn; by rewrite lookup_insert_ne by lia. }
  assert (∀ n, n ∈ [g; 1 + g; 2 + g] → is_Some (nodes d2 !! n)) as Hnew.
  { intros n Hn. rewrite (Hold n Hn). unfold d1, Built.boxTrace. fold g. cbn [nodes].
    each_write Hn;
      repeat first [rewrite lookup_insert_eq | rewrite lookup_insert_ne by lia];
      by eexists. }
  assert (nodes d2 !! (3 + g) = Some (mkElement "svg" None [] ∅ ∅)) as Hc.
  { unfold d2, createElementNS. cbn [snd nodes]. rewrite Hnext.
    by rewrite lookup_insert_eq. }
  assert (parentOf d2 g = None) as Hpg.
  { unfold parentOf. rewrite Hold by in_list.
    unfold d1, Built.boxTrace. fold g. cbn [nodes]. by rewrite lookup_insert_eq. }
  assert (childrenOf d2 g = [1 + g; 2 + g]) as Hkg.
  { unfold childrenOf. rewrite Hold by in_list.
    unfold d1, Built.boxTrace. fold g. cbn [nodes]. by rewrite lookup_insert_eq. }
  assert (childrenOf d2 (3 + g) = []) as Hkc by (unfold childrenOf; by rewrite Hc).
  assert (is_Ok (appendChild (3 + g) g d2)) as [d3 E3].
  { apply appendChild_unchecked; [exact (mk_is_Some _ _ Hc)|apply Hnew; in_list|].
    destruct (size (nodes d2)); cbn [inclusive_ancestor];
      rewrite decide_False by lia; [done|].
    unfold parentOf. by rewrite Hc. }
  pose proof (appendChild_wf _ _ _ _ E3 W2) as W3.
  pose proof (λ n, appendChild_is_Some _ _ _ _ n E3) as Hex.
  pose proof E3 as (_ & _ & Hne & _ & _ & _ & K)%appendChild_Ok.
  assert (∀ n, n ∈ [g; 1 + g; 2 + g] → is_Some (nodes d3 !! n)) as Hnew3.
  { intros n Hn. by apply Hex, Hnew. }
  assert (BoxTrace.remove (BoxTrace.mk g (1 + g) (2 + g)) d3 = d2) as R
    by (by apply (appendChild_remove (3 + g))).
  exists (BoxTrace.mk g (1 + g) (2 + g)), d1, (3 + g), d2, d3, g, (1 + g), (2 + g).
  split; [apply BoxTrace_new_result|].
  split; [unfold d2, createElementNS; cbn [snd]; by rewrite Hnext|].
  split; [done|]. split; [exact Hkc|]. split; [exact E3|]. split; [exact W3|].
  split_and!.
  - rewrite K, Hpg. rewrite decide_False by done. rewrite decide_True by done.
    by rewrite Hkc.
  - rewrite K, Hpg. rewrite decide_False by done. rewrite decide_False by lia.
    by rewrite Hkg, app_nil_r.
  - unfold BoxTrace.trace. cbn zeta. rewrite perimeter_string.
    cbn [BoxTrace.lightDashing BoxTrace.darkDashing].
    rewrite getAttribute_setAttribute_ne by (left; lia).
    apply getAttribute_setAttribute_eq, Hnew3. in_list.
  - unfold BoxTrace.trace. cbn zeta. rewrite perimeter_string.
    apply getAttribute_setAttribute_eq, setAttribute_is_Some, Hnew3. in_list.
  - unfold BoxTrace.setThickness. cbn zeta.
    cbn [BoxTrace.lightDashing BoxTrace.darkDashing].
    rewrite getAttribute_setAttribute_ne by (left; lia).
    apply getAttribute_setAttribute_eq, Hnew3. in_list.
  - unfold BoxTrace.setThickness. cbn zeta.
    apply getAttribute_setAttribute_eq, setAttribute_is_Some, Hnew3. in_list.
  - apply getAttribute_setAttribute_eq, Hnew3. in_list.
  - rewrite trace_writes. apply apply_writes_same_structure.
  - rewrite setThickness_writes. apply apply_writes_same_structure.
  - apply setAttribute_same_structure.
  - exact R.
  - by rewrite R.
Qed.
End TraceInContainer.

(** ** Containers that are refused *)

Section Refused.
  Context {num : Type} `{JSNumber num}.
  Implicit Types (d : Document) (n c r : nat).

Lemma appendChild_into_itself r d :
  is_Some (nodes d !! r) → appendChild r r d = Throw HierarchyRequestError.
Proof.
  intros [e He]. unfold appendChild. rewrite He.
  destruct (size (nodes d)); simpl; by rewrite decide_True.
Qed.

Lemma appendChild_into_child c r d :
  is_Some (nodes d !! r) → parentOf d c = Some r →
  appendChild c r d = Throw HierarchyRequestError.
Proof.
  intros [e He] Hp. unfold appendChild.
  destruct (nodes d !! c) as [ec|] eqn:Ec; [|by unfold parentOf in Hp; rewrite Ec in Hp].
  rewrite He.
  pose proof (map_size_ne_0_lookup_2 (nodes d) r (mk_is_Some _ _ He)) as Hs.
  destruct (size (nodes d)) as [|fuel]; [done|]. simpl.
  destruct (decide (r = c)); [done|]. rewrite Hp.
  destruct fuel; simpl; by rewrite decide_True.
Qed.

(** X8.  Right after its construction in a well-formed document, a marker
    refuses its own nodes as containers and no element besides them:
    [appendTo] throws a [HierarchyRequestError] when the container is the
    marker's group or one of its paths, and it returns when the container
    is an element of the document that is none of these. *)
Theorem new_marker_refuses_its_own_nodes (kind : node → NodeKind) :
  (∀ (a : BoxTrace.Appearance) d m d1 container,
     doc_wf d → BoxTrace.new a d = Ok (m, d1) →
     is_Some (nodes d1 !! container) →
     (container ∈ BoxTrace.nodesOf m →
      BoxTrace.appendTo m container d1 = Throw HierarchyRequestError) ∧
     (container ∉ BoxTrace.nodesOf m → kind container = ElementNode →
      is_Ok (BoxTrace.appendTo m container d1))) ∧
  (∀ d (m : BoxHighlighting.t num) d1 container,
     doc_wf d → BoxHighlighting.new d = Ok (m, d1) →
     is_Some (nodes d1 !! container) →
     (container ∈ BoxHighlighting.nodesOf m →
      BoxHighlighting.appendTo m container d1 = Throw HierarchyRequestError) ∧
     (container ∉ BoxHighlighting.nodesOf m → kind container = ElementNode →
      is_Ok (BoxHighlighting.appendTo m container d1))).
Proof.
  split.
  - intros a d m d1 c W E Hex. rewrite BoxTrace_new_result in E.
    injection E as <- <-. unfold BoxTrace.appendTo, BoxTrace.nodesOf in *.
    cbn [BoxTrace.domNode BoxTrace.lightDashing BoxTrace.darkDashing] in *.
    assert (is_Some (nodes (Built.boxTrace a d) !! nextNode d)) as Hg.
    { unfold Built.boxTrace. cbn [nodes]. rewrite lookup_insert_eq. by eexists. }
    split.
    + intros Hc.
      apply elem_of_cons in Hc as [->|Hc]; [by apply appendChild_into_itself|].
      apply appendChild_into_child; [done|].
      unfold parentOf, Built.boxTrace. cbn [nodes].
      each_write Hc;
        repeat first [rewrite lookup_insert_eq | rewrite lookup_insert_ne by lia];
        done.
    + intros Hc _.
      rewrite !not_elem_of_cons in Hc. destruct Hc as (? & ? & ? & _).
      assert (∀ n, n < nextNode d → nodes (Built.boxTrace a d) !! n = nodes d !! n)
        as Hold.
      { intros n Hn. unfold Built.boxTrace. cbn [nodes].
        by rewrite !lookup_insert_ne by lia. }
      apply (appendChild_new_node c (nextNode d) d); try done.
      unfold Built.boxTrace in Hex. cbn [nodes] in Hex.
      by rewrite !lookup_insert_ne in Hex by done.
  - intros d m d1 c W E Hex. rewrite BoxHighlighting_new_result in E.
    injection E as <- <-.
    unfold BoxHighlighting.appendTo, BoxHighlighting.nodesOf,
      BoxHighlighting.cornerBoxes in *.
    cbn [BoxHighlighting.domNode BoxHighlighting.boxTrace
         BoxHighlighting.topLeftCornerBox BoxHighlighting.topRightCornerBox
         BoxHighlighting.bottomRightCornerBox BoxHighlighting.bottomLeftCornerBox] in *.
    assert (is_Some (nodes (Built.boxHighlighting (num_to_string (num_lit 5 1)) d)
                     !! nextNode d)) as Hg.
    { unfold Built.boxHighlighting. cbn [nodes]. rewrite lookup_insert_eq. by eexists. }
    split.
    + intros Hc.
      apply elem_of_cons in Hc as [->|Hc]; [by apply appendChild_into_itself|].
      apply appendChild_into_child; [done|].
      unfold parentOf, Built.boxHighlighting. cbn [nodes].
      each_write Hc;
        repeat first [rewrite lookup_insert_eq | rewrite lookup_insert_ne by lia];
        done.
    + intros Hc _.
      rewrite !not_elem_of_cons in Hc. destruct Hc as (? & ? & ? & ? & ? & ? & _).
      assert (∀ n, n < nextNode d →
                nodes (Built.boxHighlighting (num_to_string (num_lit 5 1)) d) !! n
                = nodes d !! n) as Hold.
      { intros n Hn. unfold Built.boxHighlighting. cbn [nodes].
        by rewrite !lookup_insert_ne by lia. }
      apply (appendChild_new_node c (nextNode d) d); try done.
      unfold Built.boxHighlighting in Hex. cbn [nodes] in Hex.
      by rewrite !lookup_insert_ne in Hex by done.
Qed.
End Refused.

(** ** A refresh pass with any number of failing targets *)

Section AnyFailures.
  Context {num : Type} `{JSNumber num}.

(** X9.  In a state that satisfies the controller's invariant a refresh
    returns normally whatever the box queries do.  The console gains the
    values thrown by the failing queries, in the order of the targets, and
    nothing else (reading the marker of a target never fails).  Target by
    target: when the box was obtained the marker at the target's index
    shows it; when the query threw, that marker is the one that was there
    before, with every attribute as before (no geometry and no opacity
    when it was created in this refresh).  Every marker beyond the targets
    is the one that was there before, has opacity 0 and every other
    attribute as before. *)
Theorem refresh_outcome :
  (∀ a (env : Env num) this w,
     tracings_inv this w →
     ∃ this' w',
       LiveSVGElementTracings.refresh a env this w = Ok (this', w') ∧
       console w' = console w ++ PoolModel.failures (members env) ∧
       (∀ i t, members env !! i = Some t →
          ∃ m, LiveSVGElementTracings.boxTraces this' !! i = Some m ∧
            match getBBox t with
            | Ok box => traces m box (document w')
            | Throw _ =>
                match LiveSVGElementTracings.boxTraces this !! i with
                | Some m0 =>
                    m = m0 ∧
                    ∀ n k, n ∈ BoxTrace.nodesOf m →
                      getAttribute (document w') n k = getAttribute (document w) n k
                | None => untouched (BoxTrace.nodesOf m) (document w')
                end
            end) ∧
       (∀ i m, length (members env) ≤ i →
          LiveSVGElementTracings.boxTraces this' !! i = Some m →
          LiveSVGElementTracings.boxTraces this !! i = Some m ∧
          getAttribute (document w') (BoxTrace.domNode m) "opacity"
          = Some (num_to_string (num_lit 0 0)) ∧
          ∀ n k, n ∈ BoxTrace.nodesOf m →
            ¬ (n = BoxTrace.domNode m ∧ k = "opacity") →
            getAttribute (document w') n k = getAttribute (document w) n k)) ∧
  (∀ (env : Env num) this w,
     highlightings_inv this w →
     ∃ this' w',
       LiveSVGElementHighlightings.refresh env this w = Ok (this', w') ∧
       console w' = console w ++ PoolModel.failures (members env) ∧
       (∀ i t, members env !! i = Some t →
          ∃ m, LiveSVGElementHighlightings.boxHighlightings this' !! i = Some m ∧
            match getBBox t with
            | Ok box =>
                highlights m box (document w') ∧
                BoxHighlighting.lineThickness m
                = num_div (num_lit 75 2) (horizontalScaling env)
            | Throw _ =>
                match LiveSVGElementHighlightings.boxHighlightings this !! i with
                | Some m0 =>
                    m = m0 ∧
                    ∀ n k, n ∈ BoxHighlighting.nodesOf m →
                      getAttribute (document w') n k = getAttribute (document w) n k
                | None => untouched (BoxHighlighting.nodesOf m) (document w')
                end
            end) ∧
       (∀ i m, length (members env) ≤ i →
          LiveSVGElementHighlightings.boxHighlightings this' !! i = Some m →
          LiveSVGElementHighlightings.boxHighlightings this !! i = Some m ∧
          getAttribute (document w') (BoxHighlighting.domNode m) "opacity"
          = Some (num_to_string (num_lit 0 0)) ∧
          ∀ n k, n ∈ BoxHighlighting.nodesOf m →
            ¬ (n = BoxHighlighting.domNode m ∧ k = "opacity") →
            getAttribute (document w') n k = getAttribute (document w) n k)).
Proof.
  split.
  - intros a env this w I.
    destruct (tracings_pass a env this w I)
      as (news & dg & w' & E & Hcon & _ & _ & Hlen & I' & S & G & Hnews & Hattr & _).
    eexists _, w'. split; [exact E|]. cbn. split; [exact Hcon|].
    assert (∀ m n, m ∈ LiveSVGElementTracings.boxTraces this →
              n ∈ BoxTrace.nodesOf m → nodes dg !! n = nodes (document w) !! n) as Hold.
    { intros m n Hm Hn.
      by apply (grown_from_marker BoxTrace.domNode _ BoxTrace.nodesOf
                  _ (document w) dg m n I G). }
    split.
    + intros i t Hi.
      destruct (lookup_lt_is_Some_2 (LiveSVGElementTracings.boxTraces this ++ news) i)
        as [m Hm]; [apply lookup_lt_Some in Hi; lia|].
      exists m. split; [done|].
      destruct (getBBox t) as [box|e] eqn:Hb.
      * assert (NoDup (BoxTrace.nodesOf m)) as ND.
        { eapply inv_marker_nodup; [exact I'|]. by eapply list_elem_of_lookup_2. }
        destruct (trace_writes_last box m ND) as (L1 & L2 & L3).
        unfold traces.
        rewrite !(Hattr i m) by (done || (unfold BoxTrace.nodesOf; in_list)).
        rewrite Hi, Hb, L1, L2, L3. done.
      * assert (∀ n k, n ∈ BoxTrace.nodesOf m →
                  getAttribute (document w') n k = getAttribute dg n k) as Hkeep.
        { intros n k Hn. rewrite (Hattr i m) by done. by rewrite Hi, Hb. }
        destruct (LiveSVGElementTracings.boxTraces this !! i) as [m0|] eqn:E0.
        -- rewrite (lookup_app_l_Some _ _ _ _ E0) in Hm. injection Hm as ->.
           split; [done|]. intros n k Hn. rewrite Hkeep by done.
           unfold getAttribute. rewrite (Hold m n); [done| |done].
           by eapply list_elem_of_lookup_2.
        -- apply lookup_ge_None in E0. rewrite lookup_app_r in Hm by done.
           destruct (Hnews m) as [_ U]; [by eapply list_elem_of_lookup_2|].
           intros n Hn. rewrite !Hkeep by done. by apply U.
    + intros i m Hi Hm.
      assert (LiveSVGElementTracings.boxTraces this !! i = Some m) as Hm0.
      { apply lookup_lt_Some in Hm as Hlt. rewrite lookup_app_l in Hm; [done|lia]. }
      split; [done|].
      assert (members env !! i = None) as Hnone by (by apply lookup_ge_None).
      split.
      * rewrite (Hattr i m) by (done || by left). rewrite Hnone.
        by rewrite decide_True.
      * intros n k Hn Hno. rewrite (Hattr i m) by done. rewrite Hnone.
        rewrite decide_False by done. unfold getAttribute.
        rewrite (Hold m n); [done| |done]. by eapply list_elem_of_lookup_2.
  - intros env this w I.
    destruct (highlightings_pass env this w I)
      as (news & dg & w' & E & Hcon & _ & _ & Hlen & Ig & I' & S & G & Hnews & Hattr & _).
    eexists _, w'. split; [exact E|]. cbn. split; [exact Hcon|].
    assert (∀ m n, m ∈ LiveSVGElementHighlightings.boxHighlightings this →
              n ∈ BoxHighlighting.nodesOf m →
              nodes dg !! n = nodes (document w) !! n) as Hold.
    { intros m n Hm Hn.
      by apply (grown_from_marker BoxHighlighting.domNode _ BoxHighlighting.nodesOf
                  _ (document w) dg m n I G). }
    split.
    + intros i t Hi.
      destruct (lookup_lt_is_Some_2
                  (LiveSVGElementHighlightings.boxHighlightings this ++ news) i)
        as [m Hm]; [apply lookup_lt_Some in Hi; lia|].
      eexists. rewrite (shown_lookup _ _ _ _ _ Hm), Hi. split; [done|].
      destruct (getBBox t) as [box|e] eqn:Hb.
      * assert (NoDup (BoxHighlighting.nodesOf m)) as ND.
        { eapply inv_marker_nodup; [exact Ig|]. by eapply list_elem_of_lookup_2. }
        destruct (highlight_writes_last
                    (num_div (num_lit 75 2) (horizontalScaling env)) box m ND)
          as (L1 & L2 & L3 & L4 & L5 & _ & L7).
        split; [|done]. unfold highlights. split; [done|]. cbn.
        rewrite !(Hattr i m)
          by (done || (unfold BoxHighlighting.nodesOf, BoxHighlighting.cornerBoxes;
                       in_list)).
        rewrite Hi, Hb, L1, L2, L3, L4, L5, L7. done.
      * assert (∀ n k, n ∈ BoxHighlighting.nodesOf m →
                  getAttribute (document w') n k = getAttribute dg n k) as Hkeep.
        { intros n k Hn. rewrite (Hattr i m) by done. by rewrite Hi, Hb. }
        destruct (LiveSVGElementHighlightings.boxHighlightings this !! i)
          as [m0|] eqn:E0.
        -- rewrite (lookup_app_l_Some _ _ _ _ E0) in Hm. injection Hm as ->.
           split; [done|]. intros n k Hn. rewrite Hkeep by done.
           unfold getAttribute. rewrite (Hold m n); [done| |done].
           by eapply list_elem_of_lookup_2.
        -- apply lookup_ge_None in E0. rewrite lookup_app_r in Hm by done.
           destruct (Hnews m) as [_ U]; [by eapply list_elem_of_lookup_2|].
           intros n Hn. rewrite !Hkeep by done. by apply U.
    + intros i m' Hi Hm'.
      assert (members env !! i = None) as Hnone by (by apply lookup_ge_None).
      destruct ((LiveSVGElementHighlightings.boxHighlightings this ++ news) !! i)
        as [m|] eqn:Em.
      2:{ apply lookup_ge_None in Em. apply lookup_lt_Some in Hm'.
          rewrite shown_length in Hm'. lia. }
      rewrite (shown_lookup _ _ _ _ _ Em), Hnone in Hm'. injection Hm' as <-.
      assert (LiveSVGElementHighlightings.boxHighlightings this !! i = Some m) as Hm0.
      { apply lookup_lt_Some in Em as Hlt. rewrite lookup_app_l in Em; [done|lia]. }
      split; [done|]. split.
      * rewrite (Hattr i m) by (done || by left). rewrite Hnone.
        by rewrite decide_True.
      * intros n k Hn Hno. rewrite (Hattr i m) by done. rewrite Hnone.
        rewrite decide_False by done. unfold getAttribute.
        rewrite (Hold m n); [done| |done]. by eapply list_elem_of_lookup_2.
Qed.
End AnyFailures.

(** ** The refresh pass, further *)

Section PoolFurther.
  Context {num M : Type}.
  Variable create : Document → result (M * Document).
  Variable rootOf : M → nat.
  Variable update : BoxLike num → M → Document → M * Document.
  Variable hide : M → Document → Document.
  Variable root : nat.
  Variable nodesOf : M → list nat.
  Variable update_state : BoxLike num → M → M.
  Variable update_writes : BoxLike num → M → list Write.
  Variable hidden : string.
  Variable count : nat.
  Variable keys : list string.

Hypothesis create_spec : ∀ d, doc_wf d →
  ∃ m d', create d = Ok (m, d') ∧ doc_wf d' ∧
    nextNode d ≤ nextNode d' ∧
    (∀ n, n < nextNode d → nodes d' !! n = nodes d !! n) ∧
    (∀ n, n ∈ nodesOf m → nextNode d ≤ n ∧ is_Some (nodes d' !! n)) ∧
    NoDup (nodesOf m) ∧
    parentOf d' (rootOf m) = None ∧
    untouched (nodesOf m) d'.
Hypothesis create_count : ∀ d m d',
  create d = Ok (m, d') → nextNode d' = count + nextNode d.
Hypothesis rootOf_nodesOf : ∀ m, rootOf m ∈ nodesOf m.
Hypothesis update_spec : ∀ box m d,
  update box m d = (update_state box m, apply_writes (update_writes box m) d).
Hypothesis update_nodesOf : ∀ box m, nodesOf (update_state box m) = nodesOf m.
Hypothesis update_rootOf : ∀ box m, rootOf (update_state box m) = rootOf m.
Hypothesis update_local : ∀ box m w, w ∈ update_writes box m → wnode w ∈ nodesOf m.
Hypothesis update_keys : ∀ box m w, w ∈ update_writes box m → wkey w ∈ keys.
Hypothesis opacity_key : "opacity" ∈ keys.
Hypothesis update_again : ∀ box m,
  update_state box (update_state box m) = update_state box m.
Hypothesis update_writes_again : ∀ box m,
  same_effect (update_writes box (update_state box m)) (update_writes box m).
Hypothesis hide_spec : ∀ m d,
  hide m d = apply_writes [mkWrite (rootOf m) "opacity" hidden] d.

Local Abbreviation inv := (Pool.inv rootOf root nodesOf).
Local Abbreviation refresh := (Pool.refresh create rootOf update hide root).
Local Abbreviation shown := (PoolModel.shown update_state).
Local Abbreviation show_writes := (PoolModel.show_writes update_writes).
Local Abbreviation hide_writes := (PoolModel.hide_writes (num:=num) rootOf hidden).

(** The pass when no marker is missing. *)
Lemma refresh_settled targets pool w :
  length targets ≤ length pool →
  refresh targets pool w
  = Ok (shown targets pool,
        mkWorld
          (apply_writes (show_writes targets pool ++ hide_writes targets pool)
             (document w))
          (console w ++ PoolModel.failures targets)
          (changeListeners w) (observations w)).
Proof.
  intros Hlen. unfold Pool.refresh, Pool.grow, slice.
  rewrite drop_ge by done. cbn.
  rewrite (show_spec update update_state update_writes update_spec) by done.
  rewrite (hideExtra_spec rootOf hide hidden hide_spec). cbn.
  rewrite (hide_writes_shown rootOf update_state hidden update_rootOf).
  by rewrite apply_writes_app.
Qed.

Lemma shown_again targets pool : shown targets (shown targets pool) = shown targets pool.
Proof.
  revert pool. induction targets as [|t ts IH]; intros [|m ms]; simpl; try done.
  rewrite IH. by destruct (getBBox t); rewrite ?update_again.
Qed.

Lemma show_writes_again targets pool :
  same_effect (show_writes targets (shown targets pool)) (show_writes targets pool).
Proof.
  revert pool. induction targets as [|t ts IH]; intros [|m ms]; simpl; try done.
  apply same_effect_app; [|apply IH].
  destruct (getBBox t); [apply update_writes_again|done].
Qed.

Lemma same_effect_repeated ws ws' : same_effect ws' ws → same_effect (ws ++ ws') ws.
Proof.
  intros E n k. rewrite last_write_app, E. by destruct (last_write n k ws).
Qed.

(** A second pass over the same targets changes neither the pool nor the
    document. *)
Lemma refresh_twice targets pool w pool1 w1 :
  inv pool (document w) →
  refresh targets pool w = Ok (pool1, w1) →
  refresh targets pool1 w1
  = Ok (pool1,
        mkWorld (document w1) (console w1 ++ PoolModel.failures targets)
          (changeListeners w1) (observations w1)).
Proof.
  intros I E.
  destruct (refresh_spec create rootOf update hide root nodesOf update_state
              update_writes hidden create_spec rootOf_nodesOf update_spec
              update_rootOf hide_spec targets pool w I)
    as (news & dg & E' & Hlen & _).
  rewrite E' in E. injection E as <- <-.
  rewrite refresh_settled.
  2:{ rewrite (shown_length update_state). lia. }
  rewrite shown_again. cbn [document console changeListeners observations].
  do 3 f_equal. rewrite <- apply_writes_app. apply apply_writes_ext.
  apply same_effect_repeated, same_effect_app; [apply show_writes_again|].
  by rewrite (hide_writes_shown rootOf update_state hidden update_rootOf).
Qed.

Lemma show_writes_keys targets pool w :
  w ∈ show_writes targets pool → wkey w ∈ keys.
Proof.
  revert pool. induction targets as [|t ts IH]; intros [|m ms]; simpl;
    try (by intros ?%elem_of_nil).
  rewrite !elem_of_app. intros [Hw|Hw]; [|by eapply IH].
  destruct (getBBox t); [by eapply update_keys|by apply elem_of_nil in Hw].
Qed.

(** How many nodes the first loop allocates. *)
Lemma grow_allocates (l : list (SVGGraphicsElement num)) pool w pool' w' :
  forEachM (λ _ '(pool, w),
      '(m, d) ← create (document w);
      d ← appendChild root (rootOf m) d;
      mret (pool ++ [m], with_document d w)) l (pool, w)
  = Ok (pool', w') →
  nextNode (document w') = count * length l + nextNode (document w).
Proof.
  revert pool w. induction l as [|t l IH]; intros pool w E.
  - injection E as _ <-. simpl. lia.
  - cbn [forEachM] in E. cbn beta iota in E.
    destruct (create (document w)) as [[m d1]|] eqn:Ec; [|done]. cbn in E.
    destruct (appendChild root (rootOf m) d1) as [d2|] eqn:Ea; [|done]. cbn in E.
    apply IH in E. rewrite E. cbn [document with_document].
    apply appendChild_Ok in Ea as (_ & _ & _ & -> & _).
    rewrite (create_count _ _ _ Ec). simpl. lia.
Qed.

(** What a pass changes, and what it leaves alone. *)
Lemma refresh_frame targets pool w pool' w' :
  inv pool (document w) →
  refresh targets pool w = Ok (pool', w') →
  nextNode (document w')
  = count * (length targets - length pool) + nextNode (document w) ∧
  length pool' = length pool `max` length targets ∧
  changeListeners w' = changeListeners w ∧
  observations w' = observations w ∧
  parentOf (document w') root = parentOf (document w) root ∧
  (∀ k, getAttribute (document w') root k = getAttribute (document w) root k) ∧
  (∀ n, n < nextNode (document w) → n ≠ root →
     frame <$> nodes (document w') !! n = frame <$> nodes (document w) !! n) ∧
  (∀ n k, n < nextNode (document w) → k ∉ keys →
     getAttribute (document w') n k = getAttribute (document w) n k) ∧
  (∀ n, n < nextNode (document w) → n ≠ root →
     n ∉ mjoin (nodesOf <$> pool) →
     nodes (document w') !! n = nodes (document w) !! n).
Proof.
  intros I E.
  destruct (grow_spec create rootOf root nodesOf create_spec rootOf_nodesOf
              targets pool w I)
    as (news & wg & Eg & Hlen & Ig & G & Hcon & Hlis & Hobs & Hnews).
  pose proof Eg as Hg. unfold Pool.grow in Hg. apply grow_allocates in Hg.
  unfold slice in Hg. rewrite length_drop in Hg.
  unfold Pool.refresh in E. rewrite Eg in E. cbn in E.
  rewrite (show_spec update update_state update_writes update_spec) in E by lia.
  rewrite (hideExtra_spec rootOf hide hidden hide_spec) in E. cbn in E.
  rewrite (hide_writes_shown rootOf update_state hidden update_rootOf) in E.
  rewrite <- apply_writes_app in E. injection E as <- <-.
  unfold with_document. cbn [document console changeListeners observations].
  set (dg := document wg) in *.
  set (ws := show_writes targets (pool ++ news) ++ hide_writes targets (pool ++ news)).
  pose proof G as (HN & HF & HP & HA).
  assert (∀ n k, k ∉ keys → last_write n k ws = None) as Hkeys.
  { intros n k Hk. apply last_write_None. intros w0 Hw [_ <-]. apply Hk.
    apply elem_of_app in Hw as [Hw|Hw]; [by eapply show_writes_keys|].
    by apply list_elem_of_fmap in Hw as (m & -> & _). }
  assert (root ∉ mjoin (nodesOf <$> pool ++ news)) as Hroot.
  { by pose proof (Pool.inv_nodup _ _ _ _ _ Ig) as [? _]%NoDup_cons. }
  assert (nodes (apply_writes ws dg) !! root = nodes dg !! root) as Hr.
  { apply (refresh_other rootOf nodesOf update_writes hidden rootOf_nodesOf
             update_local targets (pool ++ news) dg root Hroot). }
  split_and!.
  - by rewrite apply_writes_nextNode.
  - by rewrite (shown_length update_state).
  - done.
  - done.
  - unfold parentOf. by rewrite Hr.
  - intros k. unfold getAttribute at 1. rewrite Hr. apply HA.
  - intros n Hn Hne. by rewrite apply_writes_frame, HF.
  - intros n k Hn Hk. rewrite getAttribute_apply_writes, Hkeys by done.
    destruct (decide (n = root)) as [->|Hne]; [apply HA|].
    unfold getAttribute. by rewrite HF.
  - intros n Hn Hne Hpool. rewrite <- (HF n Hn Hne).
    apply (refresh_other rootOf nodesOf update_writes hidden rootOf_nodesOf
             update_local targets (pool ++ news) dg n).
    rewrite fmap_app, join_app, elem_of_app. intros [?|Hin]; [done|].
    apply list_elem_of_join in Hin as (ns & Hin & Hns).
    apply list_elem_of_fmap in Hns as (m & -> & Hm).
    destruct (Hnews m Hm) as [Hge _]. apply Hge in Hin. lia.
Qed.
End PoolFurther.

Section ControllersFurther.
  Context {num : Type} `{JSNumber num}.

Lemma BoxTrace_new_count (a : BoxTrace.Appearance) d m d' :
  BoxTrace.new a d = Ok (m, d') → nextNode d' = 3 + nextNode d.
Proof. rewrite BoxTrace_new_result. by intros [= _ <-]. Qed.

Lemma BoxHighlighting_new_count d (m : BoxHighlighting.t num) d' :
  BoxHighlighting.new d = Ok (m, d') → nextNode d' = 6 + nextNode d.
Proof. rewrite BoxHighlighting_new_result. by intros [= _ <-]. Qed.

Lemma trace_update_keys (box : BoxLike num) m w :
  w ∈ TracePool.update_writes box m → wkey w ∈ ["d"; "opacity"].
Proof.
  unfold TracePool.update_writes. intros Hw. each_write Hw; cbn; in_list.
Qed.

Lemma highlight_update_keys (t : num) (box : BoxLike num) m w :
  w ∈ HighlightPool.update_writes t box m → wkey w ∈ ["d"; "stroke-width"; "opacity"].
Proof.
  unfold HighlightPool.update_writes. rewrite !elem_of_app.
  intros [Hw|[Hw|[Hw|Hw]]].
  - apply highlight_writes_keys in Hw as ->. in_list.
  - apply thickness_writes_keys in Hw as ->. in_list.
  - apply highlight_writes_keys in Hw as ->. in_list.
  - apply list_elem_of_singleton in Hw as ->. cbn. in_list.
Qed.

Lemma highlight_update_again (t : num) (box : BoxLike num) m :
  same_effect (HighlightPool.update_writes t box (HighlightPool.update_state t box m))
    (HighlightPool.update_writes t box m).
Proof.
  unfold HighlightPool.update_writes.
  set (rest := HighlightPool.thickness_writes t m
               ++ HighlightPool.highlight_writes box
                    (BoxHighlighting.with_lineThickness t m)
               ++ [mkWrite (BoxHighlighting.domNode m) "opacity"
                     (num_to_string (num_lit 1 0))]).
  assert (∀ (m0 : BoxHighlighting.t num),
            covered_by (HighlightPool.highlight_writes box m0)
              (HighlightPool.highlight_writes box
                 (BoxHighlighting.with_lineThickness t m))
            → same_effect (HighlightPool.highlight_writes box m0 ++ rest) rest) as Hs.
  { intros m0 Hc. apply same_effect_shadow. intros w Hw.
    destruct (Hc w Hw) as (w' & ? & ?). exists w'. split; [|done].
    unfold rest. rewrite !elem_of_app. auto. }
  apply (same_effect_trans _ rest).
  - apply (Hs (HighlightPool.update_state t box m)).
    unfold HighlightPool.highlight_writes. covered.
  - intros n k. symmetry. apply Hs.
    unfold HighlightPool.highlight_writes. covered.
Qed.

(** X10.  What a refresh leaves alone.  In a state that satisfies the
    controller's invariant a successful refresh registers no listener and
    no observer; it leaves the root group where it is, with its
    attributes; of the nodes there were before (all but the root group,
    which gains the new markers as children) it changes neither tag,
    parent, children nor style; the only attributes it changes are [d] and
    [opacity] (and [stroke-width], for the controller built on
    [BoxHighlighting]); and a node that belongs to no marker of the
    controller, such as a target or the parent document, is not changed
    at all. *)
Theorem refresh_leaves_the_rest :
  (∀ a (env : Env num) this w this' w',
     tracings_inv this w →
     LiveSVGElementTracings.refresh a env this w = Ok (this', w') →
     let root := LiveSVGElementTracings.domNode this in
     changeListeners w' = changeListeners w ∧
     observations w' = observations w ∧
     parentOf (document w') root = parentOf (document w) root ∧
     (∀ k, getAttribute (document w') root k = getAttribute (document w) root k) ∧
     (∀ n, n < nextNode (document w) → n ≠ root →
        frame <$> nodes (document w') !! n = frame <$> nodes (document w) !! n) ∧
     (∀ n k, n < nextNode (document w) → k ∉ ["d"; "opacity"] →
        getAttribute (document w') n k = getAttribute (document w) n k) ∧
     (∀ n, n < nextNode (document w) → n ≠ root →
        n ∉ mjoin (BoxTrace.nodesOf <$> LiveSVGElementTracings.boxTraces this) →
        nodes (document w') !! n = nodes (document w) !! n)) ∧
  (∀ (env : Env num) this w this' w',
     highlightings_inv this w →
     LiveSVGElementHighlightings.refresh env this w = Ok (this', w') →
     let root := LiveSVGElementHighlightings.domNode this in
     changeListeners w' = changeListeners w ∧
     observations w' = observations w ∧
     parentOf (document w') root = parentOf (document w) root ∧
     (∀ k, getAttribute (document w') root k = getAttribute (document w) root k) ∧
     (∀ n, n < nextNode (document w) → n ≠ root →
        frame <$> nodes (document w') !! n = frame <$> nodes (document w) !! n) ∧
     (∀ n k, n < nextNode (document w) → k ∉ ["d"; "stroke-width"; "opacity"] →
        getAttribute (document w') n k = getAttribute (document w) n k) ∧
     (∀ n, n < nextNode (document w) → n ≠ root →
        n ∉ mjoin (BoxHighlighting.nodesOf
                     <$> LiveSVGElementHighlightings.boxHighlightings this) →
        nodes (document w') !! n = nodes (document w) !! n)).
Proof.
  split.
  - intros a env this w this' w' I E root. rewrite Tracings_refresh_pool in E.
    destruct (Pool.refresh _ _ _ _ _ _ _ _) as [[pool1 w1]|] eqn:Ep; [|done].
    injection E as _ <-.
    destruct (refresh_frame (BoxTrace.new a) BoxTrace.domNode TracePool.update
                TracePool.hide root BoxTrace.nodesOf (λ _ m, m)
                TracePool.update_writes (num_to_string (num_lit 0 0)) 3
                ["d"; "opacity"]
                (BoxTrace_new_spec a) (BoxTrace_new_count a)
                (λ m, list_elem_of_here _ _) TracePool_update_spec (λ _ _, eq_refl)
                trace_update_local trace_update_keys ltac:(in_list)
                TracePool_hide_spec _ _ _ _ _ I Ep)
      as (_ & _ & ? & ? & ? & ? & ? & ? & ?).
    by split_and!.
  - intros env this w this' w' I E root. rewrite Highlightings_refresh_pool in E.
    destruct (Pool.refresh _ _ _ _ _ _ _ _) as [[pool1 w1]|] eqn:Ep; [|done].
    injection E as _ <-.
    destruct (refresh_frame BoxHighlighting.new BoxHighlighting.domNode
                (HighlightPool.update (num_div (num_lit 75 2) (horizontalScaling env)))
                HighlightPool.hide root BoxHighlighting.nodesOf
                (HighlightPool.update_state
                   (num_div (num_lit 75 2) (horizontalScaling env)))
                (HighlightPool.update_writes
                   (num_div (num_lit 75 2) (horizontalScaling env)))
                (num_to_string (num_lit 0 0)) 6 ["d"; "stroke-width"; "opacity"]
                BoxHighlighting_new_spec BoxHighlighting_new_count
                (λ m, list_elem_of_here _ _) (HighlightPool_update_spec _)
                (λ _ _, eq_refl) (highlight_update_local _)
                (highlight_update_keys _) ltac:(in_list)
                HighlightPool_hide_spec _ _ _ _ _ I Ep)
      as (_ & _ & ? & ? & ? & ? & ? & ? & ?).
    by split_and!.
Qed.

(** X11.  A refresh that follows a refresh over the same targets, with
    the same answers, changes nothing: the pool and the document are
    exactly those after the first one, and no listener or observer is
    added.  Only the console grows, by the errors of the failing box
    queries, which are logged again. *)
Theorem refresh_again_changes_nothing :
  (∀ a (env : Env num) this w this1 w1,
     tracings_inv this w →
     LiveSVGElementTracings.refresh a env this w = Ok (this1, w1) →
     LiveSVGElementTracings.refresh a env this1 w1
     = Ok (this1,
           mkWorld (document w1) (console w1 ++ PoolModel.failures (members env))
             (changeListeners w1) (observations w1))) ∧
  (∀ (env : Env num) this w this1 w1,
     highlightings_inv this w →
     LiveSVGElementHighlightings.refresh env this w = Ok (this1, w1) →
     LiveSVGElementHighlightings.refresh env this1 w1
     = Ok (this1,
           mkWorld (document w1) (console w1 ++ PoolModel.failures (members env))
             (changeListeners w1) (observations w1))).
Proof.
  split.
  - intros a env this w this1 w1 I E. rewrite Tracings_refresh_pool in E.
    destruct (Pool.refresh _ _ _ _ _ _ _ _) as [[pool1 w1']|] eqn:Ep; [|done].
    injection E as <- <-. rewrite Tracings_refresh_pool.
    cbn [LiveSVGElementTracings.domNode LiveSVGElementTracings.boxTraces].
    by rewrite (refresh_twice (BoxTrace.new a) BoxTrace.domNode TracePool.update
                  TracePool.hide _ BoxTrace.nodesOf (λ _ m, m)
                  TracePool.update_writes (num_to_string (num_lit 0 0))
                  (BoxTrace_new_spec a) (λ m, list_elem_of_here _ _)
                  TracePool_update_spec (λ _ _, eq_refl) (λ _ _, eq_refl)
                  (λ _ _, same_effect_refl _) TracePool_hide_spec _ _ _ _ _ I Ep).
  - intros env this w this1 w1 I E. rewrite Highlightings_refresh_pool in E.
    destruct (Pool.refresh _ _ _ _ _ _ _ _) as [[pool1 w1']|] eqn:Ep; [|done].
    injection E as <- <-. rewrite Highlightings_refresh_pool.
    cbn [LiveSVGElementHighlightings.domNode
         LiveSVGElementHighlightings.boxHighlightings
         LiveSVGElementHighlightings.parentSVGDocCoordinateSystem].
    by rewrite (refresh_twice BoxHighlighting.new BoxHighlighting.domNode
                  (HighlightPool.update (num_div (num_lit 75 2) (horizontalScaling env)))
                  HighlightPool.hide _ BoxHighlighting.nodesOf
                  (HighlightPool.update_state
                     (num_div (num_lit 75 2) (horizontalScaling env)))
                  (HighlightPool.update_writes
                     (num_div (num_lit 75 2) (horizontalScaling env)))
                  (num_to_string (num_lit 0 0))
                  BoxHighlighting_new_spec (λ m, list_elem_of_here _ _)
                  (HighlightPool_update_spec _) (λ _ _, eq_refl) (λ _ _, eq_refl)
                  (highlight_update_again _) HighlightPool_hide_spec _ _ _ _ _ I Ep).
Qed.

(** X12.  A refresh creates nodes only for the markers that are missing:
    three nodes for each target beyond the number of box traces there
    are, six for each target beyond the number of box highlightings, and
    none when there is a marker for every target; the markers there are
    are used again. *)
Theorem refresh_allocates_for_missing_markers :
  (∀ a (env : Env num) this w this' w',
     tracings_inv this w →
     LiveSVGElementTracings.refresh a env this w = Ok (this', w') →
     nextNode (document w')
     = 3 * (length (members env) - length (LiveSVGElementTracings.boxTraces this))
       + nextNode (document w) ∧
     (length (members env) ≤ length (LiveSVGElementTracings.boxTraces this) →
      this' = this ∧ nextNode (document w') = nextNode (document w))) ∧
  (∀ (env : Env num) this w this' w',
     highlightings_inv this w →
     LiveSVGElementHighlightings.refresh env this w = Ok (this', w') →
     nextNode (document w')
     = 6 * (length (members env)
            - length (LiveSVGElementHighlightings.boxHighlightings this))
       + nextNode (document w) ∧
     (length (members env)
      ≤ length (LiveSVGElementHighlightings.boxHighlightings this) →
      BoxHighlighting.nodesOf <$> LiveSVGElementHighlightings.boxHighlightings this'
      = BoxHighlighting.nodesOf <$> LiveSVGElementHighlightings.boxHighlightings this ∧
      nextNode (document w') = nextNode (document w))).
Proof.
  split.
  - intros a env this w this' w' I E. rewrite Tracings_refresh_pool in E.
    destruct (Pool.refresh _ _ _ _ _ _ _ _) as [[pool1 w1]|] eqn:Ep; [|done].
    injection E as <- <-.
    destruct (refresh_frame (BoxTrace.new a) BoxTrace.domNode TracePool.update
                TracePool.hide _ BoxTrace.nodesOf (λ _ m, m)
                TracePool.update_writes (num_to_string (num_lit 0 0)) 3
                ["d"; "opacity"]
                (BoxTrace_new_spec a) (BoxTrace_new_count a)
                (λ m, list_elem_of_here _ _) TracePool_update_spec (λ _ _, eq_refl)
                trace_update_local trace_update_keys ltac:(in_list)
                TracePool_hide_spec _ _ _ _ _ I Ep)
      as (HN & Hl & _).
    split; [exact HN|]. intros Hle. split; [|rewrite HN; lia].
    rewrite (refresh_settled (BoxTrace.new a) BoxTrace.domNode TracePool.update
               TracePool.hide _ (λ _ m, m) TracePool.update_writes
               (num_to_string (num_lit 0 0))
               TracePool_update_spec (λ _ _, eq_refl) TracePool_hide_spec) in Ep by done.
    injection Ep as <- _. rewrite shown_id. by destruct this.
  - intros env this w this' w' I E. rewrite Highlightings_refresh_pool in E.
    destruct (Pool.refresh _ _ _ _ _ _ _ _) as [[pool1 w1]|] eqn:Ep; [|done].
    injection E as <- <-.
    destruct (refresh_frame BoxHighlighting.new BoxHighlighting.domNode
                (HighlightPool.update (num_div (num_lit 75 2) (horizontalScaling env)))
                HighlightPool.hide _ BoxHighlighting.nodesOf
                (HighlightPool.update_state
                   (num_div (num_lit 75 2) (horizontalScaling env)))
                (HighlightPool.update_writes
                   (num_div (num_lit 75 2) (horizontalScaling env)))
                (num_to_string (num_lit 0 0)) 6 ["d"; "stroke-width"; "opacity"]
                BoxHighlighting_new_spec BoxHighlighting_new_count
                (λ m, list_elem_of_here _ _) (HighlightPool_update_spec _)
                (λ _ _, eq_refl) (highlight_update_local _)
                (highlight_update_keys _) ltac:(in_list)
                HighlightPool_hide_spec _ _ _ _ _ I Ep)
      as (HN & Hl & _).
    split; [exact HN|]. intros Hle. split; [|rewrite HN; lia].
    cbn [LiveSVGElementHighlightings.boxHighlightings].
    rewrite (refresh_settled BoxHighlighting.new BoxHighlighting.domNode
               (HighlightPool.update (num_div (num_lit 75 2) (horizontalScaling env)))
               HighlightPool.hide _
               (HighlightPool.update_state
                  (num_div (num_lit 75 2) (horizontalScaling env)))
               (HighlightPool.update_writes
                  (num_div (num_lit 75 2) (horizontalScaling env)))
               (num_to_string (num_lit 0 0))
               (HighlightPool_update_spec _) (λ _ _, eq_refl)
               HighlightPool_hide_spec) in Ep by done.
    injection Ep as <- _.
    apply (shown_nodesOf BoxHighlighting.nodesOf _ (highlight_update_nodesOf _)).
Qed.
End ControllersFurther.

(** ** The subtree of a controller *)

Section Subtree.
  Context {num M : Type}.
  Variable create : Document → result (M * Document).
  Variable rootOf : M → nat.
  Variable update : BoxLike num → M → Document → M * Document.
  Variable hide : M → Document → Document.
  Variable root : nat.
  Variable nodesOf : M → list nat.
  Variable update_state : BoxLike num → M → M.
  Variable update_writes : BoxLike num → M → list Write.
  Variable hidden : string.

Hypothesis create_spec : ∀ d, doc_wf d →
  ∃ m d', create d = Ok (m, d') ∧ doc_wf d' ∧
    nextNode d ≤ nextNode d' ∧
    (∀ n, n < nextNode d → nodes d' !! n = nodes d !! n) ∧
    (∀ n, n ∈ nodesOf m → nextNode d ≤ n ∧ is_Some (nodes d' !! n)) ∧
    NoDup (nodesOf m) ∧
    parentOf d' (rootOf m) = None ∧
    untouched (nodesOf m) d'.
Hypothesis create_built : ∀ d m d', create d = Ok (m, d') → built rootOf nodesOf m d'.
Hypothesis rootOf_nodesOf : ∀ m, rootOf m ∈ nodesOf m.
Hypothesis update_spec : ∀ box m d,
  update box m d = (update_state box m, apply_writes (update_writes box m) d).
Hypothesis update_nodesOf : ∀ box m, nodesOf (update_state box m) = nodesOf m.
Hypothesis update_rootOf : ∀ box m, rootOf (update_state box m) = rootOf m.
Hypothesis hide_spec : ∀ m d,
  hide m d = apply_writes [mkWrite (rootOf m) "opacity" hidden] d.

Local Abbreviation inv := (Pool.inv rootOf root nodesOf).
Local Abbreviation refresh := (Pool.refresh create rootOf update hide root).
Local Abbreviation shown := (PoolModel.shown update_state).
Local Abbreviation own := (λ pool : list M, root :: mjoin (nodesOf <$> pool)).

Lemma own_marker pool m n : m ∈ pool → n ∈ nodesOf m → n ∈ own pool.
Proof.
  intros Hm Hn. right. apply list_elem_of_join. exists (nodesOf m).
  split; [done|]. apply list_elem_of_fmap. by exists m.
Qed.

Lemma own_inv pool n :
  n ∈ own pool → n = root ∨ ∃ m, m ∈ pool ∧ n ∈ nodesOf m.
Proof.
  intros [->|Hn]%elem_of_cons; [by left|]. right.
  apply list_elem_of_join in Hn as (ns & Hn & Hns).
  apply list_elem_of_fmap in Hns as (m & -> & Hm). eauto.
Qed.

(** Every child of a node of the controller is a node of the controller. *)
Lemma own_closed pool d n p :
  inv pool d → intact rootOf nodesOf pool d →
  p ∈ own pool → n ∈ childrenOf d p → n ∈ own pool.
Proof.
  intros I T Hp Hn. apply own_inv in Hp as [->|(m & Hm & Hp)].
  - rewrite (Pool.inv_children _ _ _ _ _ I) in Hn.
    apply list_elem_of_fmap in Hn as (m & -> & Hm).
    by apply (own_marker pool m).
  - destruct (T m Hm) as [Hnodes Hleaf]. rewrite Hnodes in Hp.
    apply elem_of_cons in Hp as [->|Hp].
    + apply (own_marker pool m); [done|]. rewrite Hnodes. by right.
    + rewrite (Hleaf p Hp) in Hn. by apply elem_of_nil in Hn.
Qed.

(** No node outside the controller has the root group among its
    ancestors. *)
Lemma outside_no_ancestor fuel pool d n :
  inv pool d → intact rootOf nodesOf pool d →
  n ∉ own pool → inclusive_ancestor fuel d root n = false.
Proof.
  intros I T. revert n. induction fuel as [|fuel IH]; intros n Hn; simpl;
    (rewrite decide_False; [|intros ->; apply Hn; by left]); [done|].
  destruct (parentOf d n) as [p|] eqn:Hp; [|done].
  apply IH. intros Hp'. apply Hn. apply (own_closed pool d n p); try done.
  by apply (wf_parent d (Pool.inv_wf _ _ _ _ _ I)).
Qed.

Lemma two_nodes (ns : gmap nat Element) a b :
  a ≠ b → is_Some (ns !! a) → is_Some (ns !! b) → 2 ≤ size ns.
Proof.
  intros Hne Ha Hb.
  pose proof (map_size_delete_Some a ns Ha) as Hd.
  assert (size (delete a ns) ≠ 0) as Hs.
  { apply (map_size_ne_0_lookup_2 _ b). by rewrite lookup_delete_ne. }
  lia.
Qed.

Lemma appendChild_into_grandchild c g r d :
  r ≠ g → is_Some (nodes d !! r) →
  parentOf d c = Some g → parentOf d g = Some r →
  appendChild c r d = Throw HierarchyRequestError.
Proof.
  intros Hne [e He] Hc Hg. unfold appendChild.
  destruct (nodes d !! c) as [ec|] eqn:Ec; [|by unfold parentOf in Hc; rewrite Ec in Hc].
  rewrite He.
  assert (is_Some (nodes d !! g)) as Hgex.
  { unfold parentOf in Hg. destruct (nodes d !! g); [by eexists|done]. }
  pose proof (two_nodes (nodes d) r g Hne (mk_is_Some _ _ He) Hgex) as Hs.
  destruct (size (nodes d)) as [|[|fuel]]; [lia..|]. simpl.
  destruct (decide (r = c)); [done|]. rewrite Hc.
  destruct (decide (r = g)); [done|]. rewrite Hg.
  destruct fuel; simpl; by rewrite decide_True.
Qed.

(** The containers that are refused are the nodes of the controller. *)
Lemma own_refused pool d c :
  inv pool d → intact rootOf nodesOf pool d →
  c ∈ own pool → appendChild c root d = Throw HierarchyRequestError.
Proof.
  intros I T Hc. pose proof (Pool.inv_root _ _ _ _ _ I) as Hr.
  pose proof (Pool.inv_wf _ _ _ _ _ I) as W.
  apply own_inv in Hc as [->|(m & Hm & Hc)]; [by apply appendChild_into_itself|].
  destruct (inv_attached rootOf root nodesOf pool d m I Hm) as [Hpm _].
  destruct (T m Hm) as [Hnodes _]. rewrite Hnodes in Hc.
  apply elem_of_cons in Hc as [->|Hc]; [by apply appendChild_into_child|].
  apply (appendChild_into_grandchild c (rootOf m)); try done.
  - intros E. pose proof (Pool.inv_nodup _ _ _ _ _ I) as [Hno _]%NoDup_cons.
    apply Hno. rewrite E. change (rootOf m ∈ mjoin (nodesOf <$> pool)).
    apply list_elem_of_join. exists (nodesOf m). split; [apply rootOf_nodesOf|].
    apply list_elem_of_fmap. by exists m.
  - by apply (wf_child d W).
Qed.

Lemma outside_accepted pool d c :
  inv pool d → intact rootOf nodesOf pool d →
  is_Some (nodes d !! c) → c ∉ own pool → is_Ok (appendChild c root d).
Proof.
  intros I T Hc Hout. apply appendChild_unchecked; [done| |].
  - by eapply Pool.inv_root.
  - by apply (outside_no_ancestor _ pool).
Qed.

(** The root group is no child of a node of the controller. *)
Lemma root_parent_outside pool d q :
  inv pool d → intact rootOf nodesOf pool d →
  parentOf d root = Some q → q ∉ own pool.
Proof.
  intros I T Hq Hown.
  pose proof (Pool.inv_nodup _ _ _ _ _ I) as ND.
  apply (wf_parent d (Pool.inv_wf _ _ _ _ _ I)) in Hq.
  pose proof (own_closed pool d root q I T Hown Hq) as Hr.
  apply own_inv in Hown as [->|(m & Hm & Hqm)].
  - rewrite (Pool.inv_children _ _ _ _ _ I) in Hq.
    apply NoDup_cons in ND as [Hno _]. apply Hno.
    apply list_elem_of_fmap in Hq as (m & E & Hm). rewrite E.
    apply list_elem_of_join. exists (nodesOf m). split; [apply rootOf_nodesOf|].
    apply list_elem_of_fmap. by exists m.
  - destruct (T m Hm) as [Hnodes Hleaf]. rewrite Hnodes in Hqm.
    apply NoDup_cons in ND as [Hno _]. apply Hno.
    apply elem_of_cons in Hqm as [->|Hqm].
    + apply list_elem_of_join. exists (nodesOf m). split.
      * rewrite Hnodes. by right.
      * apply list_elem_of_fmap. by exists m.
    + rewrite (Hleaf q Hqm) in Hq. by apply elem_of_nil in Hq.
Qed.

(** The markers stay as they are when the child lists of the nodes of
    the controller other than the root group do. *)
Lemma intact_same_children pool pool' d d' :
  nodesOf <$> pool' = nodesOf <$> pool → rootOf <$> pool' = rootOf <$> pool →
  (∀ m n, m ∈ pool → n ∈ nodesOf m → childrenOf d' n = childrenOf d n) →
  intact rootOf nodesOf pool d → intact rootOf nodesOf pool' d'.
Proof.
  intros Hn Hr Hsame T m' Hm'.
  apply list_elem_of_lookup in Hm' as (i & Hi).
  assert (∃ m, pool !! i = Some m ∧ nodesOf m' = nodesOf m ∧ rootOf m' = rootOf m)
    as (m & Hm & En & Er).
  { assert ((nodesOf <$> pool') !! i = (nodesOf <$> pool) !! i) as E1 by (by rewrite Hn).
    assert ((rootOf <$> pool') !! i = (rootOf <$> pool) !! i) as E2 by (by rewrite Hr).
    rewrite !list_lookup_fmap, Hi in E1. rewrite !list_lookup_fmap, Hi in E2.
    simpl in *.
    destruct (pool !! i) as [m|]; [|done]. exists m. simpl in *. by simplify_eq. }
  apply list_elem_of_lookup_2 in Hm.
  destruct (T m Hm) as [Hnodes Hleaf]. unfold built. rewrite En, Er.
  rewrite (Hsame m (rootOf m)) by (done || apply rootOf_nodesOf).
  split; [done|]. intros p Hp. rewrite (Hsame m p); [by apply Hleaf|done|].
  rewrite Hnodes. by right.
Qed.

Lemma intact_appendChild pool d c d' :
  inv pool d → intact rootOf nodesOf pool d →
  appendChild c root d = Ok d' → intact rootOf nodesOf pool d'.
Proof.
  intros I T Happ. apply (intact_same_children pool pool d d'); try done.
  intros m n Hm Hn.
  assert (n ∈ own pool) as Hown by (by apply (own_marker pool m)).
  assert (c ∉ own pool) as Hc.
  { intros Hc. by rewrite (own_refused pool d c) in Happ. }
  apply appendChild_Ok in Happ as (_ & _ & _ & _ & _ & _ & K). rewrite K.
  rewrite decide_False.
  - rewrite decide_False; [by rewrite app_nil_r|]. by intros ->.
  - intros Hq. by apply (root_parent_outside pool d n).
Qed.

Lemma intact_remove pool d :
  inv pool d → intact rootOf nodesOf pool d →
  intact rootOf nodesOf pool (DOM.remove root d).
Proof.
  intros I T. apply (intact_same_children pool pool d); try done.
  intros m n Hm Hn. rewrite remove_childrenOf, decide_False; [done|].
  intros Hq. apply (root_parent_outside pool d n); try done.
  by apply (own_marker pool m).
Qed.

(** The first loop builds intact markers and leaves the others intact. *)
Lemma grow_intact (l : list (SVGGraphicsElement num)) pool w pool' w' :
  inv pool (document w) → intact rootOf nodesOf pool (document w) →
  forEachM (λ _ '(pool, w),
      '(m, d) ← create (document w);
      d ← appendChild root (rootOf m) d;
      mret (pool ++ [m], with_document d w)) l (pool, w)
  = Ok (pool', w') →
  intact rootOf nodesOf pool' (document w').
Proof.
  revert pool w. induction l as [|t l IH]; intros pool w I T E.
  - by injection E as <- <-.
  - pose proof (Pool.inv_wf _ _ _ _ _ I) as W.
    destruct (grow_one create rootOf root nodesOf create_spec rootOf_nodesOf
                pool (document w) I)
      as (m & d1 & d' & Hc & Ha & I' & G & Hnew & _).
    destruct (create_spec (document w) W)
      as (m0 & d0 & Hc0 & _ & _ & HF & _ & _ & Hp & _).
    rewrite Hc in Hc0. injection Hc0 as <- <-.
    cbn [forEachM] in E. cbn beta iota in E. rewrite Hc in E. cbn in E.
    rewrite Ha in E. cbn in E. apply IH in E; [done|done|].
    pose proof (inv_root_below rootOf root nodesOf _ _ I) as Hroot.
    pose proof Ha as (_ & _ & _ & _ & _ & _ & K)%appendChild_Ok.
    cbn [document with_document].
    intros m' [Hm'|Hm']%elem_of_app;
      [|apply list_elem_of_singleton in Hm'; subst m'].
    + destruct (T m' Hm') as [Hnodes Hleaf].
      assert (∀ n, n ∈ nodesOf m' →
                childrenOf d' n = childrenOf (document w) n) as Hsame.
      { intros n Hn. unfold childrenOf.
        destruct G as (_ & G & _). rewrite G; [done| |].
        - by eapply (inv_below rootOf root nodesOf).
        - intros ->. pose proof (Pool.inv_nodup _ _ _ _ _ I) as [Hno _]%NoDup_cons.
          apply Hno. apply list_elem_of_join. exists (nodesOf m').
          split; [done|]. apply list_elem_of_fmap. by exists m'. }
      unfold built. rewrite (Hsame (rootOf m')) by apply rootOf_nodesOf.
      split; [done|]. intros p Hp'. rewrite Hsame; [by apply Hleaf|].
      rewrite Hnodes. by right.
    + destruct (create_built _ _ _ Hc) as [Hnodes Hleaf].
      assert (∀ n, n ∈ nodesOf m → childrenOf d' n = childrenOf d1 n) as Hsame.
      { intros n Hn. rewrite K, Hp. rewrite decide_False by done.
        rewrite decide_False; [by rewrite app_nil_r|].
        intros ->. apply Hnew in Hn. lia. }
      unfold built. rewrite (Hsame (rootOf m)) by apply rootOf_nodesOf.
      split; [done|]. intros p Hp'. rewrite Hsame; [by apply Hleaf|].
      rewrite Hnodes. by right.
Qed.

Lemma refresh_intact targets pool w pool' w' :
  inv pool (document w) → intact rootOf nodesOf pool (document w) →
  refresh targets pool w = Ok (pool', w') →
  intact rootOf nodesOf pool' (document w').
Proof.
  intros I T E.
  destruct (grow_spec create rootOf root nodesOf create_spec rootOf_nodesOf
              targets pool w I)
    as (news & wg & Eg & Hlen & Ig & _).
  pose proof Eg as Tg. unfold Pool.grow in Tg. apply grow_intact in Tg; [|done..].
  unfold Pool.refresh in E. rewrite Eg in E. cbn in E.
  rewrite (show_spec update update_state update_writes update_spec) in E by lia.
  rewrite (hideExtra_spec rootOf hide hidden hide_spec) in E. cbn in E.
  injection E as <- <-. unfold with_document. cbn [document].
  apply (intact_same_children (pool ++ news) _ (document wg)).
  - apply (shown_nodesOf nodesOf update_state update_nodesOf).
  - apply (shown_rootOf rootOf update_state update_rootOf).
  - intros m n _ _. rewrite <- apply_writes_app.
    apply same_structure_childrenOf, apply_writes_same_structure.
  - done.
Qed.
End Subtree.

Section OwnNodes.
  Context {num : Type} `{JSNumber num}.

Lemma BoxTrace_new_built (a : BoxTrace.Appearance) d m d' :
  BoxTrace.new a d = Ok (m, d') → built BoxTrace.domNode BoxTrace.nodesOf m d'.
Proof.
  rewrite BoxTrace_new_result. intros [= <- <-].
  unfold built, childrenOf, Built.boxTrace, BoxTrace.nodesOf.
  cbn [nodes BoxTrace.domNode BoxTrace.lightDashing BoxTrace.darkDashing].
  rewrite lookup_insert_eq. split; [done|]. cbn [from_option Built.group childNodes].
  intros p Hp. each_write Hp;
    repeat first [rewrite lookup_insert_eq | rewrite lookup_insert_ne by lia]; done.
Qed.

Lemma BoxHighlighting_new_built d (m : BoxHighlighting.t num) d' :
  BoxHighlighting.new d = Ok (m, d') →
  built BoxHighlighting.domNode BoxHighlighting.nodesOf m d'.
Proof.
  rewrite BoxHighlighting_new_result. intros [= <- <-].
  unfold built, childrenOf, Built.boxHighlighting, BoxHighlighting.nodesOf,
    BoxHighlighting.cornerBoxes.
  cbn [nodes BoxHighlighting.domNode BoxHighlighting.boxTrace
       BoxHighlighting.topLeftCornerBox BoxHighlighting.topRightCornerBox
       BoxHighlighting.bottomRightCornerBox BoxHighlighting.bottomLeftCornerBox].
  rewrite lookup_insert_eq. split; [done|]. cbn [from_option Built.group childNodes].
  intros p Hp. each_write Hp;
    repeat first [rewrite lookup_insert_eq | rewrite lookup_insert_ne by lia]; done.
Qed.

Lemma tracings_perform_intact a (act : Action num) s s' :
  tracings_inv s.1 s.2 →
  intact BoxTrace.domNode BoxTrace.nodesOf
    (LiveSVGElementTracings.boxTraces s.1) (document s.2) →
  LiveSVGElementTracings.perform a act s = Ok s' →
  tracings_inv s'.1 s'.2 ∧
  intact BoxTrace.domNode BoxTrace.nodesOf
    (LiveSVGElementTracings.boxTraces s'.1) (document s'.2).
Proof.
  intros I T E. split; [by destruct (tracings_perform_inv a act s s' I E)|].
  destruct s as [this w]. destruct act as [c| |n env]; simpl in *.
  - unfold LiveSVGElementTracings.appendTo in E.
    destruct (appendChild _ _ _) as [d'|e] eqn:Ea; [|done]. injection E as <-.
    by apply (intact_appendChild BoxTrace.domNode _ BoxTrace.nodesOf
                (λ m, list_elem_of_here _ _) _ (document w) c d' I T).
  - injection E as <-.
    by apply (intact_remove BoxTrace.domNode _ BoxTrace.nodesOf
                (λ m, list_elem_of_here _ _)).
  - unfold LiveSVGElementTracings.notify in E.
    destruct (forEachM_preserves
                (λ s, tracings_inv s.1 s.2 ∧
                      intact BoxTrace.domNode BoxTrace.nodesOf
                        (LiveSVGElementTracings.boxTraces s.1) (document s.2))
                (λ _ _, True) (LiveSVGElementTracings.call a env)
                (listenersOf n w) (this, w) s') as [[_ T'] _]; try done.
    intros [r] [this1 w1] s2 [I1 T1]. unfold LiveSVGElementTracings.call.
    case_decide; [|by intros [= <-]]. cbn [fst snd]. intros E1.
    split; [|done]. split.
    + destruct (tracings_pass a env this1 w1 I1)
        as (news & dg & w' & E' & _ & _ & _ & _ & I' & _).
      rewrite E' in E1. by injection E1 as <-.
    + rewrite Tracings_refresh_pool in E1.
      destruct (Pool.refresh _ _ _ _ _ _ _ _) as [[pool1 w1']|] eqn:Ep; [|done].
      injection E1 as <-. cbn.
      apply (refresh_intact (BoxTrace.new a) BoxTrace.domNode TracePool.update
               TracePool.hide _ BoxTrace.nodesOf (λ _ m, m) TracePool.update_writes
               (num_to_string (num_lit 0 0)) (BoxTrace_new_spec a)
               (BoxTrace_new_built a) (λ m, list_elem_of_here _ _)
               TracePool_update_spec (λ _ _, eq_refl) (λ _ _, eq_refl)
               TracePool_hide_spec _ _ _ _ _ I1 T1 Ep).
Qed.

Lemma highlightings_perform_intact (act : Action num) s s' :
  highlightings_inv s.1 s.2 →
  intact BoxHighlighting.domNode BoxHighlighting.nodesOf
    (LiveSVGElementHighlightings.boxHighlightings s.1) (document s.2) →
  LiveSVGElementHighlightings.perform act s = Ok s' →
  highlightings_inv s'.1 s'.2 ∧
  intact BoxHighlighting.domNode BoxHighlighting.nodesOf
    (LiveSVGElementHighlightings.boxHighlightings s'.1) (document s'.2).
Proof.
  intros I T E. split; [by destruct (highlightings_perform_inv act s s' I E)|].
  destruct s as [this w]. destruct act as [c| |n env]; simpl in *.
  - unfold LiveSVGElementHighlightings.appendTo in E.
    destruct (appendChild _ _ _) as [d'|e] eqn:Ea; [|done]. injection E as <-.
    by apply (intact_appendChild BoxHighlighting.domNode _ BoxHighlighting.nodesOf
                (λ m, list_elem_of_here _ _) _ (document w) c d' I T).
  - injection E as <-.
    by apply (intact_remove BoxHighlighting.domNode _ BoxHighlighting.nodesOf
                (λ m, list_elem_of_here _ _)).
  - unfold LiveSVGElementHighlightings.notify in E.
    destruct (forEachM_preserves
                (λ s, highlightings_inv s.1 s.2 ∧
                      intact BoxHighlighting.domNode BoxHighlighting.nodesOf
                        (LiveSVGElementHighlightings.boxHighlightings s.1)
                        (document s.2))
                (λ _ _, True) (LiveSVGElementHighlightings.call env)
                (listenersOf n w) (this, w) s') as [[_ T'] _]; try done.
    intros [r] [this1 w1] s2 [I1 T1]. unfold LiveSVGElementHighlightings.call.
    case_decide; [|by intros [= <-]]. cbn [fst snd]. intros E1.
    split; [|done]. split.
    + destruct (highlightings_pass env this1 w1 I1)
        as (news & dg & w' & E' & _ & _ & _ & _ & _ & I' & _).
      rewrite E' in E1. by injection E1 as <-.
    + rewrite Highlightings_refresh_pool in E1.
      destruct (Pool.refresh _ _ _ _ _ _ _ _) as [[pool1 w1']|] eqn:Ep; [|done].
      injection E1 as <-. cbn.
      apply (refresh_intact BoxHighlighting.new BoxHighlighting.domNode
               (HighlightPool.update (num_div (num_lit 75 2) (horizontalScaling env)))
               HighlightPool.hide _ BoxHighlighting.nodesOf
               (HighlightPool.update_state
                  (num_div (num_lit 75 2) (horizontalScaling env)))
               (HighlightPool.update_writes
                  (num_div (num_lit 75 2) (horizontalScaling env)))
               (num_to_string (num_lit 0 0)) BoxHighlighting_new_spec
               BoxHighlighting_new_built (λ m, list_elem_of_here _ _)
               (HighlightPool_update_spec _) (λ _ _, eq_refl) (λ _ _, eq_refl)
               HighlightPool_hide_spec _ _ _ _ _ I1 T1 Ep).
Qed.

(** X13.  From its construction in a well-formed document on, whatever
    is called and whatever notifications arrive, the nodes of a
    controller form the tree its code builds: the children of each
    marker's group are that marker's paths and the paths have no
    children.  [appendTo] then refuses the nodes of the controller and no
    element besides them: with a node of the controller itself (its root
    group, the group of a marker or a path of a marker) as the container
    it throws a [HierarchyRequestError], and with an element of the
    document that is none of these it returns. *)
Theorem controller_refuses_its_own_nodes (kind : node → NodeKind) :
  (∀ a parentSVGDoc w (acts : list (Action num)) s',
     doc_wf (document w) →
     LiveSVGElementTracings.run a acts (LiveSVGElementTracings.new parentSVGDoc w)
     = Ok s' →
     (∀ m, m ∈ LiveSVGElementTracings.boxTraces s'.1 →
        childrenOf (document s'.2) (BoxTrace.domNode m)
        = [BoxTrace.lightDashing m; BoxTrace.darkDashing m] ∧
        childrenOf (document s'.2) (BoxTrace.lightDashing m) = [] ∧
        childrenOf (document s'.2) (BoxTrace.darkDashing m) = []) ∧
     ∀ container, is_Some (nodes (document s'.2) !! container) →
       (container ∈ tracings_nodes s'.1 →
        LiveSVGElementTracings.appendTo s'.1 container s'.2
        = Throw HierarchyRequestError) ∧
       (container ∉ tracings_nodes s'.1 → kind container = ElementNode →
        is_Ok (LiveSVGElementTracings.appendTo s'.1 container s'.2))) ∧
  (∀ parentSVGDoc w (acts : list (Action num)) s',
     doc_wf (document w) →
     LiveSVGElementHighlightings.run acts
       (LiveSVGElementHighlightings.new parentSVGDoc w) = Ok s' →
     (∀ m, m ∈ LiveSVGElementHighlightings.boxHighlightings s'.1 →
        childrenOf (document s'.2) (BoxHighlighting.domNode m)
        = BoxHighlighting.boxTrace m :: BoxHighlighting.cornerBoxes m ∧
        ∀ p, p ∈ BoxHighlighting.boxTrace m :: BoxHighlighting.cornerBoxes m →
          childrenOf (document s'.2) p = []) ∧
     ∀ container, is_Some (nodes (document s'.2) !! container) →
       (container ∈ highlightings_nodes s'.1 →
        LiveSVGElementHighlightings.appendTo s'.1 container s'.2
        = Throw HierarchyRequestError) ∧
       (container ∉ highlightings_nodes s'.1 → kind container = ElementNode →
        is_Ok (LiveSVGElementHighlightings.appendTo s'.1 container s'.2))).
Proof.
  split.
  - intros a parentSVGDoc w acts s' W Hrun.
    destruct (forEachM_preserves
                (λ s, tracings_inv s.1 s.2 ∧
                      intact BoxTrace.domNode BoxTrace.nodesOf
                        (LiveSVGElementTracings.boxTraces s.1) (document s.2))
                (λ _ _, True) (LiveSVGElementTracings.perform a) acts
                (LiveSVGElementTracings.new parentSVGDoc w) s') as [[I T] _];
      try done.
    { intros act s1 s2 [I1 T1] E1. split; [|done].
      by apply (tracings_perform_intact a act s1 s2). }
    { split; [by apply tracings_inv_new|]. by intros m ?%elem_of_nil. }
    destruct s' as [this' w']. cbn [fst snd] in *. split.
    + intros m Hm. destruct (T m Hm) as [Hnodes Hleaf].
      injection Hnodes as Hk. rewrite <- Hk in Hleaf |- *.
      split; [done|]. split; apply Hleaf; in_list.
    + intros c Hc. unfold LiveSVGElementTracings.appendTo, tracings_nodes.
      split; [intros Hown|intros Hown _].
      * by rewrite (own_refused BoxTrace.domNode _ BoxTrace.nodesOf
                      (λ m, list_elem_of_here _ _) _ (document w') c I T Hown).
      * destruct (outside_accepted BoxTrace.domNode _ BoxTrace.nodesOf
                    (λ m, list_elem_of_here _ _) _ (document w') c I T Hc Hown)
          as [d' ->].
        by eexists.
  - intros parentSVGDoc w acts s' W Hrun.
    destruct (forEachM_preserves
                (λ s, highlightings_inv s.1 s.2 ∧
                      intact BoxHighlighting.domNode BoxHighlighting.nodesOf
                        (LiveSVGElementHighlightings.boxHighlightings s.1)
                        (document s.2))
                (λ _ _, True) LiveSVGElementHighlightings.perform acts
                (LiveSVGElementHighlightings.new parentSVGDoc w) s') as [[I T] _];
      try done.
    { intros act s1 s2 [I1 T1] E1. split; [|done].
      by apply (highlightings_perform_intact act s1 s2). }
    { split; [by apply highlightings_inv_new|]. by intros m ?%elem_of_nil. }
    destruct s' as [this' w']. cbn [fst snd] in *. split.
    + intros m Hm. destruct (T m Hm) as [Hnodes Hleaf].
      unfold BoxHighlighting.nodesOf in Hnodes.
      injection Hnodes as Hk. rewrite <- Hk in Hleaf |- *. by split.
    + intros c Hc. unfold LiveSVGElementHighlightings.appendTo, highlightings_nodes.
      split; [intros Hown|intros Hown _].
      * by rewrite (own_refused BoxHighlighting.domNode _ BoxHighlighting.nodesOf
                      (λ m, list_elem_of_here _ _) _ (document w') c I T Hown).
      * destruct (outside_accepted BoxHighlighting.domNode _ BoxHighlighting.nodesOf
                    (λ m, list_elem_of_here _ _) _ (document w') c I T Hc Hown)
          as [d' ->].
        by eexists.
Qed.
End OwnNodes.

(** ** The properties on the example scene *)

Lemma BoxTrace_constructor_witness :
  ∃ d',
    BoxTrace.new BoxTrace.blueAqua (document exampleWorld) = Ok (BoxTrace.mk 2 3 4, d') ∧
    childrenOf d' 2 = [3; 4] ∧
    getStyle d' 2 "pointer-events" = Some "none" ∧
    getAttribute d' 2 "opacity" = None ∧
    getAttribute d' 3 "stroke" = Some "blue" ∧
    getAttribute d' 4 "stroke" = Some "aqua" ∧
    getAttribute d' 3 "stroke-dashoffset" = None ∧
    getAttribute d' 4 "stroke-dashoffset" = Some "0.75" ∧
    doc_wf d'.
Proof.
  destruct (proj1 BoxTrace_constructor BoxTrace.blueAqua (document exampleWorld))
    as (m & d' & E & Hn & _ & (g & Hg & _ & _ & Hk & Hs & Ha) & Hl & Hd & _ & W).
  destruct m as [r l k]. injection Hn as -> -> ->.
  cbn [BoxTrace.domNode BoxTrace.lightDashing BoxTrace.darkDashing] in *.
  exists d'. unfold childrenOf, getAttribute, getStyle. rewrite Hg, Hl, Hd.
  cbn [from_option mbind option_bind].
  split; [exact E|]. split; [exact Hk|].
  split; [rewrite Hs; reflexivity|].
  split; [apply Ha; by intros [=]|].
  split; [vm_compute; reflexivity|]. split; [vm_compute; reflexivity|].
  split; [vm_compute; reflexivity|]. split; [vm_compute; reflexivity|].
  exact (W exampleWorld_wf).
Defined.

Lemma BoxHighlighting_constructor_witness :
  ∃ (m : BoxHighlighting.t Q) d',
    BoxHighlighting.new (document exampleWorld) = Ok (m, d') ∧
    BoxHighlighting.nodesOf m = [2; 3; 4; 5; 6; 7] ∧
    childrenOf d' 2 = [3; 4; 5; 6; 7] ∧
    getStyle d' 2 "pointer-events" = Some "none" ∧
    getAttribute d' 2 "opacity" = None ∧
    getAttribute d' 3 "stroke-width" = Some "0.5" ∧
    getAttribute d' 3 "fill" = Some "none" ∧
    getAttribute d' 7 "fill" = Some "white" ∧
    doc_wf d'.
Proof.
  destruct (BoxHighlighting_constructor (num:=Q) (document exampleWorld))
    as (m & d' & E & Hn & _ & Ht & _ & (g & Hg & _ & _ & Hk & Hs & Ha) & Hb & Hc & _ & W).
  destruct m as [r bt tl tr br bl t hb].
  unfold BoxHighlighting.nodesOf, BoxHighlighting.cornerBoxes in *.
  cbn [BoxHighlighting.domNode BoxHighlighting.boxTrace
       BoxHighlighting.topLeftCornerBox BoxHighlighting.topRightCornerBox
       BoxHighlighting.bottomRightCornerBox BoxHighlighting.bottomLeftCornerBox
       BoxHighlighting.lineThickness] in *.
  injection Hn as -> -> -> -> -> ->. subst t.
  eexists _, d'. split; [exact E|]. split; [reflexivity|].
  unfold childrenOf, getAttribute, getStyle. rewrite Hg, Hb.
  rewrite (Hc 7) by (repeat constructor).
  cbn [from_option mbind option_bind].
  split; [exact Hk|].
  split; [rewrite Hs; reflexivity|].
  split; [apply Ha; by intros [=]|].
  split; [vm_compute; reflexivity|]. split; [vm_compute; reflexivity|].
  split; [vm_compute; reflexivity|].
  exact (W exampleWorld_wf).
Defined.

Lemma highlighting_stays_consistent_witness :
  ∃ (m m1 m2 : BoxHighlighting.t Q) d d1 d2,
    BoxHighlighting.new emptyDocument = Ok (m, d) ∧
    BoxHighlighting.highlight smallBox m d = (m1, d1) ∧
    BoxHighlighting.set_lineThickness (num_lit 4 0) m1 d1 = (m2, d2) ∧
    highlighting_consistent m2 d2 ∧
    BoxHighlighting.lineThickness m2 = num_lit 4 0 ∧
    BoxHighlighting.highlightedBox m2 = Some smallBox.
Proof.
  destruct (highlighting_stays_consistent (num:=Q)) as (Tn & Th & Tt & _).
  destruct (Tn emptyDocument) as (m & d & E & I).
  specialize (Th m d smallBox I).
  destruct (BoxHighlighting.highlight smallBox m d) as [m1 d1] eqn:E1.
  destruct Th as (I1 & Hb1 & _).
  specialize (Tt m1 d1 (num_lit 4 0) I1).
  destruct (BoxHighlighting.set_lineThickness (num_lit 4 0) m1 d1) as [m2 d2] eqn:E2.
  destruct Tt as (I2 & Ht2 & Hb2).
  exists m, m1, m2, d, d1, d2.
  split; [exact E|]. split; [exact E1|]. split; [exact E2|].
  split; [exact I2|]. split; [exact Ht2|].
  rewrite Hb2, Hb1. reflexivity.
Defined.

Lemma appendTo_then_remove_witness :
  ∃ w1,
    LiveSVGElementTracings.appendTo tracedTwo.1 1 tracedTwo.2 = Ok w1 ∧
    childrenOf (document tracedTwo.2) 1 = [] ∧
    childrenOf (document w1) 1 = [2] ∧
    LiveSVGElementTracings.remove tracedTwo.1 w1 = tracedTwo.2.
Proof.
  assert (is_Ok (LiveSVGElementTracings.appendTo tracedTwo.1 1 tracedTwo.2)) as [w1 E].
  { eexists. vm_compute. reflexivity. }
  exists w1. split; [exact E|]. split; [vm_compute; reflexivity|]. split.
  { pose proof E as E'. vm_compute in E'. injection E' as E'. rewrite <- E'.
    vm_compute. reflexivity. }
  destruct (appendTo_then_remove (num:=Q)) as (_ & _ & T & _).
  destruct (T tracedTwo.1 tracedTwo.2) as (_ & _ & R).
  apply (R 1 w1); [|vm_compute; reflexivity|exact E].
  exact (Pool.inv_wf _ _ _ _ _ tracedTwo_inv).
Defined.

Lemma BoxTrace_in_a_container_witness :
  ∃ m d1 d2 d3,
    BoxTrace.new BoxTrace.lightDark emptyDocument = Ok (m, d1) ∧
    createElementNS "svg" d1 = (3, d2) ∧
    childrenOf d2 3 = [] ∧
    BoxTrace.appendTo m 3 d2 = Ok d3 ∧
    childrenOf d3 3 = [0] ∧
    childrenOf d3 0 = [1; 2] ∧
    getAttribute (BoxTrace.trace m largeBox d3) 1 "d"
    = Some "M -22 84 h 501 v 221 h -501 z" ∧
    getAttribute (BoxTrace.trace m largeBox d3) 2 "d"
    = Some "M -22 84 h 501 v 221 h -501 z" ∧
    getAttribute (BoxTrace.setThickness m (num_lit 819772 5) d3) 1 "stroke-width"
    = Some "8.19772" ∧
    getAttribute (BoxTrace.setOpacity m (num_lit 56072 5) d3) 0 "opacity"
    = Some "0.56072" ∧
    childrenOf (BoxTrace.remove m d3) 3 = [].
Proof.
  destruct (BoxTrace_in_a_container BoxTrace.lightDark emptyDocument largeBox
              (num_lit 819772 5) (num_lit 56072 5) emptyDocument_wf)
    as (m & d1 & c & d2 & d3 & g & p0 & p1 & E & Ec & Hn & Kc & E3 & _ & K3 & Kg
        & T0 & T1 & S0 & _ & O & _ & _ & _ & _ & R).
  pose proof E as E'. vm_compute in E'. injection E' as Hm Hd1. subst m.
  injection Hn as <- <- <-.
  assert (c = 3) as ->.
  { pose proof Ec as Ec'. unfold createElementNS in Ec'. injection Ec' as Hc _.
    rewrite <- Hc, <- Hd1. reflexivity. }
  exists (BoxTrace.mk 0 1 2), d1, d2, d3.
  split; [exact E|]. split; [exact Ec|]. split; [exact Kc|].
  split; [exact E3|]. split; [exact K3|]. split; [exact Kg|].
  split; [exact T0|]. split; [exact T1|]. split; [exact S0|].
  split; [exact O|exact R].
Defined.

Lemma new_marker_refuses_its_own_nodes_witness :
  ∃ (m : BoxHighlighting.t Q) d1,
    BoxHighlighting.new (document exampleWorld) = Ok (m, d1) ∧
    BoxHighlighting.nodesOf m = [2; 3; 4; 5; 6; 7] ∧
    tagName <$> nodes d1 !! 1 = Some "svg" ∧
    BoxHighlighting.appendTo m 4 d1 = Throw HierarchyRequestError ∧
    is_Ok (BoxHighlighting.appendTo m 1 d1).
Proof.
  assert (is_Ok (BoxHighlighting.new (num:=Q) (document exampleWorld))) as [[m d1] E].
  { eexists. vm_compute. reflexivity. }
  pose proof (proj2 (new_marker_refuses_its_own_nodes (num:=Q) (λ _, ElementNode))
                (document exampleWorld) m d1) as T.
  assert (BoxHighlighting.nodesOf m = [2; 3; 4; 5; 6; 7]
          ∧ is_Some (nodes d1 !! 4) ∧ is_Some (nodes d1 !! 1)
          ∧ tagName <$> nodes d1 !! 1 = Some "svg") as (Hn & H4 & H1 & Ht).
  { clear T. vm_compute in E. injection E as <- <-.
    split; [reflexivity|]. split; [eexists; vm_compute; reflexivity|].
    split; [eexists; vm_compute; reflexivity|]. vm_compute. reflexivity. }
  exists m, d1. split; [exact E|]. split; [exact Hn|]. split; [exact Ht|]. split.
  - apply (T 4 exampleWorld_wf E H4). rewrite Hn.
    do 2 apply list_elem_of_further. apply list_elem_of_here.
  - apply (T 1 exampleWorld_wf E H1); [|reflexivity]. rewrite Hn.
    rewrite !not_elem_of_cons. split_and!; first [apply not_elem_of_nil|lia].
Defined.

Lemma refresh_outcome_witness :
  ∃ this' w',
    LiveSVGElementTracings.refresh BoxTrace.lightDark twoDetached tracedTwo.1 tracedTwo.2
    = Ok (this', w') ∧
    console w' = [Thrown "element is not rendered"; Thrown "element is not rendered"] ∧
    (∃ m, LiveSVGElementTracings.boxTraces this' !! 1 = Some m ∧
       traces m smallBox (document w')) ∧
    (∃ m, LiveSVGElementTracings.boxTraces this' !! 0 = Some m ∧
       LiveSVGElementTracings.boxTraces tracedTwo.1 !! 0 = Some m ∧
       ∀ n k, n ∈ BoxTrace.nodesOf m →
         getAttribute (document w') n k = getAttribute (document tracedTwo.2) n k) ∧
    (∃ m, LiveSVGElementTracings.boxTraces this' !! 2 = Some m ∧
       LiveSVGElementTracings.boxTraces tracedTwo.1 !! 2 = None ∧
       untouched (BoxTrace.nodesOf m) (document w')).
Proof.
  destruct (proj1 (refresh_outcome (num:=Q)) BoxTrace.lightDark twoDetached
              tracedTwo.1 tracedTwo.2 tracedTwo_inv)
    as (this' & w' & E & Hc & Ht & _).
  exists this', w'. split; [exact E|]. split; [exact Hc|].
  split; [exact (Ht 1 (mkTarget (Ok smallBox)) eq_refl)|]. split.
  - destruct (Ht 0 detached eq_refl) as (m & Hm & Hf).
    exists m. split; [exact Hm|]. cbn [getBBox detached] in Hf.
    destruct (LiveSVGElementTracings.boxTraces tracedTwo.1 !! 0) as [m0|] eqn:E0;
      [|vm_compute in E0; discriminate].
    destruct Hf as [-> Hf]. split; [reflexivity|exact Hf].
  - destruct (Ht 2 detached eq_refl) as (m & Hm & Hf).
    exists m. split; [exact Hm|]. cbn [getBBox detached] in Hf.
    destruct (LiveSVGElementTracings.boxTraces tracedTwo.1 !! 2) as [m0|] eqn:E0;
      [vm_compute in E0; discriminate|].
    split; [reflexivity|exact Hf].
Defined.

Lemma refresh_leaves_the_rest_witness :
  ∃ this' w',
    LiveSVGElementTracings.refresh BoxTrace.lightDark oneDetached tracedTwo.1 tracedTwo.2
    = Ok (this', w') ∧
    nodes (document w') !! 0 = nodes (document tracedTwo.2) !! 0 ∧
    nodes (document w') !! 1 = nodes (document tracedTwo.2) !! 1 ∧
    getAttribute (document w') 4 "stroke" = Some "powderblue" ∧
    observations w' = observations tracedTwo.2.
Proof.
  destruct (tracings_pass BoxTrace.lightDark oneDetached _ _ tracedTwo_inv)
    as (news & dg & w' & E & _).
  destruct (proj1 (refresh_leaves_the_rest (num:=Q)) BoxTrace.lightDark oneDetached
              _ _ _ _ tracedTwo_inv E) as (_ & Ho & _ & _ & _ & Hk & Hn).
  assert (nextNode (document tracedTwo.2) = 9) as H9 by (vm_compute; reflexivity).
  assert (LiveSVGElementTracings.domNode tracedTwo.1 = 2) as H2
    by (vm_compute; reflexivity).
  assert (mjoin (BoxTrace.nodesOf <$> LiveSVGElementTracings.boxTraces tracedTwo.1)
          = [3; 4; 5; 6; 7; 8]) as Hj by (vm_compute; reflexivity).
  assert (getAttribute (document tracedTwo.2) 4 "stroke" = Some "powderblue") as Hs
    by (vm_compute; reflexivity).
  rewrite H9, H2, Hj in Hn. rewrite H9 in Hk.
  eexists _, w'. split; [exact E|].
  split.
  { apply Hn; [lia|lia|].
    rewrite !not_elem_of_cons. split_and!; first [apply not_elem_of_nil|lia|by intros [=]]. }
  split.
  { apply Hn; [lia|lia|].
    rewrite !not_elem_of_cons. split_and!; first [apply not_elem_of_nil|lia|by intros [=]]. }
  split; [|exact Ho].
  rewrite (Hk 4 "stroke"); [exact Hs|lia|].
  rewrite !not_elem_of_cons. split_and!; first [apply not_elem_of_nil|lia|by intros [=]].
Defined.

Lemma refresh_again_changes_nothing_witness :
  ∃ this1 w1 w2,
    LiveSVGElementTracings.refresh BoxTrace.lightDark oneDetached
      exampleTracings.1 exampleTracings.2 = Ok (this1, w1) ∧
    LiveSVGElementTracings.refresh BoxTrace.lightDark oneDetached this1 w1
    = Ok (this1, w2) ∧
    document w2 = document w1 ∧
    console w1 = [Thrown "element is not rendered"] ∧
    console w2 = [Thrown "element is not rendered"; Thrown "element is not rendered"].
Proof.
  destruct (tracings_pass BoxTrace.lightDark oneDetached _ _ exampleTracings_inv)
    as (news & dg & w1 & E & Hc & _).
  pose proof (proj1 (refresh_again_changes_nothing (num:=Q)) BoxTrace.lightDark
                oneDetached _ _ _ _ exampleTracings_inv E) as E2.
  eexists _, w1, _. split; [exact E|]. split; [exact E2|].
  split; [reflexivity|]. split; [exact Hc|].
  cbn [console]. rewrite Hc. reflexivity.
Defined.

Lemma refresh_allocates_for_missing_markers_witness :
  nextNode (document exampleTracings.2) = 3 ∧
  nextNode (document tracedTwo.2) = 9 ∧
  ∃ w',
    LiveSVGElementTracings.refresh BoxTrace.lightDark oneTarget tracedTwo.1 tracedTwo.2
    = Ok (tracedTwo.1, w') ∧
    nextNode (document w') = 9.
Proof.
  split; [reflexivity|].
  assert (nextNode (document tracedTwo.2) = 9) as H9 by (vm_compute; reflexivity).
  split; [exact H9|].
  destruct (tracings_pass BoxTrace.lightDark oneTarget _ _ tracedTwo_inv)
    as (news & dg & w' & E & _).
  destruct (proj1 (refresh_allocates_for_missing_markers (num:=Q)) BoxTrace.lightDark
              oneTarget _ _ _ _ tracedTwo_inv E) as (_ & Hsame).
  destruct Hsame as [Ht Hn]; [vm_compute; lia|].
  rewrite Ht in E. exists w'. split; [exact E|]. by rewrite Hn.
Defined.

Lemma controller_refuses_its_own_nodes_witness :
  ∃ s',
    LiveSVGElementTracings.run BoxTrace.lightDark [Notify Change twoTargets]
      (LiveSVGElementTracings.new 0 exampleWorld) = Ok s' ∧
    tracings_nodes s'.1 = [2; 3; 4; 5; 6; 7; 8] ∧
    childrenOf (document s'.2) 6 = [7; 8] ∧
    tagName <$> nodes (document s'.2) !! 1 = Some "svg" ∧
    LiveSVGElementTracings.appendTo s'.1 5 s'.2 = Throw HierarchyRequestError ∧
    is_Ok (LiveSVGElementTracings.appendTo s'.1 1 s'.2).
Proof.
  assert (is_Ok (LiveSVGElementTracings.run BoxTrace.lightDark
                   [Notify Change twoTargets]
                   (LiveSVGElementTracings.new 0 exampleWorld))) as [s' E].
  { eexists. vm_compute. reflexivity. }
  destruct (proj1 (controller_refuses_its_own_nodes (num:=Q) (λ _, ElementNode))
              BoxTrace.lightDark 0 exampleWorld [Notify Change twoTargets] s'
              exampleWorld_wf E) as [Hk Hc].
  assert (tracings_nodes s'.1 = [2; 3; 4; 5; 6; 7; 8]
          ∧ BoxTrace.mk 6 7 8 ∈ LiveSVGElementTracings.boxTraces s'.1
          ∧ is_Some (nodes (document s'.2) !! 1)
          ∧ is_Some (nodes (document s'.2) !! 5)
          ∧ tagName <$> nodes (document s'.2) !! 1 = Some "svg")
    as (Hn & Hm & H1 & H5 & Ht).
  { clear Hk Hc. vm_compute in E. injection E as <-.
    split; [vm_compute; reflexivity|].
    split; [apply list_elem_of_further, list_elem_of_here|].
    split; [eexists; vm_compute; reflexivity|].
    split; [eexists; vm_compute; reflexivity|]. vm_compute. reflexivity. }
  exists s'. split; [exact E|]. split; [exact Hn|].
  split; [exact (proj1 (Hk _ Hm))|]. split; [exact Ht|]. split.
  - apply (Hc 5 H5). rewrite Hn.
    do 3 apply list_elem_of_further. apply list_elem_of_here.
  - apply (Hc 1 H1); [|reflexivity]. rewrite Hn.
    rewrite !not_elem_of_cons. split_and!; first [apply not_elem_of_nil|lia].
Defined.
